(** * License server: token codec, activation engine and admin operations

    A shallow embedding of the license server
    ([app/utils/crypto.py], [app/models.py], [app/routes/licenses.py],
    [app/routes/admin.py], [cli/create_license_cli.py] and the Supabase
    variant [main.py]) together with the properties its specification
    states about it.

    Conventions.
    - A Python [bytes] value is a [list byte]; a Python [str] is a Rocq
      [string] holding its UTF-8 bytes, so [s.encode()] is
      [list_byte_of_string] and [.decode()] of ASCII output is
      [string_of_list_byte].
    - A [datetime] is a number of seconds ([Z]); [timedelta(days=n)] is
      [n * 86400].  The one datetime that is compared after a round trip
      through the database, the expiry of a license, also records
      whether it carries a UTC offset.
    - Database statements, REST calls, the clock and the random source are
      effects of a small free monad; a world record interprets them. *)

From Stdlib Require Import ZArith List Bool Lia.
From Stdlib.Strings Require Import String Ascii Byte.
From Stdlib Require Import DecimalString.
Import ListNotations.

Set Implicit Arguments.

(* ================================================================== *)
(** ** Bytes *)

Module Bytes.

Definition bytes := list byte.

Definition byte_to_Z (b : byte) : Z := Z.of_N (Byte.to_N b).

(** The byte whose value is [x mod 256]. *)
Definition byte_of_Z (x : Z) : byte :=
  match Byte.of_N (Z.to_N (x mod 256)) with
  | Some b => b
  | None => x00
  end.

Definition byte_eqb (a b : byte) : bool := Byte.eqb a b.

Fixpoint bytes_eqb (a b : bytes) : bool :=
  match a, b with
  | [], [] => true
  | x :: a', y :: b' => byte_eqb x y && bytes_eqb a' b'
  | _, _ => false
  end.

(** [s.encode()] and [bs.decode()]. *)
Definition encode (s : string) : bytes := list_byte_of_string s.
Definition decode (bs : bytes) : string := string_of_list_byte bs.

(** The 256 byte values, in order. *)
Definition all_bytes : bytes :=
  map (fun n => byte_of_Z (Z.of_nat n)) (seq 0 256).

End Bytes.
Import Bytes.

(* ================================================================== *)
(** ** SHA-256 ([hashlib.sha256]) and HMAC ([hmac.new(...).digest()])

    The two library functions the token codec calls, following FIPS 180-4
    and RFC 2104, over 32-bit words kept in [Z] with the wrap-around
    written out. *)

Module Sha256.

Local Open Scope Z_scope.

Definition wrap32 (x : Z) : Z := x mod 4294967296.
Definition add32 (x y : Z) : Z := wrap32 (x + y).
Definition rotr (n x : Z) : Z :=
  Z.lor (Z.shiftr x n) (wrap32 (Z.shiftl x (32 - n))).
Definition not32 (x : Z) : Z := Z.lxor x 4294967295.

Definition ch (x y z : Z) : Z :=
  Z.lxor (Z.land x y) (Z.land (not32 x) z).
Definition maj (x y z : Z) : Z :=
  Z.lxor (Z.lxor (Z.land x y) (Z.land x z)) (Z.land y z).
Definition bsig0 (x : Z) : Z :=
  Z.lxor (Z.lxor (rotr 2 x) (rotr 13 x)) (rotr 22 x).
Definition bsig1 (x : Z) : Z :=
  Z.lxor (Z.lxor (rotr 6 x) (rotr 11 x)) (rotr 25 x).
Definition ssig0 (x : Z) : Z :=
  Z.lxor (Z.lxor (rotr 7 x) (rotr 18 x)) (Z.shiftr x 3).
Definition ssig1 (x : Z) : Z :=
  Z.lxor (Z.lxor (rotr 17 x) (rotr 19 x)) (Z.shiftr x 10).

Definition round_constants : list Z :=
  [ 0x428A2F98 ; 0x71374491 ; 0xB5C0FBCF ; 0xE9B5DBA5
  ; 0x3956C25B ; 0x59F111F1 ; 0x923F82A4 ; 0xAB1C5ED5
  ; 0xD807AA98 ; 0x12835B01 ; 0x243185BE ; 0x550C7DC3
  ; 0x72BE5D74 ; 0x80DEB1FE ; 0x9BDC06A7 ; 0xC19BF174
  ; 0xE49B69C1 ; 0xEFBE4786 ; 0x0FC19DC6 ; 0x240CA1CC
  ; 0x2DE92C6F ; 0x4A7484AA ; 0x5CB0A9DC ; 0x76F988DA
  ; 0x983E5152 ; 0xA831C66D ; 0xB00327C8 ; 0xBF597FC7
  ; 0xC6E00BF3 ; 0xD5A79147 ; 0x06CA6351 ; 0x14292967
  ; 0x27B70A85 ; 0x2E1B2138 ; 0x4D2C6DFC ; 0x53380D13
  ; 0x650A7354 ; 0x766A0ABB ; 0x81C2C92E ; 0x92722C85
  ; 0xA2BFE8A1 ; 0xA81A664B ; 0xC24B8B70 ; 0xC76C51A3
  ; 0xD192E819 ; 0xD6990624 ; 0xF40E3585 ; 0x106AA070
  ; 0x19A4C116 ; 0x1E376C08 ; 0x2748774C ; 0x34B0BCB5
  ; 0x391C0CB3 ; 0x4ED8AA4A ; 0x5B9CCA4F ; 0x682E6FF3
  ; 0x748F82EE ; 0x78A5636F ; 0x84C87814 ; 0x8CC70208
  ; 0x90BEFFFA ; 0xA4506CEB ; 0xBEF9A3F7 ; 0xC67178F2 ].

(** The eight working variables / chaining values. *)
Record regs : Type := Regs
  { ra : Z; rb : Z; rc : Z; rd : Z; re : Z; rf : Z; rg : Z; rh : Z }.

Definition initial_hash : regs :=
  Regs 0x6A09E667 0xBB67AE85 0x3C6EF372 0xA54FF53A
       0x510E527F 0x9B05688C 0x1F83D9AB 0x5BE0CD19.

(** Padding: the byte 0x80, zero bytes up to 56 mod 64, then the bit
    length as a 64-bit big-endian integer. *)
Definition be_bytes (n : nat) (x : Z) : bytes :=
  map (fun i => byte_of_Z (Z.shiftr x (8 * Z.of_nat i))) (rev (seq 0 n)).

Definition pad (msg : bytes) : bytes :=
  let len := Z.of_nat (List.length msg) in
  let zeros := Z.to_nat ((55 - len) mod 64) in
  msg ++ [x80] ++ repeat x00 zeros ++ be_bytes 8 (8 * len).

(** Big-endian 32-bit words of a byte string (a trailing group of fewer
    than four bytes is dropped; padded input has none). *)
Fixpoint words_of (bs : bytes) : list Z :=
  match bs with
  | b0 :: b1 :: b2 :: b3 :: rest =>
      (byte_to_Z b0 * 16777216 + byte_to_Z b1 * 65536
       + byte_to_Z b2 * 256 + byte_to_Z b3) :: words_of rest
  | _ => []
  end.

(** Message schedule.  [recent] holds the words computed so far, newest
    first, so that W(t-2), W(t-7), W(t-15), W(t-16) sit at positions
    1, 6, 14, 15. *)
Fixpoint extend (n : nat) (recent : list Z) : list Z :=
  match n with
  | O => recent
  | S n' =>
      let wt := add32 (add32 (ssig1 (nth 1 recent 0)) (nth 6 recent 0))
                      (add32 (ssig0 (nth 14 recent 0)) (nth 15 recent 0)) in
      extend n' (wt :: recent)
  end.

Definition schedule (block : list Z) : list Z :=
  rev (extend 48 (rev block)).

Definition round (s : regs) (kw : Z * Z) : regs :=
  let t1 := add32 (add32 (add32 (rh s) (bsig1 (re s)))
                         (add32 (ch (re s) (rf s) (rg s)) (fst kw)))
                  (snd kw) in
  let t2 := add32 (bsig0 (ra s)) (maj (ra s) (rb s) (rc s)) in
  Regs (add32 t1 t2) (ra s) (rb s) (rc s) (add32 (rd s) t1) (re s) (rf s) (rg s).

Definition compress (h : regs) (block : list Z) : regs :=
  let s := fold_left round (combine round_constants (schedule block)) h in
  Regs (add32 (ra h) (ra s)) (add32 (rb h) (rb s))
       (add32 (rc h) (rc s)) (add32 (rd h) (rd s))
       (add32 (re h) (re s)) (add32 (rf h) (rf s))
       (add32 (rg h) (rg s)) (add32 (rh h) (rh s)).

(** Hash the first [n] 16-word blocks of [ws]. *)
Fixpoint absorb (n : nat) (h : regs) (ws : list Z) : regs :=
  match n with
  | O => h
  | S n' => absorb n' (compress h (firstn 16 ws)) (skipn 16 ws)
  end.

Definition digest_of (h : regs) : bytes :=
  be_bytes 4 (ra h) ++ be_bytes 4 (rb h) ++ be_bytes 4 (rc h)
  ++ be_bytes 4 (rd h) ++ be_bytes 4 (re h) ++ be_bytes 4 (rf h)
  ++ be_bytes 4 (rg h) ++ be_bytes 4 (rh h).

Definition sha256 (msg : bytes) : bytes :=
  let ws := words_of (pad msg) in
  digest_of (absorb (Nat.div (List.length ws) 16) initial_hash ws).

(** HMAC (RFC 2104) with block size 64. *)
Definition xor_byte (c : Z) (b : byte) : byte :=
  byte_of_Z (Z.lxor c (byte_to_Z b)).

Definition hmac_sha256 (key msg : bytes) : bytes :=
  let k0 := if Nat.ltb 64 (List.length key) then sha256 key else key in
  let k := k0 ++ repeat x00 (64 - List.length k0) in
  sha256 (map (xor_byte 0x5C) k ++ sha256 (map (xor_byte 0x36) k ++ msg)).

End Sha256.

(* ================================================================== *)
(** ** Base64 ([base64.urlsafe_b64encode] / [base64.urlsafe_b64decode])

    The encoder is [binascii.b2a_base64] followed by the translation of
    [+] and [/] to [-] and [_]; the decoder translates back and runs
    [binascii.a2b_base64] in its default, lenient mode: bytes outside the
    alphabet are skipped, a sufficient run of [=] ends the input, and an
    incomplete final group raises [binascii.Error]. *)

Inductive exn : Type :=
| BinasciiError
| ValueError
| TypeError
    (* an offset-aware datetime compared with a naive one *)
| IntegrityError
    (* a commit that would break a UNIQUE constraint *)
| OverflowError
    (* a commit of an integer the column cannot hold (the driver's
       OverflowError on SQLite, its DataError on PostgreSQL) *)
| HTTPException (status_code : Z) (detail : string).

Inductive result (A : Type) : Type :=
| Return (a : A)
| Raise (e : exn).
Arguments Return {A} a.
Arguments Raise {A} e.

Module Base64.

Local Open Scope Z_scope.

Definition pad_char : byte := "=".
Definition plus : byte := "+".
Definition slash : byte := "/".
Definition minus : byte := "-".
Definition underscore : byte := "_".

(** [table_b2a_base64]: the standard alphabet. *)
Definition b2a (s : Z) : byte :=
  if s <? 26 then byte_of_Z (65 + s)
  else if s <? 52 then byte_of_Z (97 + (s - 26))
  else if s <? 62 then byte_of_Z (48 + (s - 52))
  else if s =? 62 then plus
  else slash.

(** [table_a2b_base64]: [None] for a byte outside the alphabet. *)
Definition a2b (c : byte) : option Z :=
  let v := byte_to_Z c in
  if (65 <=? v) && (v <=? 90) then Some (v - 65)
  else if (97 <=? v) && (v <=? 122) then Some (v - 97 + 26)
  else if (48 <=? v) && (v <=? 57) then Some (v - 48 + 52)
  else if byte_eqb c plus then Some 62
  else if byte_eqb c slash then Some 63
  else None.

Fixpoint b64encode (bs : bytes) : bytes :=
  match bs with
  | [] => []
  | [x] =>
      let x := byte_to_Z x in
      [ b2a (Z.shiftr x 2); b2a (Z.shiftl (Z.land x 3) 4);
        pad_char; pad_char ]
  | [x; y] =>
      let x := byte_to_Z x in
      let y := byte_to_Z y in
      [ b2a (Z.shiftr x 2);
        b2a (Z.lor (Z.shiftl (Z.land x 3) 4) (Z.shiftr y 4));
        b2a (Z.shiftl (Z.land y 15) 2);
        pad_char ]
  | x :: y :: z :: rest =>
      let x := byte_to_Z x in
      let y := byte_to_Z y in
      let z := byte_to_Z z in
      b2a (Z.shiftr x 2)
      :: b2a (Z.lor (Z.shiftl (Z.land x 3) 4) (Z.shiftr y 4))
      :: b2a (Z.lor (Z.shiftl (Z.land y 15) 2) (Z.shiftr z 6))
      :: b2a (Z.land z 63)
      :: b64encode rest
  end.

(** The decoding loop.  [quad_pos] is the position inside the current
    group of four, [leftchar] the bits not yet written, [pads] the
    current run of [=], [acc] the output so far, newest byte first. *)
Fixpoint a2b_loop (s : bytes) (quad_pos leftchar pads : Z) (acc : bytes)
  : result bytes :=
  match s with
  | [] => if quad_pos =? 0 then Return (rev acc) else Raise BinasciiError
  | c :: rest =>
      if byte_eqb c pad_char then
        if 2 <=? quad_pos then
          if 4 <=? quad_pos + (pads + 1) then Return (rev acc)
          else a2b_loop rest quad_pos leftchar (pads + 1) acc
        else a2b_loop rest quad_pos leftchar pads acc
      else
        match a2b c with
        | None => a2b_loop rest quad_pos leftchar pads acc
        | Some v =>
            if quad_pos =? 0 then a2b_loop rest 1 v 0 acc
            else if quad_pos =? 1 then
              a2b_loop rest 2 (Z.land v 15) 0
                (byte_of_Z (Z.lor (Z.shiftl leftchar 2) (Z.shiftr v 4)) :: acc)
            else if quad_pos =? 2 then
              a2b_loop rest 3 (Z.land v 3) 0
                (byte_of_Z (Z.lor (Z.shiftl leftchar 4) (Z.shiftr v 2)) :: acc)
            else
              a2b_loop rest 0 0 0
                (byte_of_Z (Z.lor (Z.shiftl leftchar 6) v) :: acc)
        end
  end.

Definition b64decode (s : bytes) : result bytes := a2b_loop s 0 0 0 [].

(** [_urlsafe_encode_translation] and [_urlsafe_decode_translation]. *)
Definition urlsafe_encode_translation (c : byte) : byte :=
  if byte_eqb c plus then minus
  else if byte_eqb c slash then underscore
  else c.

Definition urlsafe_decode_translation (c : byte) : byte :=
  if byte_eqb c minus then plus
  else if byte_eqb c underscore then slash
  else c.

Definition urlsafe_b64encode (bs : bytes) : bytes :=
  map urlsafe_encode_translation (b64encode bs).

Definition urlsafe_b64decode (s : bytes) : result bytes :=
  b64decode (map urlsafe_decode_translation s).

(** The characters a URL-safe encoding may contain. *)
Definition urlsafe_alphabet (c : byte) : bool :=
  let v := byte_to_Z c in
  ((65 <=? v) && (v <=? 90)) || ((97 <=? v) && (v <=? 122))
  || ((48 <=? v) && (v <=? 57))
  || byte_eqb c minus || byte_eqb c underscore || byte_eqb c pad_char.

End Base64.

(* ================================================================== *)
(** ** Token codec ([app/utils/crypto.py], and [sign_activation] of
       [main.py], which is the same function) *)

Module Crypto.

Definition tilde : byte := "~".

(** [str(n)] for an [int]. *)
Definition str_of_int (n : Z) : string := NilZero.string_of_int (Z.to_int n).

(** [device_id or ''] : [None] and the empty string both give [''] . *)
Definition or_empty (device_id : option string) : string :=
  match device_id with
  | Some d => d
  | None => EmptyString
  end.

(** The f-string [f"{license_key}|{device_id or ''}|{int(ts)}"]. *)
Definition payload_of (license_key : string) (device_id : option string)
           (ts : Z) : string :=
  (license_key ++ "|" ++ or_empty device_id ++ "|" ++ str_of_int ts)%string.

(** [sign_activation] once [int(datetime.utcnow().timestamp())] has been
    read as [ts], a whole number of seconds (the process runs in UTC,
    where [timestamp()] of [utcnow()] is the reading itself); [secret]
    is [ACTIVATION_SECRET]. *)
Definition sign_activation_at (secret : string) (ts : Z)
           (license_key : string) (device_id : option string) : string :=
  let payload := payload_of license_key device_id ts in
  let sig := Sha256.hmac_sha256 (encode secret) (encode payload) in
  decode (Base64.urlsafe_b64encode (encode payload ++ [tilde] ++ sig)).

(** [raw.rsplit(sep, 1)]: split at the last occurrence of [sep]; a list
    of one element when [sep] does not occur. *)
Fixpoint rsplit_last (sep : byte) (bs : bytes) : option (bytes * bytes) :=
  match bs with
  | [] => None
  | b :: rest =>
      match rsplit_last sep rest with
      | Some (p, s) => Some (b :: p, s)
      | None => if byte_eqb b sep then Some ([], rest) else None
      end
  end.

Definition rsplit1 (sep : byte) (bs : bytes) : list bytes :=
  match rsplit_last sep bs with
  | Some (p, s) => [p; s]
  | None => [bs]
  end.

(** [hmac.compare_digest]: equality of byte strings. *)
Definition compare_digest (a b : bytes) : bool := bytes_eqb a b.

(** The body of the [try] block of [verify_activation_token]. *)
Definition verify_body (secret : string) (token : string) : result bool :=
  match Base64.urlsafe_b64decode (encode token) with
  | Raise e => Raise e
  | Return raw =>
      match rsplit1 tilde raw with
      | [payload; sig] =>
          let expected := Sha256.hmac_sha256 (encode secret) payload in
          Return (compare_digest expected sig)
      | _ => Raise ValueError  (* unpacking into two names fails *)
      end
  end.

(** [try: ... except Exception: return False]. *)
Definition verify_activation_token (secret : string) (token : string)
  : result bool :=
  match verify_body secret token with
  | Return b => Return b
  | Raise _ => Return false
  end.

End Crypto.

(* ================================================================== *)
(** ** Programs with effects

    A request handler is a finite tree of effects: each node is one
    event (a database statement, a REST call, a clock or random read)
    and the continuation that receives its answer.  [run] executes a
    handler to completion; [step] executes its next event only, which is
    the grain at which concurrent requests interleave. *)

Section Free.

Variable E : Type -> Type.

Inductive Prog (A : Type) : Type :=
| Ret (a : A)
| Vis (X : Type) (e : E X) (k : X -> Prog A).

Arguments Ret {A} a.
Arguments Vis {A X} e k.

Fixpoint bind {A B : Type} (p : Prog A) (f : A -> Prog B) : Prog B :=
  match p with
  | Ret a => f a
  | Vis e k => Vis e (fun x => bind (k x) f)
  end.

Definition call {X : Type} (e : E X) : Prog X := Vis e (fun x => Ret x).

Variable W : Type.
Variable handle : forall X : Type, E X -> W -> X * W.

Fixpoint run {A : Type} (p : Prog A) (w : W) : A * W :=
  match p with
  | Ret a => (a, w)
  | Vis e k => let (x, w') := handle e w in run (k x) w'
  end.

Definition step {A : Type} (p : Prog A) (w : W) : Prog A * W :=
  match p with
  | Ret a => (Ret a, w)
  | Vis e k => let (x, w') := handle e w in (k x, w')
  end.

(** Requests served one after the other. *)
Fixpoint run_all {A : Type} (ps : list (Prog A)) (w : W) : list A * W :=
  match ps with
  | [] => ([], w)
  | p :: ps' =>
      let (a, w1) := run p w in
      let (rest, w2) := run_all ps' w1 in
      (a :: rest, w2)
  end.

(** Requests in flight together: [schedule] names, event by event,
    which request moves next. *)
Fixpoint replace_nth {A : Type} (n : nat) (x : A) (l : list A) : list A :=
  match l, n with
  | [], _ => []
  | _ :: t, O => x :: t
  | h :: t, S n' => h :: replace_nth n' x t
  end.

Fixpoint interleave {A : Type} (schedule : list nat)
         (ps : list (Prog A)) (w : W) : list (Prog A) * W :=
  match schedule with
  | [] => (ps, w)
  | i :: schedule' =>
      match nth_error ps i with
      | None => interleave schedule' ps w
      | Some p =>
          let (p', w') := step p w in
          interleave schedule' (replace_nth i p' ps) w'
      end
  end.

Definition finished {A : Type} (p : Prog A) : option A :=
  match p with
  | Ret a => Some a
  | Vis _ _ => None
  end.

End Free.

Arguments Ret {E A} a.
Arguments Vis {E A X} e k.
Arguments call {E X} e.

Declare Scope prog_scope.
Delimit Scope prog_scope with prog.
Notation "x <- p ;; q" := (bind p (fun x => q))
  (at level 61, p at next level, right associativity) : prog_scope.
Notation "p ;;; q" := (bind p (fun _ => q))
  (at level 61, right associativity) : prog_scope.

(** Python truthiness of the values the handlers test. *)
Definition truthy_str (s : option string) : bool :=
  match s with
  | Some s => negb (String.eqb s EmptyString)
  | None => false
  end.

Definition truthy_bool (b : option bool) : bool :=
  match b with
  | Some b => b
  | None => false
  end.

(** [n or 0] for a nullable integer. *)
Definition int_or_0 (n : option Z) : Z :=
  match n with
  | Some n => n
  | None => 0%Z
  end.

Definition opt_str_eqb (a b : option string) : bool :=
  match a, b with
  | Some x, Some y => String.eqb x y
  | None, None => true
  | _, _ => false
  end.

Definition days (n : Z) : Z := (n * 86400)%Z.

(* ================================================================== *)
(** ** Datetimes and the database behind [DATABASE_URL]

    A [datetime] is its number of seconds and whether it carries a UTC
    offset ([tzinfo]).  [datetime.utcnow()] carries none, and [<]
    between a datetime with an offset and one without raises
    [TypeError]. *)

Module Datetime.

Inductive t : Type :=
| Naive (seconds : Z)
| Aware (seconds : Z).

(** [a < now] for [now = datetime.utcnow()]. *)
Definition before (a : t) (now : Z) : result bool :=
  match a with
  | Naive seconds => Return (Z.ltb seconds now)
  | Aware _ => Raise TypeError
  end.

End Datetime.

(** What the handlers see of the database engine: whether a
    [DateTime(timezone=True)] column is read back with an offset
    (PostgreSQL's [timestamptz]) or without (SQLite), and the integers
    an [Integer] column holds. *)
Module Dialect.

Local Open Scope Z_scope.

Record t : Type := Build
  { offsets : bool;
    integer_min : Z;
    integer_max : Z }.

(** The datetime read back for a naive one written. *)
Definition stamp (d : t) (seconds : Z) : Datetime.t :=
  if offsets d then Datetime.Aware seconds else Datetime.Naive seconds.

Definition fits (d : t) (n : option Z) : bool :=
  match n with
  | Some n => Z.leb (integer_min d) n && Z.leb n (integer_max d)
  | None => true
  end.

Definition sqlite : t := Build false (- 2 ^ 63) (2 ^ 63 - 1).
Definition postgresql : t := Build true (- 2 ^ 31) (2 ^ 31 - 1).

End Dialect.

Arguments Dialect.fits : simpl never.

(* ================================================================== *)
(** ** Relational variant: the tables of [app/models.py]

    [expires_at] is the one datetime the handlers compare, so it keeps
    its kind; the others are only written and reported, and are their
    seconds. *)

Module License.
Record t : Type := Build
  { id : Z;
    license_key : string;
    owner : option string;
    plan : option string;
    expires_at : option Datetime.t;
    max_activations : option Z;
    active : option bool;
    created_at : Z }.
End License.

Module Activation.
Record t : Type := Build
  { id : Z;
    license_id : Z;
    device_id : option string;
    device_fingerprint : option string;
    ip : option string;
    last_seen : Z;
    created_at : Z }.

Definition set_last_seen (now : Z) (a : t) : t :=
  Build (id a) (license_id a) (device_id a) (device_fingerprint a) (ip a)
        now (created_at a).
End Activation.

Module Db.

(** The two tables with their primary-key sequences. *)
Record t : Type := Build
  { licenses : list License.t;
    activations : list Activation.t;
    next_license_id : Z;
    next_activation_id : Z }.

(** The process environment around the database: the clock of the
    application (the [n]-th reading of [datetime.utcnow()] is
    [clock n]), the random source of [secrets.token_urlsafe], the
    database engine, and the engine's own clock, which [func.now()],
    the server default of [created_at], reads ([db_clock n] once the
    application has read its clock [n] times). *)
Record world : Type := World
  { db : t;
    clock : nat -> Z;
    ticks : nat;
    entropy : nat -> string;
    draws : nat;
    dialect : Dialect.t;
    db_clock : nat -> Z }.

Definition with_db (w : world) (d : t) : world :=
  World d (clock w) (ticks w) (entropy w) (draws w) (dialect w) (db_clock w).

(** Fields of a row the application supplies at insertion. *)
Record new_activation : Type := NewActivation
  { na_license_id : Z;
    na_device_id : option string;
    na_device_fingerprint : option string;
    na_ip : option string;
    na_last_seen : Z }.

Record new_license : Type := NewLicense
  { nl_license_key : string;
    nl_owner : option string;
    nl_plan : option string;
    nl_expires_at : option Z;
    nl_max_activations : option Z;
    nl_active : option bool }.

Inductive event : Type -> Type :=
| UtcNow : event Z
    (* datetime.utcnow() *)
| TokenUrlsafe (nbytes : nat) : event string
    (* secrets.token_urlsafe(nbytes) *)
| LicenseFirst (key : string) : event (option License.t)
    (* db.query(License).filter(License.license_key == key).first() *)
| ActivationFirst (license_id : Z) (device_id : string)
    : event (option Activation.t)
    (* db.query(Activation).filter(license_id == .., device_id == ..).first() *)
| ActivationCount (license_id : Z) : event Z
    (* db.query(Activation).filter(license_id == ..).count() *)
| TouchActivation (existing : Activation.t) (now : Z) : event unit
    (* existing.last_seen = now; db.add(existing); db.commit() *)
| AddActivation (a : new_activation) : event Activation.t
    (* db.add(a); db.commit(); db.refresh(a) *)
| AddLicense (l : new_license) : event (result License.t)
    (* db.add(lic); db.commit(); db.refresh(lic) *).

Definition for_license (license_id : Z) (a : Activation.t) : bool :=
  Z.eqb (Activation.license_id a) license_id.

Definition for_device (license_id : Z) (device_id : string)
           (a : Activation.t) : bool :=
  for_license license_id a
  && opt_str_eqb (Activation.device_id a) (Some device_id).

Definition has_key (key : string) (l : License.t) : bool :=
  String.eqb (License.license_key l) key.

Definition activation_count (d : t) (license_id : Z) : Z :=
  Z.of_nat (List.length (filter (for_license license_id) (activations d))).

Definition touch (existing : Activation.t) (now : Z) (a : Activation.t)
  : Activation.t :=
  if Z.eqb (Activation.id a) (Activation.id existing)
  then Activation.set_last_seen now a
  else a.

(** The commit of a new license is refused, and writes no row, when
    [max_activations] is outside the integers of the engine or when a
    license already has the key ([license_key] is [unique=True]). *)
Definition handle (X : Type) (e : event X) (w : world) : X * world :=
  match e in event X return X * world with
  | UtcNow =>
      (clock w (ticks w),
       World (db w) (clock w) (S (ticks w)) (entropy w) (draws w)
             (dialect w) (db_clock w))
  | TokenUrlsafe _ =>
      (entropy w (draws w),
       World (db w) (clock w) (ticks w) (entropy w) (S (draws w))
             (dialect w) (db_clock w))
  | LicenseFirst key => (find (has_key key) (licenses (db w)), w)
  | ActivationFirst lid dev =>
      (find (for_device lid dev) (activations (db w)), w)
  | ActivationCount lid => (activation_count (db w) lid, w)
  | TouchActivation existing now =>
      (tt,
       with_db w
         (Build (licenses (db w))
                (map (touch existing now) (activations (db w)))
                (next_license_id (db w)) (next_activation_id (db w))))
  | AddActivation a =>
      let row :=
        Activation.Build (next_activation_id (db w)) (na_license_id a)
          (na_device_id a) (na_device_fingerprint a) (na_ip a)
          (na_last_seen a) (db_clock w (ticks w)) in
      (row,
       with_db w
         (Build (licenses (db w)) (activations (db w) ++ [row])
                (next_license_id (db w)) (next_activation_id (db w) + 1)))
  | AddLicense l =>
      let row :=
        License.Build (next_license_id (db w)) (nl_license_key l)
          (nl_owner l) (nl_plan l)
          (option_map (Dialect.stamp (dialect w)) (nl_expires_at l))
          (nl_max_activations l) (nl_active l) (db_clock w (ticks w)) in
      if negb (Dialect.fits (dialect w) (nl_max_activations l)) then
        (Raise OverflowError, w)
      else if existsb (has_key (nl_license_key l)) (licenses (db w)) then
        (Raise IntegrityError, w)
      else
        (Return row,
         with_db w
           (Build (licenses (db w) ++ [row]) (activations (db w))
                  (next_license_id (db w) + 1) (next_activation_id (db w))))
  end.

End Db.

(* ================================================================== *)
(** ** [app/routes/licenses.py] *)

Module Licenses.

Import Db.
Local Open Scope prog_scope.
Local Open Scope string_scope.

Definition prog := Prog Db.event.

(** The process configuration read from the environment at start-up. *)
Record config : Type := Config
  { ACTIVATION_SECRET : string;
    ADMIN_TOKEN : string }.

(** The JSON body of [POST /license/activate]. *)
Record payload : Type := Payload
  { license_key : option string;
    device_id : option string;
    device_fingerprint : option string }.

(** The ["license"] object of a positive answer. *)
Record summary : Type := Summary
  { key : string;
    owner : option string;
    plan : option string;
    expires_at : option Datetime.t }.

Record response : Type := Response
  { valid : bool;
    message : string;
    activation_token : option string;
    license : option summary }.

Definition refuse (msg : string) : response := Response false msg None None.

Definition summary_of (lic : License.t) : summary :=
  Summary (License.license_key lic) (License.owner lic) (License.plan lic)
          (License.expires_at lic).

Definition accept (msg : string) (token : string) (lic : License.t)
  : response :=
  Response true msg (Some token) (Some (summary_of lic)).

(** The messages, named after the outcomes of the specification. *)
Definition NOT_FOUND := "License not found".
Definition DISABLED := "License disabled".
Definition EXPIRED := "License expired".
Definition LIMIT_REACHED := "Activation limit reached".
Definition OK := "OK".
Definition ACTIVATED := "Activated".

(** [sign_activation] of [app/utils/crypto.py], reading the clock. *)
Definition sign_activation (cfg : config) (license_key : string)
           (device_id : option string) : prog string :=
  ts <- call UtcNow ;;
  Ret (Crypto.sign_activation_at (ACTIVATION_SECRET cfg) ts license_key
         device_id).

(** [if lic.expires_at and lic.expires_at < datetime.utcnow()]: the
    clock is read only for a license that has an expiry, and the
    comparison raises [TypeError] when the stored expiry carries an
    offset. *)
Definition is_expired (lic : License.t) : prog (result bool) :=
  match License.expires_at lic with
  | None => Ret (Return false)
  | Some e => now <- call UtcNow ;; Ret (Datetime.before e now)
  end.

(** [max_act > 0 and act_count >= max_act]. *)
Definition limit_reached (max_act act_count : Z) : bool :=
  Z.ltb 0 max_act && Z.leb max_act act_count.

(** [device_id or "unknown"]. *)
Definition or_unknown (device_id : option string) : string :=
  if truthy_str device_id then Crypto.or_empty device_id else "unknown".

Definition activate_license (cfg : config) (p : payload)
           (client_host : option string) : prog (result response) :=
  if negb (truthy_str (license_key p)) then
    Ret (Raise (HTTPException 400 "license_key required"))
  else
    let license_key := Crypto.or_empty (license_key p) in
    lic <- call (LicenseFirst license_key) ;;
    match lic with
    | None => Ret (Return (refuse NOT_FOUND))
    | Some lic =>
        if negb (truthy_bool (License.active lic)) then
          Ret (Return (refuse DISABLED))
        else
          expired <- is_expired lic ;;
          match expired with
          | Raise e => Ret (Raise e)
          | Return true => Ret (Return (refuse EXPIRED))
          | Return false =>
            existing <-
              (if truthy_str (device_id p)
               then call (ActivationFirst (License.id lic)
                            (Crypto.or_empty (device_id p)))
               else Ret None) ;;
            match existing with
            | Some existing =>
                now <- call UtcNow ;;
                call (TouchActivation existing now) ;;;
                token <- sign_activation cfg (License.license_key lic)
                           (device_id p) ;;
                Ret (Return (accept OK token lic))
            | None =>
                act_count <- call (ActivationCount (License.id lic)) ;;
                let max_act := int_or_0 (License.max_activations lic) in
                if limit_reached max_act act_count then
                  Ret (Return (refuse LIMIT_REACHED))
                else
                  now <- call UtcNow ;;
                  call (AddActivation
                          (NewActivation (License.id lic)
                             (Some (or_unknown (device_id p)))
                             (device_fingerprint p) client_host now)) ;;;
                  token <- sign_activation cfg (License.license_key lic)
                             (device_id p) ;;
                  Ret (Return (accept ACTIVATED token lic))
            end
          end
    end.

(** The JSON body of [POST /license/verify_token] and the handler. *)
Definition verify_token (cfg : config) (activation_token : option string)
  : result bool :=
  if negb (truthy_str activation_token) then
    Raise (HTTPException 400 "activation_token required")
  else
    Crypto.verify_activation_token (ACTIVATION_SECRET cfg)
      (Crypto.or_empty activation_token).

Definition exec {A : Type} (p : prog A) (w : world) : A * world :=
  run Db.handle p w.

End Licenses.

(* ================================================================== *)
(** ** [app/routes/admin.py] and [cli/create_license_cli.py] *)

Module Admin.

Import Db Licenses.
Local Open Scope prog_scope.
Local Open Scope string_scope.

(** [verify_admin]: the header must equal [ADMIN_TOKEN]. *)
Definition verify_admin (cfg : config) (token : option string)
  : result unit :=
  if opt_str_eqb token (Some (ADMIN_TOKEN cfg)) then Return tt
  else Raise (HTTPException 401 "Unauthorized").

Record created : Type := Created
  { c_license_key : string;
    c_expires_at : option Datetime.t;
    c_max_activations : option Z }.

Definition generate_license_key : prog string := call (TokenUrlsafe 16).

(** The chain of comparisons that computes the expiry; each branch
    that needs it reads the clock itself. *)
Definition compute_expiry (duration_plan : string)
  : prog (result (option Z)) :=
  if String.eqb duration_plan "1month" then
    now <- call UtcNow ;; Ret (Return (Some (now + days 30)%Z))
  else if String.eqb duration_plan "3months" then
    now <- call UtcNow ;; Ret (Return (Some (now + days 90)%Z))
  else if String.eqb duration_plan "6months" then
    now <- call UtcNow ;; Ret (Return (Some (now + days 180)%Z))
  else if String.eqb duration_plan "lifetime" then
    Ret (Return None)
  else
    Ret (Raise (HTTPException 400 "Unknown duration_plan")).

Definition create_license (cfg : config) (owner : string)
           (duration_plan : string) (max_activations : Z)
           (x_admin_token : option string) : prog (result created) :=
  match verify_admin cfg x_admin_token with
  | Raise e => Ret (Raise e)
  | Return _ =>
      expiry <- compute_expiry duration_plan ;;
      match expiry with
      | Raise e => Ret (Raise e)
      | Return expires_at =>
          key <- generate_license_key ;;
          lic <- call (AddLicense
                         (NewLicense key (Some owner) (Some duration_plan)
                            expires_at (Some max_activations) (Some true))) ;;
          match lic with
          | Raise e => Ret (Raise e)
          | Return lic =>
              Ret (Return (Created (License.license_key lic)
                             (License.expires_at lic)
                             (License.max_activations lic)))
          end
      end
  end.

End Admin.

Module Cli.

Import Db Licenses.
Local Open Scope prog_scope.
Local Open Scope string_scope.

(** [create_license] of the command-line tool: the clock is read once,
    before the plan is looked at, and an unknown plan raises
    [ValueError]. *)
Definition create_license (owner plan duration_plan : string)
           (max_activations : Z) : prog (result unit) :=
  now <- call UtcNow ;;
  let expiry : result (option Z) :=
    if String.eqb duration_plan "1month" then Return (Some (now + days 30)%Z)
    else if String.eqb duration_plan "3months" then Return (Some (now + days 90)%Z)
    else if String.eqb duration_plan "6months" then Return (Some (now + days 180)%Z)
    else if String.eqb duration_plan "lifetime" then Return None
    else Raise ValueError in
  match expiry with
  | Raise e => Ret (Raise e)
  | Return expiry =>
      key <- Admin.generate_license_key ;;
      lic <- call (AddLicense
                     (NewLicense key (Some owner) (Some plan) expiry
                        (Some max_activations) (Some true))) ;;
      match lic with
      | Raise e => Ret (Raise e)
      | Return _ => Ret (Return tt)
      end
  end.

End Cli.

(* ================================================================== *)
(** ** Supabase variant: [main.py]

    The same engine over a remote store reached by REST calls.  A row is
    the JSON object PostgREST answers for [select=*], which carries every
    column of the table, a JSON [null] being [None]; timestamps travel
    as ISO strings. *)

Module Supabase.

Local Open Scope prog_scope.
Local Open Scope string_scope.

Record license_row : Type := LicenseRow
  { l_id : Z;
    l_key : string;
    l_owner : option string;
    l_plan : option string;
    l_expires_at : option string;
    l_max_activations : option Z;
    l_active : option bool;
    l_created_at : option string }.

Record activation_row : Type := ActivationRow
  { a_id : Z;
    a_license_id : Z;
    a_device_id : option string;
    a_device_fingerprint : option string;
    a_ip : option string;
    a_last_seen : option string;
    a_created_at : option string }.

Record tables : Type := Tables
  { licenses : list license_row;
    activations : list activation_row;
    next_license_id : Z;
    next_activation_id : Z }.

(** The world: the remote tables, the clock, the random source, and
    for each REST call in turn whether the service answers it
    ([reachable n = false]: the [n]-th call fails with status 500 and
    changes nothing) and the text of its reply ([r.text]). *)
Record world : Type := World
  { store : tables;
    clock : nat -> Z;
    ticks : nat;
    entropy : nat -> string;
    draws : nat;
    reachable : nat -> bool;
    calls : nat;
    reply_text : nat -> string }.

(** The reply to a [POST]: [r.status_code], [r.text] and [r.json()]. *)
Record reply (A : Type) : Type := Reply
  { status_code : Z;
    text : string;
    json : option A }.

Record license_fields : Type := LicenseFields
  { lf_key : string;
    lf_owner : string;
    lf_plan : string;
    lf_expires_at : option string;
    lf_max_activations : Z;
    lf_created_at : string }.

Record activation_fields : Type := ActivationFields
  { af_license_id : Z;
    af_device_id : string;
    af_device_fingerprint : option string;
    af_ip : option string;
    af_last_seen : string;
    af_created_at : string }.

(** One event per [requests] call; the answer is the status code and
    the decoded body, and for a [POST] the text of the reply as well. *)
Inductive event : Type -> Type :=
| UtcNow : event Z
| TokenUrlsafe (nbytes : nat) : event string
| GetLicense (key : string) : event (Z * list license_row)
| PostLicense (f : license_fields) : event (reply license_row)
| GetActivations (license_id : Z) : event (Z * list activation_row)
| PostActivation (f : activation_fields) : event (reply activation_row)
| PatchLastSeen (activation_id : Z) (last_seen : string) : event Z.

Definition with_store (w : world) (t : tables) : world :=
  World t (clock w) (ticks w) (entropy w) (draws w) (reachable w)
        (S (calls w)) (reply_text w).

Definition set_last_seen (activation_id : Z) (last_seen : string)
           (a : activation_row) : activation_row :=
  if Z.eqb (a_id a) activation_id
  then ActivationRow (a_id a) (a_license_id a) (a_device_id a)
         (a_device_fingerprint a) (a_ip a) (Some last_seen) (a_created_at a)
  else a.

Definition handle (X : Type) (e : event X) (w : world) : X * world :=
  let t := store w in
  let up := reachable w (calls w) in
  match e in event X return X * world with
  | UtcNow =>
      (clock w (ticks w),
       World t (clock w) (S (ticks w)) (entropy w) (draws w)
             (reachable w) (calls w) (reply_text w))
  | TokenUrlsafe _ =>
      (entropy w (draws w),
       World t (clock w) (ticks w) (entropy w) (S (draws w))
             (reachable w) (calls w) (reply_text w))
  | GetLicense key =>
      (if up
       then (200%Z, filter (fun l => String.eqb (l_key l) key) (licenses t))
       else (500%Z, []),
       with_store w t)
  | GetActivations lid =>
      (if up
       then (200%Z, filter (fun a => Z.eqb (a_license_id a) lid)
                      (activations t))
       else (500%Z, []),
       with_store w t)
  | PostLicense f =>
      let row :=
        LicenseRow (next_license_id t) (lf_key f) (Some (lf_owner f))
          (Some (lf_plan f)) (lf_expires_at f)
          (Some (lf_max_activations f)) (Some true)
          (Some (lf_created_at f)) in
      if up
      then (Reply 201%Z (reply_text w (calls w)) (Some row),
            with_store w
              (Tables (licenses t ++ [row]) (activations t)
                      (next_license_id t + 1) (next_activation_id t)))
      else (Reply 500%Z (reply_text w (calls w)) None, with_store w t)
  | PostActivation f =>
      let row :=
        ActivationRow (next_activation_id t) (af_license_id f)
          (Some (af_device_id f)) (af_device_fingerprint f) (af_ip f)
          (Some (af_last_seen f)) (Some (af_created_at f)) in
      if up
      then (Reply 201%Z (reply_text w (calls w)) (Some row),
            with_store w
              (Tables (licenses t) (activations t ++ [row])
                      (next_license_id t) (next_activation_id t + 1)))
      else (Reply 500%Z (reply_text w (calls w)) None, with_store w t)
  | PatchLastSeen aid last_seen =>
      if up
      then (204%Z,
            with_store w
              (Tables (licenses t)
                      (map (set_last_seen aid last_seen) (activations t))
                      (next_license_id t) (next_activation_id t)))
      else (500%Z, with_store w t)
  end.

Definition prog := Prog event.

(** What [datetime.fromisoformat] makes of a stored expiry: it raises,
    or gives a datetime with or without a UTC offset.  Comparing one
    with an offset to [datetime.utcnow()] raises [TypeError]. *)
Inductive parsed : Type :=
| Unparsable
| Aware (t : Z)
| Naive (t : Z).

Record check_request : Type := CheckRequest
  { license_key : string;
    device_id : option string;
    device_fingerprint : option string }.

Record summary : Type := Summary
  { key : string;
    owner : option string;
    plan : option string;
    expires_at : option string }.

Record check_response : Type := CheckResponse
  { valid : bool;
    message : string;
    license : option summary;
    activation_token : option string }.

Definition refuse (msg : string) : check_response :=
  CheckResponse false msg None None.

Definition accept (msg : string) (token : string) (lic : license_row)
  : check_response :=
  CheckResponse true msg
    (Some (Summary (l_key lic) (l_owner lic) (l_plan lic) (l_expires_at lic)))
    (Some token).

Section Handlers.

(** [ACTIVATION_SECRET] and [ADMIN_TOKEN], and the two library
    conversions between datetimes and ISO strings. *)
Variable cfg : Licenses.config.
Variable fromisoformat : string -> parsed.
Variable isoformat : Z -> string.

Definition supabase_get_license_row (license_key : string)
  : prog (result (option license_row)) :=
  r <- call (GetLicense license_key) ;;
  if negb (Z.eqb (fst r) 200) then
    Ret (Raise (HTTPException 500 "Supabase error"))
  else Ret (Return (hd_error (snd r))).

Definition supabase_get_activations_for_license (license_id : Z)
  : prog (result (list activation_row)) :=
  r <- call (GetActivations license_id) ;;
  if negb (Z.eqb (fst r) 200) then
    Ret (Raise (HTTPException 500 "Supabase error activations"))
  else Ret (Return (snd r)).

Definition supabase_create_activation_row (license_id : Z)
           (device_id : string) (device_fingerprint ip : option string)
  : prog (result (option activation_row)) :=
  last_seen <- call UtcNow ;;
  created_at <- call UtcNow ;;
  r <- call (PostActivation
               (ActivationFields license_id device_id device_fingerprint
                  ip (isoformat last_seen) (isoformat created_at))) ;;
  if negb (Z.eqb (status_code r) 201 || Z.eqb (status_code r) 200) then
    Ret (Raise (HTTPException 500
                  ("Supabase create activation failed: " ++ text r)))
  else Ret (Return (json r)).

Definition supabase_update_activation_last_seen (activation_id : Z)
  : prog bool :=
  now <- call UtcNow ;;
  status <- call (PatchLastSeen activation_id (isoformat now)) ;;
  Ret (Z.eqb status 200 || Z.eqb status 204).

Definition supabase_create_license_row (key owner plan : string)
           (expires_at : option string) (max_activations : Z)
  : prog (result (option license_row)) :=
  created_at <- call UtcNow ;;
  r <- call (PostLicense
               (LicenseFields key owner plan expires_at max_activations
                  (isoformat created_at))) ;;
  if negb (Z.eqb (status_code r) 201 || Z.eqb (status_code r) 200) then
    Ret (Raise (HTTPException 500 ("Supabase create failed: " ++ text r)))
  else Ret (Return (json r)).

Definition sign_activation (license_key : string)
           (device_id : option string) : prog string :=
  ts <- call UtcNow ;;
  Ret (Crypto.sign_activation_at (Licenses.ACTIVATION_SECRET cfg) ts
         license_key device_id).

(** The expiry test of [api_check]; any exception inside the [try]
    is swallowed and the license is treated as not expired. *)
Definition is_expired (lic : license_row) : prog bool :=
  if truthy_str (l_expires_at lic) then
    match fromisoformat (Crypto.or_empty (l_expires_at lic)) with
    | Unparsable => Ret false
    | Aware _ => call UtcNow ;;; Ret false
    | Naive exp_dt => now <- call UtcNow ;; Ret (Z.ltb exp_dt now)
    end
  else Ret false.

Definition api_check (req : check_request)
  : prog (result check_response) :=
  lic <- supabase_get_license_row (license_key req) ;;
  match lic with
  | Raise e => Ret (Raise e)
  | Return None => Ret (Return (refuse Licenses.NOT_FOUND))
  | Return (Some lic) =>
      if negb (truthy_bool (l_active lic)) then
        Ret (Return (refuse Licenses.DISABLED))
      else
        expired <- is_expired lic ;;
        if expired then Ret (Return (refuse Licenses.EXPIRED))
        else
          let license_id := l_id lic in
          activations <- supabase_get_activations_for_license license_id ;;
          match activations with
          | Raise e => Ret (Raise e)
          | Return activations =>
              let existing :=
                if truthy_str (device_id req)
                then find (fun a => opt_str_eqb (a_device_id a)
                                      (device_id req)) activations
                else None in
              match existing with
              | Some existing =>
                  supabase_update_activation_last_seen (a_id existing) ;;;
                  token <- sign_activation (l_key lic) (device_id req) ;;
                  Ret (Return (accept Licenses.OK token lic))
              | None =>
                  let max_act := int_or_0 (l_max_activations lic) in
                  if Licenses.limit_reached max_act
                       (Z.of_nat (List.length activations))
                  then Ret (Return (refuse Licenses.LIMIT_REACHED))
                  else
                    created <- supabase_create_activation_row license_id
                                 (Licenses.or_unknown (device_id req))
                                 (device_fingerprint req) None ;;
                    match created with
                    | Raise e => Ret (Raise e)
                    | Return _ =>
                        token <- sign_activation (l_key lic)
                                   (device_id req) ;;
                        Ret (Return (accept Licenses.ACTIVATED token lic))
                    end
              end
          end
  end.

Record created : Type := Created
  { c_license_key : option string;
    c_owner : string;
    c_expires_at : option string }.

(** [admin_create_license]: an unknown [duration_plan] falls to the
    last branch, which gives no expiry. *)
Definition compute_expiry (duration_plan : string)
  : prog (option string) :=
  if String.eqb duration_plan "1month" then
    now <- call UtcNow ;; Ret (Some (isoformat (now + days 30)))
  else if String.eqb duration_plan "3months" then
    now <- call UtcNow ;; Ret (Some (isoformat (now + days 90)))
  else if String.eqb duration_plan "6months" then
    now <- call UtcNow ;; Ret (Some (isoformat (now + days 180)))
  else if String.eqb duration_plan "lifetime" then Ret None
  else Ret None.

Definition admin_create_license (owner plan duration_plan : string)
           (max_activations : Z) (x_admin_token : option string)
  : prog (result created) :=
  match Admin.verify_admin cfg x_admin_token with
  | Raise e => Ret (Raise e)
  | Return _ =>
      expires_at <- compute_expiry duration_plan ;;
      key <- call (TokenUrlsafe 16) ;;
      row <- supabase_create_license_row key owner plan expires_at
               max_activations ;;
      match row with
      | Raise e => Ret (Raise e)
      | Return row =>
          Ret (Return (Created (option_map l_key row) owner expires_at))
      end
  end.

End Handlers.

Definition exec {A : Type} (p : prog A) (w : world) : A * world :=
  run handle p w.

End Supabase.

(* ================================================================== *)
(** ** Vocabulary of the statements

    Names for what the properties below speak about: what a request
    finds in the store it runs against, and the batches of requests the
    sequential properties range over. *)

Module Vocabulary.

Import Db Licenses.

(** The [i]-th clock reading from now on. *)
Definition reading (w : world) (i : nat) : Z := clock w (i + ticks w).

(** The license a key names. *)
Definition found (w : world) (key : string) : option License.t :=
  find (has_key key) (licenses (db w)).

(** Whether the expiry test of a request served in [w] fails the
    license, and how many clock readings the test takes. *)
Definition expired_in (w : world) (lic : License.t) : bool :=
  match License.expires_at lic with
  | Some (Datetime.Naive e) => Z.ltb e (reading w 0)
  | _ => false
  end.

(** Whether the expiry test can be made at all: the license has no
    expiry, or one without an offset. *)
Definition comparable (lic : License.t) : bool :=
  match License.expires_at lic with
  | Some (Datetime.Aware _) => false
  | _ => true
  end.

Definition expiry_reads (lic : License.t) : nat :=
  match License.expires_at lic with
  | Some _ => 1
  | None => 0
  end.

(** The row a request looks up before counting: none when the request
    names no device. *)
Definition existing_row (w : world) (lic : License.t)
           (device_id : option string) : option Activation.t :=
  if truthy_str device_id
  then find (for_device (License.id lic) (Crypto.or_empty device_id))
            (activations (db w))
  else None.

(** The number of rows of a license that carry a device id. *)
Definition rows_of (d : Db.t) (license_id : Z) (device_id : string) : nat :=
  List.length (filter (for_device license_id device_id) (activations d)).

(** A batch of activation requests, each with the address it came from. *)
Definition requests (cfg : config)
           (reqs : list (payload * option string))
  : list (prog (result response)) :=
  map (fun r => activate_license cfg (fst r) (snd r)) reqs.

(** Whether a request in flight has been answered positively. *)
Definition admitted (p : prog (result response)) : option bool :=
  match finished p with
  | Some (Return r) => Some (valid r)
  | Some (Raise _) => Some false
  | None => None
  end.

End Vocabulary.

Module PlanTable.

Local Open Scope string_scope.

Definition known_plan (duration_plan : string) : Prop :=
  duration_plan = "lifetime" \/ duration_plan = "1month"
  \/ duration_plan = "3months" \/ duration_plan = "6months".

(** The plan table as the specification words it: the number of days
    a plan runs, nothing for [lifetime]. *)
Definition plan_days (duration_plan : string) : option Z :=
  if String.eqb duration_plan "1month" then Some 30%Z
  else if String.eqb duration_plan "3months" then Some 90%Z
  else if String.eqb duration_plan "6months" then Some 180%Z
  else None.

Definition plan_expiry (duration_plan : string) (now : Z) : option Z :=
  option_map (fun d => (now + days d)%Z) (plan_days duration_plan).

End PlanTable.

Module SupabaseVocabulary.

Import Supabase.

Definition reading (w : world) (i : nat) : Z := clock w (i + ticks w).

(** The next [k] REST calls are answered. *)
Definition answered (w : world) (k : nat) : Prop :=
  forall i, (i < k)%nat -> reachable w (i + calls w) = true.

(** The first row the store holds for a key. *)
Definition found (w : world) (key : string) : option license_row :=
  hd_error (filter (fun l => String.eqb (l_key l) key) (licenses (store w))).

Definition rows_for (w : world) (license_id : Z) : list activation_row :=
  filter (fun a => Z.eqb (a_license_id a) license_id) (activations (store w)).

Definition activation_count (t : tables) (license_id : Z) : Z :=
  Z.of_nat (List.length
              (filter (fun a => Z.eqb (a_license_id a) license_id)
                      (activations t))).

Definition existing_row (w : world) (lic : license_row)
           (device_id : option string) : option activation_row :=
  if truthy_str device_id
  then find (fun a => opt_str_eqb (a_device_id a) device_id)
            (rows_for w (l_id lic))
  else None.

Definition expired_in (fromisoformat : string -> parsed) (w : world)
           (lic : license_row) : bool :=
  if truthy_str (l_expires_at lic) then
    match fromisoformat (Crypto.or_empty (l_expires_at lic)) with
    | Naive t => Z.ltb t (reading w 0)
    | _ => false
    end
  else false.

(** The clock readings the expiry test takes: one once the stored
    expiry has been parsed. *)
Definition expiry_reads (fromisoformat : string -> parsed)
           (lic : license_row) : nat :=
  if truthy_str (l_expires_at lic) then
    match fromisoformat (Crypto.or_empty (l_expires_at lic)) with
    | Unparsable => 0
    | _ => 1
    end
  else 0.

Definition checks (cfg : Licenses.config) (fromisoformat : string -> parsed)
           (isoformat : Z -> string) (reqs : list check_request)
  : list (prog (result check_response)) :=
  map (api_check cfg fromisoformat isoformat) reqs.

End SupabaseVocabulary.

(** Concrete stores and requests. *)
Module Scenario.

Import Licenses.
Local Open Scope string_scope.
Local Open Scope list_scope.

(** The defaults [main.py] falls back to. *)
Definition defaults : config :=
  Config "CHANGE_ME_ACTIVATION_SECRET" "CHANGE_ME_ADMIN_TOKEN".

Definition wall_clock (n : nat) : Z := (1700000000 + Z.of_nat n)%Z.

Definition keys (n : nat) : string :=
  "generated-key-" ++ Crypto.str_of_int (Z.of_nat n).

(** One active, perpetual license with the given limit. *)
Definition license1 (max_activations : Z) : License.t :=
  License.Build 1 "LICENSE-1" (Some "owner") (Some "lifetime") None
                (Some max_activations) (Some true) 0.

(** A store that holds [license1] and no activation yet. *)
Definition world1 (max_activations : Z) : Db.world :=
  Db.World (Db.Build [license1 max_activations] [] 2 1)
           wall_clock 0 keys 0 Dialect.sqlite wall_clock.

Definition body (device_id : option string) : payload :=
  Payload (Some "LICENSE-1") device_id None.

Definition from_device (device_id : option string)
  : prog (result response) :=
  activate_license defaults (body device_id) None.

(** [world1 1] once device ["A"] holds the only seat. *)
Definition row_A : Activation.t :=
  Activation.Build 1 1 (Some "A") None None 1700000000 1700000001.

Definition saturated : Db.world :=
  Db.World (Db.Build [license1 1] [row_A] 2 2) wall_clock 2 keys 0
           Dialect.sqlite wall_clock.

(** [saturated] had the seat been taken with an empty device id. *)
Definition blank_row : Activation.t :=
  Activation.Build 1 1 (Some "") None None 1700000000 1700000001.

Definition blank_saturated : Db.world :=
  Db.World (Db.Build [license1 1] [blank_row] 2 2) wall_clock 2 keys 0
           Dialect.sqlite wall_clock.

(** [saturated] on PostgreSQL, the license expiring in 2033: the
    expiry is read back with its offset. *)
Definition tz_license : License.t :=
  License.Build 1 "LICENSE-1" (Some "owner") (Some "1month")
                (Some (Datetime.Aware 2000000000)) (Some 1%Z) (Some true) 0.

Definition tz_saturated : Db.world :=
  Db.World (Db.Build [tz_license] [row_A] 2 2) wall_clock 2 keys 0
           Dialect.postgresql wall_clock.

(** The license of [world1 1], revoked. *)
Definition revoked_license : License.t :=
  License.Build 1 "LICENSE-1" (Some "owner") (Some "lifetime") None
                (Some 1%Z) (Some false) 0.

Definition revoked : Db.world :=
  Db.World (Db.Build [revoked_license] [] 2 1) wall_clock 0 keys 0
           Dialect.sqlite wall_clock.

(** Any rendering of a datetime does for a scenario: these write the
    seconds in decimal and read nothing back. *)
Definition isoformat (t : Z) : string := Crypto.str_of_int t.
Definition fromisoformat (s : string) : Supabase.parsed :=
  Supabase.Unparsable.

(** An empty remote store that answers every call. *)
Definition remote : Supabase.world :=
  Supabase.World (Supabase.Tables [] [] 1 1) wall_clock 0 keys 0
                 (fun _ => true) 0 (fun _ => "").

Definition remote_license (max_activations : Z) (active : bool)
  : Supabase.license_row :=
  Supabase.LicenseRow 1 "LICENSE-1" (Some "owner") (Some "lifetime") None
                      (Some max_activations) (Some active) None.

Definition remote1 (max_activations : Z) (active : bool) : Supabase.world :=
  Supabase.World
    (Supabase.Tables [remote_license max_activations active] [] 2 1)
    wall_clock 0 keys 0 (fun _ => true) 0 (fun _ => "").

Definition check (device_id : option string) : Supabase.check_request :=
  Supabase.CheckRequest "LICENSE-1" device_id None.

End Scenario.

(** The sextets of a group of bytes, and the checks that decoding
    inverts encoding on them. *)
Module Groups.

Import Base64.
Local Open Scope Z_scope.

(** A character of an encoding as the decoder sees it. *)
Definition seen (s : Z) : byte :=
  urlsafe_decode_translation (urlsafe_encode_translation (b2a s)).

Definition sextets : list Z := map Z.of_nat (seq 0 64).

Definition sextet_ok (s : Z) : bool :=
  negb (byte_eqb (seen s) pad_char)
  && match a2b (seen s) with Some v => v =? s | None => false end
  && urlsafe_alphabet (urlsafe_encode_translation (b2a s)).

(** The four sextets of a group of three bytes. *)
Definition s1 (x : byte) : Z := Z.shiftr (byte_to_Z x) 2.
Definition s2 (x y : byte) : Z :=
  Z.lor (Z.shiftl (Z.land (byte_to_Z x) 3) 4) (Z.shiftr (byte_to_Z y) 4).
Definition s3 (y z : byte) : Z :=
  Z.lor (Z.shiftl (Z.land (byte_to_Z y) 15) 2) (Z.shiftr (byte_to_Z z) 6).
Definition s4 (z : byte) : Z := Z.land (byte_to_Z z) 63.

(** The last sextet of a final group of one or two bytes. *)
Definition s2' (x : byte) : Z := Z.shiftl (Z.land (byte_to_Z x) 3) 4.
Definition s3' (y : byte) : Z := Z.shiftl (Z.land (byte_to_Z y) 15) 2.

Definition in_range (s : Z) : bool := (0 <=? s) && (s <? 64).

Definition first_byte_ok (x y : byte) : bool :=
  in_range (s1 x) && in_range (s2 x y) && in_range (s2' x)
  && byte_eqb (byte_of_Z (Z.lor (Z.shiftl (s1 x) 2) (Z.shiftr (s2 x y) 4))) x
  && byte_eqb (byte_of_Z (Z.lor (Z.shiftl (s1 x) 2) (Z.shiftr (s2' x) 4))) x
  && (Z.land (s2 x y) 15 =? Z.shiftr (byte_to_Z y) 4).

Definition second_byte_ok (y z : byte) : bool :=
  in_range (s3 y z) && in_range (s3' y) && in_range (s4 z)
  && byte_eqb (byte_of_Z (Z.lor (Z.shiftl (Z.shiftr (byte_to_Z y) 4) 4)
                                (Z.shiftr (s3 y z) 2))) y
  && byte_eqb (byte_of_Z (Z.lor (Z.shiftl (Z.shiftr (byte_to_Z y) 4) 4)
                                (Z.shiftr (s3' y) 2))) y
  && byte_eqb (byte_of_Z (Z.lor (Z.shiftl (Z.land (s3 y z) 3) 6) (s4 z))) z.

Definition translated (bs : bytes) : bytes :=
  map urlsafe_decode_translation (urlsafe_b64encode bs).

(** The bytes a token of [sign_activation_at] decodes to. *)
Definition raw_token (secret : string) (ts : Z) (license_key : string)
           (device_id : option string) : bytes :=
  let payload := encode (Crypto.payload_of license_key device_id ts) in
  payload ++ [Crypto.tilde]
  ++ Sha256.hmac_sha256 (encode secret) payload.

End Groups.

(* ================================================================== *)
(** ** The other admin operations: [kill_license] and [list_licenses] of
       [app/routes/admin.py], [deactivate_license] of
       [cli/create_license_cli.py]

    They need two statements the activation engine does not: reading
    the whole table of licenses and clearing a license's [active] flag.
    The events of [Db] are kept as they are and embedded. *)

Module AdminOps.

Import Db Licenses.
Local Open Scope prog_scope.
Local Open Scope string_scope.

Inductive event : Type -> Type :=
| Plain (X : Type) (e : Db.event X) : event X
| LicenseAll : event (list License.t)
    (* db.query(License).all() *)
| DeactivateLicense (lic : License.t) : event unit
    (* lic.active = False; db.add(lic); db.commit() *).

(** The update of the row whose primary key is that of [lic]. *)
Definition deactivate (lic : License.t) (l : License.t) : License.t :=
  if Z.eqb (License.id l) (License.id lic)
  then License.Build (License.id l) (License.license_key l)
         (License.owner l) (License.plan l) (License.expires_at l)
         (License.max_activations l) (Some false) (License.created_at l)
  else l.

Definition handle (X : Type) (e : event X) (w : world) : X * world :=
  match e in event X return X * world with
  | Plain e => Db.handle e w
  | LicenseAll => (licenses (db w), w)
  | DeactivateLicense lic =>
      (tt,
       with_db w
         (Db.Build (map (deactivate lic) (licenses (db w)))
                   (activations (db w))
                   (next_license_id (db w)) (next_activation_id (db w))))
  end.

Definition prog := Prog event.

Definition exec {A : Type} (p : prog A) (w : world) : A * world :=
  run handle p w.

Definition kill_license (cfg : config) (license_key : string)
           (x_admin_token : option string) : prog (result bool) :=
  match Admin.verify_admin cfg x_admin_token with
  | Raise e => Ret (Raise e)
  | Return _ =>
      lic <- call (Plain (LicenseFirst license_key)) ;;
      match lic with
      | None => Ret (Raise (HTTPException 404 "License not found"))
      | Some lic => call (DeactivateLicense lic) ;;; Ret (Return true)
      end
  end.

(** One object of the answer of [list_licenses]. *)
Record listed : Type := Listed
  { li_license_key : string;
    li_owner : option string;
    li_plan : option string;
    li_expires_at : option Datetime.t;
    li_active : option bool;
    li_activations : Z }.

(** The [for lic in items] loop: one count query for each license, the
    object appended to [out]. *)
Fixpoint list_loop (items : list License.t) (out : list listed)
  : prog (list listed) :=
  match items with
  | [] => Ret out
  | lic :: rest =>
      act_count <- call (Plain (ActivationCount (License.id lic))) ;;
      list_loop rest
        (out ++ [Listed (License.license_key lic) (License.owner lic)
                        (License.plan lic) (License.expires_at lic)
                        (License.active lic) act_count])%list
  end.

Definition list_licenses (cfg : config) (x_admin_token : option string)
  : prog (result (list listed)) :=
  match Admin.verify_admin cfg x_admin_token with
  | Raise e => Ret (Raise e)
  | Return _ =>
      items <- call LicenseAll ;;
      out <- list_loop items [] ;;
      Ret (Return out)
  end.

(** [deactivate_license] of the command-line tool; the answer is the
    line it prints. *)
Definition deactivate_license (license_key : string) : prog string :=
  lic <- call (Plain (LicenseFirst license_key)) ;;
  match lic with
  | None => Ret "License not found"
  | Some lic =>
      call (DeactivateLicense lic) ;;;
      Ret ("License deactivated: " ++ license_key)
  end.

End AdminOps.

(* ================================================================== *)
(** ** The other admin operations of [main.py]: [admin_kill_license] and
       [admin_list] *)

Module SupabaseAdmin.

Import Supabase.
Local Open Scope prog_scope.
Local Open Scope string_scope.

Inductive event : Type -> Type :=
| Plain (X : Type) (e : Supabase.event X) : event X
| PatchLicenseInactive (key : string) : event Z
    (* requests.patch(licenses, params key=eq.k, json {"active": False}) *)
| GetAllLicenses : event (Z * list license_row)
    (* requests.get(licenses, params select=* ) *).

Definition disable (key : string) (l : license_row) : license_row :=
  if String.eqb (l_key l) key
  then LicenseRow (l_id l) (l_key l) (l_owner l) (l_plan l) (l_expires_at l)
         (l_max_activations l) (Some false) (l_created_at l)
  else l.

Section Service.

(** The status the service gives a [PATCH] that matches no row. *)
Variable no_match_status : Z.

Definition handle (X : Type) (e : event X) (w : world) : X * world :=
  let t := store w in
  match e in event X return X * world with
  | Plain e => Supabase.handle e w
  | PatchLicenseInactive key =>
      if reachable w (calls w)
      then (if existsb (fun l => String.eqb (l_key l) key) (licenses t)
            then 204%Z else no_match_status,
            with_store w
              (Tables (map (disable key) (licenses t)) (activations t)
                      (next_license_id t) (next_activation_id t)))
      else (500%Z, with_store w t)
  | GetAllLicenses =>
      (if reachable w (calls w) then (200%Z, licenses t) else (500%Z, []),
       with_store w t)
  end.

End Service.

Definition prog := Prog event.

Definition exec (no_match_status : Z) {A : Type} (p : prog A) (w : world)
  : A * world :=
  run (handle no_match_status) p w.

Fixpoint lift {A : Type} (p : Supabase.prog A) : prog A :=
  match p with
  | Ret a => Ret a
  | Vis e k => Vis (Plain e) (fun x => lift (k x))
  end.

Definition supabase_disable_license_row (license_key : string) : prog bool :=
  status <- call (PatchLicenseInactive license_key) ;;
  Ret (Z.eqb status 200 || Z.eqb status 204).

Definition supabase_list_licenses : prog (result (list license_row)) :=
  r <- call GetAllLicenses ;;
  if negb (Z.eqb (fst r) 200) then
    Ret (Raise (HTTPException 500 "Supabase error listing"))
  else Ret (Return (snd r)).

Definition admin_kill_license (cfg : Licenses.config) (license_key : string)
           (x_admin_token : option string) : prog (result bool) :=
  match Admin.verify_admin cfg x_admin_token with
  | Raise e => Ret (Raise e)
  | Return _ =>
      ok <- supabase_disable_license_row license_key ;;
      if negb ok then
        Ret (Raise (HTTPException 404
                      "License not found or could not disable"))
      else Ret (Return true)
  end.

(** One object of the answer of [admin_list]; an activation is reported
    by its device id and last-seen time. *)
Record listed : Type := Listed
  { li_key : string;
    li_owner : option string;
    li_plan : option string;
    li_expires_at : option string;
    li_active : option bool;
    li_activations : list (option string * option string) }.

Definition seen_of (a : activation_row) : option string * option string :=
  (a_device_id a, a_last_seen a).

(** The [for lic in licenses] loop; a failed call ends it with the
    exception. *)
Fixpoint list_loop (items : list license_row) (out : list listed)
  : prog (result (list listed)) :=
  match items with
  | [] => Ret (Return out)
  | lic :: rest =>
      acts <- lift (supabase_get_activations_for_license (l_id lic)) ;;
      match acts with
      | Raise e => Ret (Raise e)
      | Return acts =>
          list_loop rest
            (out ++ [Listed (l_key lic) (l_owner lic) (l_plan lic)
                            (l_expires_at lic) (l_active lic)
                            (map seen_of acts)])%list
      end
  end.

Definition admin_list (cfg : Licenses.config) (x_admin_token : option string)
  : prog (result (list listed)) :=
  match Admin.verify_admin cfg x_admin_token with
  | Raise e => Ret (Raise e)
  | Return _ =>
      licenses <- supabase_list_licenses ;;
      match licenses with
      | Raise e => Ret (Raise e)
      | Return licenses => list_loop licenses []
      end
  end.

End SupabaseAdmin.

(** What the lenient decoder passes over. *)
Module Lenient.

(** A byte the decoder skips: outside the alphabet and not the pad. *)
Definition skipped (c : byte) : bool :=
  negb (byte_eqb (Base64.urlsafe_decode_translation c) Base64.pad_char)
  && match Base64.a2b (Base64.urlsafe_decode_translation c) with
     | None => true
     | Some _ => false
     end.

End Lenient.

(** More concrete stores. *)
Module Scenario2.

Import Licenses Scenario.
Local Open Scope string_scope.
Local Open Scope list_scope.

(** The license of [world1 1] with an expiry. *)
Definition license2 (expires_at : Z) : License.t :=
  License.Build 1 "LICENSE-1" (Some "owner") (Some "1month")
                (Some (Datetime.Naive expires_at)) (Some 1%Z) (Some true) 0.

Definition world2 (expires_at : Z) : Db.world :=
  Db.World (Db.Build [license2 expires_at] [] 2 1) wall_clock 0 keys 0
           Dialect.sqlite wall_clock.

(** A store whose license already has the key that is generated
    next. *)
Definition taken : Db.world :=
  Db.World
    (Db.Build [License.Build 1 "generated-key-0" (Some "owner")
                 (Some "lifetime") None (Some 1%Z) (Some true) 0] [] 2 1)
    wall_clock 0 keys 0 Dialect.sqlite wall_clock.

(** [world1 1] with the clock of the database 100 seconds ahead of the
    application's. *)
Definition ahead : Db.world :=
  Db.World (Db.Build [license1 1] [] 2 1) wall_clock 0 keys 0
           Dialect.sqlite (fun n => (1700000100 + Z.of_nat n)%Z).

(** A remote store that answers no call. *)
Definition unreachable (max_activations : Z) : Supabase.world :=
  Supabase.World
    (Supabase.Tables [remote_license max_activations true] [] 2 1)
    wall_clock 0 keys 0 (fun _ => false) 0 (fun _ => "").

(** A remote store with device ["A"] activated, that answers the first
    two calls and no later one. *)
Definition remote_row_A : Supabase.activation_row :=
  Supabase.ActivationRow 1 1 (Some "A") None None (Some "1700000000")
                         (Some "1700000001").

Definition flaky : Supabase.world :=
  Supabase.World
    (Supabase.Tables [remote_license 1 true] [remote_row_A] 2 2)
    wall_clock 0 keys 0 (fun n => Nat.ltb n 2) 0 (fun _ => "").

Definition remote_saturated : Supabase.world :=
  Supabase.World
    (Supabase.Tables [remote_license 1 true] [remote_row_A] 2 2)
    wall_clock 0 keys 0 (fun _ => true) 0 (fun _ => "").

(** [remote_saturated] five clock readings later. *)
Definition remote_later : Supabase.world :=
  Supabase.World
    (Supabase.Tables [remote_license 1 true] [remote_row_A] 2 2)
    wall_clock 5 keys 0 (fun _ => true) 0 (fun _ => "").

(** A stored expiry with a UTC offset, as [timestamptz] columns give. *)
Definition offset_license : Supabase.license_row :=
  Supabase.LicenseRow 1 "LICENSE-1" (Some "owner") (Some "1month")
                      (Some "2000-01-01T00:00:00+00:00") (Some 1%Z)
                      (Some true) None.

Definition offset_world : Supabase.world :=
  Supabase.World (Supabase.Tables [offset_license] [] 2 1)
                 wall_clock 0 keys 0 (fun _ => true) 0 (fun _ => "").

Definition aware_parser (s : string) : Supabase.parsed := Supabase.Aware 0.

End Scenario2.

(** Names for the statements about the other operations. *)
Module ExtraVocabulary.

Import Db Licenses Vocabulary.

(** The world a request leaves when it admits a new device. *)
Definition admitted_world (w : world) (lic : License.t) (p : payload)
           (host : option string) : world :=
  let n := expiry_reads lic in
  let row :=
    Activation.Build (next_activation_id (db w)) (License.id lic)
      (Some (or_unknown (device_id p))) (device_fingerprint p) host
      (reading w n) (db_clock w (S n + ticks w)) in
  World (Db.Build (licenses (db w)) (activations (db w) ++ [row])
                  (next_license_id (db w)) (next_activation_id (db w) + 1))
        (clock w) (S (S n) + ticks w) (entropy w) (draws w)
        (dialect w) (db_clock w).

End ExtraVocabulary.

Module AdminVocabulary.

Import Db Licenses AdminOps.

(** The object [list_licenses] reports for a license. *)
Definition listed_in (d : Db.t) (lic : License.t) : listed :=
  Listed (License.license_key lic) (License.owner lic) (License.plan lic)
         (License.expires_at lic) (License.active lic)
         (activation_count d (License.id lic)).

End AdminVocabulary.

Module SupabaseAdminVocabulary.

Import Supabase SupabaseAdmin.

(** The object [admin_list] reports for a license. *)
Definition listed_in (t : tables) (lic : license_row) : listed :=
  Listed (l_key lic) (l_owner lic) (l_plan lic) (l_expires_at lic)
         (l_active lic)
         (map seen_of
            (filter (fun a => Z.eqb (a_license_id a) (l_id lic))
                    (activations t))).

(** The world after [n] more answered or unanswered calls that write
    nothing. *)
Definition after_calls (n : nat) (w : world) : world :=
  World (store w) (clock w) (ticks w) (entropy w) (draws w) (reachable w)
        (n + calls w) (reply_text w).

End SupabaseAdminVocabulary.

Definition hex_of (bs : bytes) : string :=
  let digit (n : Z) : ascii :=
    ascii_of_nat (Z.to_nat (if Z.ltb n 10 then 48 + n else 87 + n)) in
  fold_right (fun b acc =>
                String (digit (Z.shiftr (byte_to_Z b) 4))
                       (String (digit (Z.land (byte_to_Z b) 15)) acc))
             EmptyString bs.

Example sha256_abc :
  hex_of (Sha256.sha256 (encode "abc")) =
  "ba7816bf8f01cfea414140de5dae2223b00361a396177a9cb410ff61f20015ad"%string.
Proof. vm_compute. reflexivity. Qed.

Example hmac_fox :
  hex_of (Sha256.hmac_sha256 (encode "key")
            (encode "The quick brown fox jumps over the lazy dog")) =
  "f7bc83f430538424b13298e6aa6fb143ef4d59a14946175997479dbc2d1a3cd8"%string.
Proof. vm_compute. reflexivity. Qed.

(* ================================================================== *)
(** ** Facts about bytes, checked over all 256 values *)

Lemma byte_eqb_true (a b : byte) : byte_eqb a b = true <-> a = b.
Proof.
  unfold byte_eqb. split.
  - apply Byte.byte_dec_bl.
  - apply Byte.byte_dec_lb.
Qed.

Lemma byte_eqb_refl (a : byte) : byte_eqb a a = true.
Proof. apply byte_eqb_true. reflexivity. Qed.

Lemma bytes_eqb_true (a b : bytes) : bytes_eqb a b = true <-> a = b.
Proof.
  revert b. induction a as [|x a IH]; intros [|y b]; simpl; split;
    try congruence; try reflexivity.
  - intros H. apply andb_true_iff in H. destruct H as [Hx Ha].
    apply byte_eqb_true in Hx. apply IH in Ha. congruence.
  - intros H. injection H as -> ->. apply andb_true_iff. split.
    + apply byte_eqb_refl.
    + apply IH. reflexivity.
Qed.

Lemma all_bytes_complete (b : byte) : In b all_bytes.
Proof.
  assert (H : existsb (byte_eqb b) all_bytes = true)
    by (destruct b; vm_compute; reflexivity).
  apply existsb_exists in H. destruct H as [x [Hin Hx]].
  apply byte_eqb_true in Hx. subst x. exact Hin.
Qed.

Lemma byte_forall (P : byte -> bool) :
  forallb P all_bytes = true -> forall b, P b = true.
Proof.
  intros H b. rewrite forallb_forall in H. apply H, all_bytes_complete.
Qed.

Lemma byte_forall2 (P : byte -> byte -> bool) :
  forallb (fun a => forallb (P a) all_bytes) all_bytes = true ->
  forall a b, P a b = true.
Proof.
  intros H a b.
  apply (byte_forall (P a)).
  apply (byte_forall (fun a => forallb (P a) all_bytes) H).
Qed.

Lemma encode_decode (bs : bytes) : encode (decode bs) = bs.
Proof. apply list_byte_of_string_of_list_byte. Qed.

Lemma decode_encode (s : string) : decode (encode s) = s.
Proof. apply string_of_list_byte_of_string. Qed.

(* ================================================================== *)
(** ** Base64: decoding an encoding gives the bytes back *)

Module Base64Facts.

Import Base64 Groups.
Local Open Scope Z_scope.

Lemma sextets_complete (s : Z) : 0 <= s < 64 -> In s sextets.
Proof.
  intros H. unfold sextets. apply in_map_iff.
  exists (Z.to_nat s). split; [lia|]. apply in_seq. lia.
Qed.

Lemma seen_sextet (s : Z) :
  0 <= s < 64 ->
  byte_eqb (seen s) pad_char = false /\ a2b (seen s) = Some s
  /\ urlsafe_alphabet (urlsafe_encode_translation (b2a s)) = true.
Proof.
  intros H.
  assert (Hall : forallb sextet_ok sextets = true) by (vm_compute; reflexivity).
  rewrite forallb_forall in Hall.
  specialize (Hall s (sextets_complete H)).
  unfold sextet_ok in Hall.
  apply andb_true_iff in Hall. destruct Hall as [Hall Hc].
  apply andb_true_iff in Hall. destruct Hall as [Ha Hb].
  split; [|split].
  - now apply negb_true_iff in Ha.
  - destruct (a2b (seen s)) as [v|]; [|discriminate].
    apply Z.eqb_eq in Hb. now subst.
  - exact Hc.
Qed.

Lemma in_range_spec (s : Z) : in_range s = true -> 0 <= s < 64.
Proof. unfold in_range. intros H. apply andb_true_iff in H. lia. Qed.

Lemma first_byte (x y : byte) : first_byte_ok x y = true.
Proof. apply (byte_forall2 first_byte_ok). vm_compute. reflexivity. Qed.

Lemma second_byte (y z : byte) : second_byte_ok y z = true.
Proof. apply (byte_forall2 second_byte_ok). vm_compute. reflexivity. Qed.

Ltac split_andb H :=
  repeat match type of H with
         | (_ && _)%bool = true =>
             let H1 := fresh H in
             apply andb_true_iff in H; destruct H as [H H1]
         end.

(** One step of the decoder on a character that encodes a sextet. *)
Lemma a2b_loop_seen (s : Z) (rest : bytes) (quad_pos leftchar pads : Z)
      (acc : bytes) :
  0 <= s < 64 ->
  a2b_loop (seen s :: rest) quad_pos leftchar pads acc =
  if quad_pos =? 0 then a2b_loop rest 1 s 0 acc
  else if quad_pos =? 1 then
    a2b_loop rest 2 (Z.land s 15) 0
      (byte_of_Z (Z.lor (Z.shiftl leftchar 2) (Z.shiftr s 4)) :: acc)
  else if quad_pos =? 2 then
    a2b_loop rest 3 (Z.land s 3) 0
      (byte_of_Z (Z.lor (Z.shiftl leftchar 4) (Z.shiftr s 2)) :: acc)
  else
    a2b_loop rest 0 0 0 (byte_of_Z (Z.lor (Z.shiftl leftchar 6) s) :: acc).
Proof.
  intros H. destruct (seen_sextet H) as [Hp [Hv _]].
  cbn [a2b_loop]. rewrite Hp, Hv. reflexivity.
Qed.

Lemma translated_group (x y z : byte) (rest : bytes) :
  translated (x :: y :: z :: rest) =
  seen (s1 x) :: seen (s2 x y) :: seen (s3 y z) :: seen (s4 z)
  :: translated rest.
Proof. reflexivity. Qed.

Lemma list_ind3 (A : Type) (P : list A -> Prop) :
  P [] -> (forall x, P [x]) -> (forall x y, P [x; y]) ->
  (forall x y z l, P l -> P (x :: y :: z :: l)) ->
  forall l, P l.
Proof.
  intros H0 H1 H2 H3. fix IH 1.
  intros [|x [|y [|z l]]];
    [exact H0 | apply H1 | apply H2 | apply H3; apply IH].
Qed.

Lemma a2b_loop_encoded (bs : bytes) :
  forall acc, a2b_loop (translated bs) 0 0 0 acc = Return (rev acc ++ bs).
Proof.
  induction bs as [|x|x y|x y z l IH] using list_ind3; intros acc.
  - cbn. now rewrite app_nil_r.
  - pose proof (first_byte x x) as F. unfold first_byte_ok in F.
    split_andb F.
    change (translated [x])
      with (seen (s1 x) :: seen (s2' x) :: [pad_char; pad_char]).
    rewrite a2b_loop_seen by (now apply in_range_spec). cbn [Z.eqb Pos.eqb].
    rewrite a2b_loop_seen by (now apply in_range_spec). cbn [Z.eqb Pos.eqb].
    apply byte_eqb_true in F1. rewrite F1.
    cbn. rewrite <- ?app_assoc. reflexivity.
  - pose proof (first_byte x y) as F. unfold first_byte_ok in F.
    split_andb F.
    pose proof (second_byte y y) as G. unfold second_byte_ok in G.
    split_andb G.
    change (translated [x; y])
      with (seen (s1 x) :: seen (s2 x y) :: seen (s3' y) :: [pad_char]).
    rewrite a2b_loop_seen by (now apply in_range_spec). cbn [Z.eqb Pos.eqb].
    rewrite a2b_loop_seen by (now apply in_range_spec). cbn [Z.eqb Pos.eqb].
    rewrite a2b_loop_seen by (now apply in_range_spec). cbn [Z.eqb Pos.eqb].
    apply byte_eqb_true in F2. rewrite F2.
    apply Z.eqb_eq in F0. rewrite F0.
    apply byte_eqb_true in G1. rewrite G1.
    cbn. rewrite <- ?app_assoc. reflexivity.
  - pose proof (first_byte x y) as F. unfold first_byte_ok in F.
    split_andb F.
    pose proof (second_byte y z) as G. unfold second_byte_ok in G.
    split_andb G.
    rewrite translated_group.
    rewrite a2b_loop_seen by (now apply in_range_spec). cbn [Z.eqb Pos.eqb].
    rewrite a2b_loop_seen by (now apply in_range_spec). cbn [Z.eqb Pos.eqb].
    rewrite a2b_loop_seen by (now apply in_range_spec). cbn [Z.eqb Pos.eqb].
    rewrite a2b_loop_seen by (now apply in_range_spec). cbn [Z.eqb Pos.eqb].
    apply byte_eqb_true in F2. rewrite F2.
    apply Z.eqb_eq in F0. rewrite F0.
    apply byte_eqb_true in G2. rewrite G2.
    apply byte_eqb_true in G0. rewrite G0.
    rewrite IH. cbn [rev]. rewrite <- ?app_assoc. reflexivity.
Qed.

Lemma urlsafe_b64decode_encode (bs : bytes) :
  urlsafe_b64decode (urlsafe_b64encode bs) = Return bs.
Proof. apply (a2b_loop_encoded bs []). Qed.

Lemma urlsafe_b64encode_alphabet (bs : bytes) :
  forallb urlsafe_alphabet (urlsafe_b64encode bs) = true.
Proof.
  induction bs as [|x|x y|x y z l IH] using list_ind3.
  - reflexivity.
  - pose proof (first_byte x x) as F. unfold first_byte_ok in F.
    split_andb F.
    change (urlsafe_b64encode [x]) with
      (urlsafe_encode_translation (b2a (s1 x))
       :: urlsafe_encode_translation (b2a (s2' x)) :: [pad_char; pad_char]).
    cbn [forallb].
    rewrite (proj2 (proj2 (seen_sextet (in_range_spec _ F)))).
    rewrite (proj2 (proj2 (seen_sextet (in_range_spec _ F3)))).
    reflexivity.
  - pose proof (first_byte x y) as F. unfold first_byte_ok in F.
    split_andb F.
    pose proof (second_byte y y) as G. unfold second_byte_ok in G.
    split_andb G.
    change (urlsafe_b64encode [x; y]) with
      (urlsafe_encode_translation (b2a (s1 x))
       :: urlsafe_encode_translation (b2a (s2 x y))
       :: urlsafe_encode_translation (b2a (s3' y)) :: [pad_char]).
    cbn [forallb].
    rewrite (proj2 (proj2 (seen_sextet (in_range_spec _ F)))).
    rewrite (proj2 (proj2 (seen_sextet (in_range_spec _ F4)))).
    rewrite (proj2 (proj2 (seen_sextet (in_range_spec _ G4)))).
    reflexivity.
  - pose proof (first_byte x y) as F. unfold first_byte_ok in F.
    split_andb F.
    pose proof (second_byte y z) as G. unfold second_byte_ok in G.
    split_andb G.
    change (urlsafe_b64encode (x :: y :: z :: l)) with
      (urlsafe_encode_translation (b2a (s1 x))
       :: urlsafe_encode_translation (b2a (s2 x y))
       :: urlsafe_encode_translation (b2a (s3 y z))
       :: urlsafe_encode_translation (b2a (s4 z))
       :: urlsafe_b64encode l).
    cbn [forallb].
    rewrite (proj2 (proj2 (seen_sextet (in_range_spec _ F)))).
    rewrite (proj2 (proj2 (seen_sextet (in_range_spec _ F4)))).
    rewrite (proj2 (proj2 (seen_sextet (in_range_spec _ G)))).
    rewrite (proj2 (proj2 (seen_sextet (in_range_spec _ G3)))).
    exact IH.
Qed.

End Base64Facts.

(* ================================================================== *)
(** ** Token codec *)

Module CryptoFacts.

Import Crypto Groups.

Lemma length_be_bytes (n : nat) (x : Z) :
  List.length (Sha256.be_bytes n x) = n.
Proof.
  unfold Sha256.be_bytes.
  now rewrite length_map, length_rev, length_seq.
Qed.

Lemma length_sha256 (msg : bytes) : List.length (Sha256.sha256 msg) = 32%nat.
Proof.
  unfold Sha256.sha256, Sha256.digest_of.
  rewrite !length_app, !length_be_bytes. reflexivity.
Qed.

Lemma length_hmac_sha256 (key msg : bytes) :
  List.length (Sha256.hmac_sha256 key msg) = 32%nat.
Proof. unfold Sha256.hmac_sha256. apply length_sha256. Qed.

Lemma bytes_eqb_length (a b : bytes) :
  bytes_eqb a b = true -> List.length a = List.length b.
Proof. intros H. apply bytes_eqb_true in H. now subst. Qed.

(** [rsplit_last] finds the last separator. *)
Lemma rsplit_last_none (sep : byte) (bs : bytes) :
  rsplit_last sep bs = None <-> ~ In sep bs.
Proof.
  induction bs as [|b bs IH]; simpl.
  - tauto.
  - destruct (rsplit_last sep bs) as [[p s]|].
    + split; [discriminate|]. intros H. exfalso.
      assert (Hn : ~ In sep bs) by tauto.
      apply IH in Hn. discriminate.
    + destruct (byte_eqb b sep) eqn:E.
      * apply byte_eqb_true in E. split; [discriminate|]. tauto.
      * split; [|reflexivity]. intros _ [H|H].
        -- subst. rewrite byte_eqb_refl in E. discriminate.
        -- now apply (proj1 IH).
Qed.

Lemma rsplit_last_some (sep : byte) (bs p s : bytes) :
  rsplit_last sep bs = Some (p, s) ->
  bs = p ++ sep :: s /\ ~ In sep s.
Proof.
  revert p s. induction bs as [|b bs IH]; simpl; intros p s H.
  - discriminate.
  - destruct (rsplit_last sep bs) as [[p' s']|] eqn:E.
    + injection H as <- <-. destruct (IH _ _ eq_refl) as [-> Hn].
      split; [reflexivity|assumption].
    + destruct (byte_eqb b sep) eqn:Eb; [|discriminate].
      injection H as <- <-. apply byte_eqb_true in Eb. subst b.
      split; [reflexivity|]. now apply rsplit_last_none.
Qed.

(** Splitting [payload ~ sig]: at the [~] written by the signer when
    [sig] holds none, inside [sig] otherwise. *)
Lemma rsplit_last_joined (sep : byte) (payload sig : bytes) :
  rsplit_last sep (payload ++ [sep] ++ sig) =
  match rsplit_last sep sig with
  | Some (p, s) => Some (payload ++ sep :: p, s)
  | None => Some (payload, sig)
  end.
Proof.
  induction payload as [|x a IH].
  - cbn [app rsplit_last]. rewrite byte_eqb_refl.
    now destruct (rsplit_last sep sig) as [[p s]|].
  - cbn [app rsplit_last] in *. rewrite IH.
    now destruct (rsplit_last sep sig) as [[p s]|].
Qed.

Lemma existsb_In (sep : byte) (bs : bytes) :
  existsb (byte_eqb sep) bs = true <-> In sep bs.
Proof.
  rewrite existsb_exists. split.
  - intros [x [Hx E]]. apply byte_eqb_true in E. now subst.
  - intros H. exists sep. split; [assumption|apply byte_eqb_refl].
Qed.

(** Comparing an expected digest with what follows the last [~] of
    [payload ~ sig], for any [sig] as long as a digest. *)
Lemma verify_joined (mac : bytes -> bytes) (payload : bytes) :
  (forall m, List.length (mac m) = 32%nat) ->
  match rsplit1 tilde (payload ++ [tilde] ++ mac payload) with
  | [p; s] => Return (compare_digest (mac p) s)
  | _ => Raise ValueError
  end = Return (negb (existsb (byte_eqb tilde) (mac payload))).
Proof.
  intros Hlen. unfold rsplit1. rewrite rsplit_last_joined.
  destruct (rsplit_last tilde (mac payload)) as [[p s]|] eqn:E.
  - destruct (rsplit_last_some _ _ E) as [Hsig _].
    assert (Hin : existsb (byte_eqb tilde) (mac payload) = true).
    { apply existsb_In. rewrite Hsig. apply in_or_app. right. now left. }
    rewrite Hin. cbn [negb]. f_equal.
    destruct (compare_digest _ s) eqn:C; [|reflexivity]. exfalso.
    apply bytes_eqb_length in C. rewrite Hlen in C.
    pose proof (Hlen payload) as L.
    rewrite Hsig, length_app in L. cbn [List.length] in L. lia.
  - assert (Hin : existsb (byte_eqb tilde) (mac payload) = false).
    { apply rsplit_last_none in E.
      destruct (existsb (byte_eqb tilde) (mac payload)) eqn:X;
        [|reflexivity].
      exfalso. apply E. now apply existsb_In. }
    rewrite Hin. cbn [negb]. f_equal.
    apply bytes_eqb_true. reflexivity.
Qed.

Lemma decode_signed (secret : string) (ts : Z) (license_key : string)
      (device_id : option string) :
  Base64.urlsafe_b64decode
    (encode (sign_activation_at secret ts license_key device_id))
  = Return (raw_token secret ts license_key device_id).
Proof.
  unfold sign_activation_at. rewrite encode_decode.
  apply Base64Facts.urlsafe_b64decode_encode.
Qed.

(** What [verify_activation_token] answers on a token that
    [sign_activation] made: [True] exactly when the signature bytes
    hold no [~]. *)
Lemma verify_signed (secret : string) (ts : Z) (license_key : string)
      (device_id : option string) :
  verify_activation_token secret
    (sign_activation_at secret ts license_key device_id)
  = Return (negb (existsb (byte_eqb tilde)
                    (Sha256.hmac_sha256 (encode secret)
                       (encode (payload_of license_key device_id ts))))).
Proof.
  unfold verify_activation_token, verify_body.
  rewrite decode_signed. unfold raw_token.
  rewrite (verify_joined (Sha256.hmac_sha256 (encode secret)) _
             (length_hmac_sha256 (encode secret))).
  reflexivity.
Qed.

End CryptoFacts.
(* ================================================================== *)
(** ** Running programs *)

Lemma run_all_cons (E : Type -> Type) (W : Type)
      (h : forall X : Type, E X -> W -> X * W) (A : Type)
      (p : Prog E A) (ps : list (Prog E A)) (w : W) :
  snd (run_all h (p :: ps) w) = snd (run_all h ps (snd (run h p w))).
Proof.
  cbn. destruct (run h p w) as [a w1]. cbn.
  now destruct (run_all h ps w1).
Qed.

(** *** Counting rows *)

Lemma filter_map_same (A : Type) (f : A -> bool) (g : A -> A) (l : list A) :
  (forall a, f (g a) = f a) ->
  List.length (filter f (map g l)) = List.length (filter f l).
Proof.
  intros H. induction l as [|a l IH]; cbn.
  - reflexivity.
  - rewrite H. destruct (f a); cbn; now rewrite IH.
Qed.

Lemma length_filter_snoc (A : Type) (f : A -> bool) (l : list A) (a : A) :
  List.length (filter f (l ++ [a]))
  = (List.length (filter f l) + (if f a then 1 else 0))%nat.
Proof.
  rewrite filter_app, length_app. cbn. now destruct (f a).
Qed.

Lemma find_none_filter (A : Type) (f : A -> bool) (l : list A) :
  find f l = None -> filter f l = [].
Proof.
  induction l as [|a l IH]; cbn; [reflexivity|].
  destruct (f a); [discriminate|exact IH].
Qed.

Lemma hd_error_filter_In (A : Type) (f : A -> bool) (l : list A) (a : A) :
  hd_error (filter f l) = Some a -> In a l.
Proof.
  intros H. assert (Hin : In a (filter f l)).
  { destruct (filter f l) as [|x t]; [discriminate|].
    injection H as ->. now left. }
  now apply filter_In in Hin.
Qed.

Lemma NoDup_map_inj (A B : Type) (f : A -> B) (l : list A) (a b : A) :
  NoDup (map f l) -> In a l -> In b l -> f a = f b -> a = b.
Proof.
  induction l as [|x l IH]; cbn; intros Hnd Ha Hb E; [contradiction|].
  inversion Hnd as [|? ? Hx Hnd']; subst.
  destruct Ha as [->|Ha], Hb as [->|Hb].
  - reflexivity.
  - exfalso. apply Hx. rewrite E. now apply in_map.
  - exfalso. apply Hx. rewrite <- E. now apply in_map.
  - now apply IH.
Qed.

Lemma opt_str_eqb_refl (s : option string) : opt_str_eqb s s = true.
Proof. destruct s; cbn; [apply String.eqb_refl|reflexivity]. Qed.

Lemma find_none_existsb (A : Type) (f : A -> bool) (l : list A) :
  find f l = None -> existsb f l = false.
Proof.
  induction l as [|a l IH]; cbn; [reflexivity|].
  destruct (f a); [discriminate|exact IH].
Qed.

Lemma find_some_existsb (A : Type) (f : A -> bool) (l : list A) (a : A) :
  find f l = Some a -> existsb f l = true.
Proof.
  induction l as [|b l IH]; cbn; [discriminate|].
  destruct (f b); [reflexivity|exact IH].
Qed.

(* ================================================================== *)
(** ** The activation engine, relational variant *)

Module EngineFacts.

Import Db Licenses Vocabulary.
Local Open Scope string_scope.
Local Open Scope list_scope.

(** A field that is present and not empty is truthy. *)
Lemma provided (s : option string) (k : string) :
  s = Some k -> k <> "" ->
  truthy_str s = true /\ Crypto.or_empty s = k.
Proof.
  intros -> Hk. cbn. split; [|reflexivity].
  apply negb_true_iff. now apply String.eqb_neq.
Qed.

Lemma no_row_yet (w : world) (lic : License.t) (device_id : option string) :
  (forall d, device_id = Some d ->
             find (for_device (License.id lic) d) (activations (db w))
             = None) ->
  existing_row w lic device_id = None.
Proof.
  intros H. unfold existing_row.
  destruct device_id as [d|]; cbn; [|reflexivity].
  destruct (negb (String.eqb d "")); [now apply H|reflexivity].
Qed.

Lemma limit_reached_negative (n count : Z) :
  (n <= 0)%Z -> limit_reached n count = false.
Proof.
  intros H. unfold limit_reached.
  apply andb_false_iff. left. apply Z.ltb_ge. exact H.
Qed.

Lemma for_license_touch lid existing now a :
  for_license lid (touch existing now a) = for_license lid a.
Proof. unfold touch. now destruct (Z.eqb _ _). Qed.

Lemma for_device_touch lid dev existing now a :
  for_device lid dev (touch existing now a) = for_device lid dev a.
Proof. unfold touch. now destruct (Z.eqb _ _). Qed.

(** A revoked license is refused before anything else is looked at. *)
Lemma disabled_run cfg p host w lic :
  truthy_str (license_key p) = true ->
  found w (Crypto.or_empty (license_key p)) = Some lic ->
  License.active lic = Some false ->
  exec (activate_license cfg p host) w = (Return (refuse DISABLED), w).
Proof.
  unfold found. intros Hk Hf Ha. unfold exec, activate_license.
  rewrite Hk. cbn. rewrite Hf, Ha. reflexivity.
Qed.

(** The path of a device that already holds a row. *)
Lemma reactivation_run cfg p host w lic existing :
  truthy_str (license_key p) = true ->
  found w (Crypto.or_empty (license_key p)) = Some lic ->
  truthy_bool (License.active lic) = true ->
  comparable lic = true ->
  expired_in w lic = false ->
  existing_row w lic (device_id p) = Some existing ->
  let n := expiry_reads lic in
  let now := reading w n in
  let token := Crypto.sign_activation_at (ACTIVATION_SECRET cfg)
                 (reading w (S n)) (License.license_key lic) (device_id p) in
  let w' := snd (exec (activate_license cfg p host) w) in
  fst (exec (activate_license cfg p host) w)
  = Return (Response true OK (Some token) (Some (summary_of lic)))
  /\ licenses (db w') = licenses (db w)
  /\ activations (db w') = map (touch existing now) (activations (db w))
  /\ List.length (activations (db w')) = List.length (activations (db w))
  /\ In (Activation.set_last_seen now existing) (activations (db w')).
Proof.
  unfold found, existing_row, comparable, expired_in, expiry_reads, reading.
  intros Hk Hf Ha Hc He Hx.
  assert (Hin : In existing (activations (db w))).
  { destruct (truthy_str (device_id p)); [|discriminate].
    now apply find_some in Hx. }
  unfold exec, activate_license, is_expired, sign_activation.
  rewrite Hk. cbn. rewrite Hf, Ha. cbn.
  destruct (License.expires_at lic) as [[e|e]|]; cbn in He, Hc |- *;
    try discriminate Hc;
    rewrite ?He; cbn;
    (destruct (truthy_str (device_id p)); [|discriminate]); cbn;
    rewrite Hx; cbn;
    (split; [reflexivity|]); (split; [reflexivity|]);
    (split; [reflexivity|]);
    (split; [now rewrite length_map|]);
    (apply in_map_iff; exists existing; split; [|assumption];
     unfold touch; now rewrite Z.eqb_refl).
Qed.

(** The path of a new device on a full license. *)
Lemma limit_run cfg p host w lic n :
  truthy_str (license_key p) = true ->
  found w (Crypto.or_empty (license_key p)) = Some lic ->
  truthy_bool (License.active lic) = true ->
  comparable lic = true ->
  expired_in w lic = false ->
  existing_row w lic (device_id p) = None ->
  License.max_activations lic = Some n ->
  (0 < n)%Z ->
  (n <= activation_count (db w) (License.id lic))%Z ->
  fst (exec (activate_license cfg p host) w) = Return (refuse LIMIT_REACHED)
  /\ db (snd (exec (activate_license cfg p host) w)) = db w.
Proof.
  unfold found, existing_row, comparable, expired_in, expiry_reads, reading.
  intros Hk Hf Ha Hcmp He Hx Hm Hn Hc.
  assert (Hl : limit_reached n (activation_count (db w) (License.id lic))
               = true).
  { unfold limit_reached. apply andb_true_iff. split.
    - now apply Z.ltb_lt.
    - now apply Z.leb_le. }
  unfold exec, activate_license, is_expired, sign_activation.
  rewrite Hk. cbn. rewrite Hf, Ha. cbn.
  destruct (License.expires_at lic) as [[e|e]|]; cbn in He, Hcmp |- *;
    try discriminate Hcmp;
    rewrite ?He; cbn;
    (destruct (truthy_str (device_id p)); cbn;
     rewrite ?Hx; cbn; rewrite Hm; cbn; rewrite Hl; cbn;
     split; reflexivity).
Qed.

(** The path of a new device on a license whose limit is not positive. *)
Lemma unlimited_run cfg p host w lic n :
  (n <= 0)%Z ->
  truthy_str (license_key p) = true ->
  found w (Crypto.or_empty (license_key p)) = Some lic ->
  License.max_activations lic = Some n ->
  truthy_bool (License.active lic) = true ->
  comparable lic = true ->
  expired_in w lic = false ->
  existing_row w lic (device_id p) = None ->
  exists token row,
    fst (exec (activate_license cfg p host) w)
    = Return (accept ACTIVATED token lic)
    /\ activations (db (snd (exec (activate_license cfg p host) w)))
       = activations (db w) ++ [row]
    /\ Activation.license_id row = License.id lic.
Proof.
  unfold found, existing_row, comparable, expired_in, reading.
  intros Hn Hk Hf Hm Ha Hcmp He Hx.
  assert (Hlim : forall count, limit_reached n count = false)
    by (intros count; now apply limit_reached_negative).
  unfold exec, activate_license, is_expired, sign_activation.
  rewrite Hk. cbn. rewrite Hf, Ha. cbn.
  destruct (License.expires_at lic) as [[e|e]|]; cbn in He, Hcmp |- *;
    try discriminate Hcmp;
    rewrite ?He; cbn;
    (destruct (truthy_str (device_id p)); cbn;
     rewrite ?Hx; cbn; rewrite Hm; cbn; rewrite Hlim; cbn;
     eexists _, _; (split; [reflexivity|]); split; reflexivity).
Qed.

(** What a request leaves behind: the licenses as they were, and the
    activations as they were, or with one row touched, or with one row
    appended for a license under its limit. *)
Lemma activate_license_step cfg p host w :
  let w' := snd (exec (activate_license cfg p host) w) in
  licenses (db w') = licenses (db w)
  /\ (activations (db w') = activations (db w)
      \/ (exists existing now,
             activations (db w')
             = map (touch existing now) (activations (db w)))
      \/ (exists lic row,
             found w (Crypto.or_empty (license_key p)) = Some lic
             /\ existing_row w lic (device_id p) = None
             /\ limit_reached (int_or_0 (License.max_activations lic))
                  (activation_count (db w) (License.id lic)) = false
             /\ Activation.license_id row = License.id lic
             /\ Activation.device_id row = Some (or_unknown (device_id p))
             /\ activations (db w') = activations (db w) ++ [row])).
Proof.
  unfold found, existing_row, exec, activate_license, is_expired,
    sign_activation.
  destruct (truthy_str (license_key p)); cbn; [|now auto].
  destruct (find _ (licenses (db w))) as [lic|] eqn:Hf; cbn; [|now auto].
  destruct (truthy_bool (License.active lic)); cbn; [|now auto].
  destruct (License.expires_at lic) as [[e|e]|]; cbn;
    [destruct (Z.ltb e (clock w (ticks w))); cbn; [now auto|]
    | now auto | ];
    (destruct (truthy_str (device_id p)) eqn:Hd; cbn;
     [destruct (find _ (activations (db w))) as [ex|] eqn:Hx; cbn;
      [split; [reflexivity|]; right; left; eauto|] | ];
     (destruct (limit_reached _ _) eqn:Hl; cbn;
      [now auto|];
      split; [reflexivity|]; right; right;
      eexists lic, _; repeat split; try reflexivity; try assumption)).
Qed.

(** Served one after the other, requests keep a license within its
    limit. *)
Lemma activate_license_quota cfg reqs w lic n :
  NoDup (map License.id (licenses (db w))) ->
  In lic (licenses (db w)) ->
  License.max_activations lic = Some n ->
  (0 < n)%Z ->
  (activation_count (db w) (License.id lic) <= n)%Z ->
  (activation_count (db (snd (run_all handle (requests cfg reqs) w)))
     (License.id lic) <= n)%Z.
Proof.
  revert w. induction reqs as [|[p host] reqs IH]; intros w Hnd Hin Hm Hn Hc.
  - exact Hc.
  - unfold requests. cbn [map fst snd]. rewrite run_all_cons.
    fold (requests cfg reqs).
    destruct (activate_license_step cfg p host w) as [Hl Ha].
    fold (exec (activate_license cfg p host) w).
    set (w1 := snd (exec (activate_license cfg p host) w)) in *.
    apply IH; rewrite ?Hl; try assumption.
    unfold activation_count in *.
    destruct Ha as [Ha|[[ex [now Ha]]|[lic' [row Ha]]]].
    + now rewrite Ha.
    + rewrite Ha, filter_map_same; [assumption|].
      intros a. apply for_license_touch.
    + destruct Ha as [Hf [_ [Hlim [Hrow [_ Ha]]]]].
      rewrite Ha, length_filter_snoc.
      unfold for_license at 2. rewrite Hrow.
      destruct (Z.eqb (License.id lic') (License.id lic)) eqn:E.
      * apply Z.eqb_eq in E.
        assert (lic' = lic).
        { apply (NoDup_map_inj License.id (licenses (db w))); try assumption.
          unfold found in Hf. now apply find_some in Hf. }
        subst lic'. rewrite Hm in Hlim. cbn in Hlim.
        unfold limit_reached in Hlim.
        apply andb_false_iff in Hlim. destruct Hlim as [Hlim|Hlim].
        -- apply Z.ltb_ge in Hlim. lia.
        -- apply Z.leb_gt in Hlim. unfold activation_count in Hlim. lia.
      * lia.
Qed.

(** Served one after the other, requests keep one row for each device
    that gives its name. *)
Lemma named_device_rows cfg reqs w :
  (forall lid dev, dev <> "unknown" -> (rows_of (db w) lid dev <= 1)%nat) ->
  forall lid dev, dev <> "unknown" ->
    (rows_of (db (snd (run_all handle (requests cfg reqs) w))) lid dev
     <= 1)%nat.
Proof.
  revert w. induction reqs as [|[p host] reqs IH]; intros w Hinv.
  - exact Hinv.
  - unfold requests. cbn [map fst snd]. rewrite run_all_cons.
    fold (requests cfg reqs).
    destruct (activate_license_step cfg p host w) as [Hl Ha].
    fold (exec (activate_license cfg p host) w).
    set (w1 := snd (exec (activate_license cfg p host) w)) in *.
    apply IH. intros lid dev Hdev. specialize (Hinv lid dev Hdev).
    unfold rows_of in *.
    destruct Ha as [Ha|[[ex [now Ha]]|[lic' [row Ha]]]].
    + now rewrite Ha.
    + rewrite Ha, filter_map_same; [assumption|].
      intros a. apply for_device_touch.
    + destruct Ha as [_ [Hx [_ [Hrow [Hrd Ha]]]]].
      rewrite Ha, length_filter_snoc.
      destruct (for_device lid dev row) eqn:E; [|lia].
      unfold for_device, for_license in E. rewrite Hrow, Hrd in E.
      apply andb_true_iff in E. destruct E as [E1 E2].
      apply Z.eqb_eq in E1. cbn in E2. apply String.eqb_eq in E2.
      unfold existing_row in Hx. unfold or_unknown in E2.
      destruct (truthy_str (device_id p)).
      * subst lid. rewrite E2 in Hx.
        rewrite (find_none_filter _ _ Hx). cbn. lia.
      * congruence.
Qed.

End EngineFacts.

(* ================================================================== *)
(** ** The activation engine, Supabase variant *)

Module SupabaseFacts.
Import Supabase SupabaseVocabulary.
Local Open Scope string_scope.
Local Open Scope list_scope.

Lemma set_last_seen_license (aid : Z) (ls : string) (lid : Z)
      (a : activation_row) :
  Z.eqb (a_license_id (set_last_seen aid ls a)) lid
  = Z.eqb (a_license_id a) lid.
Proof. unfold set_last_seen. now destruct (Z.eqb (a_id a) aid). Qed.

(** What a check leaves behind in the remote tables. *)
Lemma api_check_step cfg fromiso iso req w :
  let w' := snd (exec (api_check cfg fromiso iso req) w) in
  licenses (store w') = licenses (store w)
  /\ (activations (store w') = activations (store w)
      \/ (exists aid ls,
             activations (store w')
             = map (set_last_seen aid ls) (activations (store w)))
      \/ (exists lic row,
             In lic (licenses (store w))
             /\ Licenses.limit_reached (int_or_0 (l_max_activations lic))
                  (activation_count (store w) (l_id lic)) = false
             /\ a_license_id row = l_id lic
             /\ activations (store w') = activations (store w) ++ [row])).
Proof.
  unfold activation_count, exec, api_check, supabase_get_license_row,
    supabase_get_activations_for_license, supabase_create_activation_row,
    supabase_update_activation_last_seen, is_expired, sign_activation.
  cbn.
  destruct (reachable w (calls w)); cbn; [|now auto].
  destruct (hd_error _) as [lic|] eqn:Hf; cbn; [|now auto].
  apply hd_error_filter_In in Hf.
  destruct (truthy_bool (l_active lic)); cbn; [|now auto].
  assert (Hgo : forall (t : nat) (c : nat),
    let w0 := World (store w) (clock w) t (entropy w) (draws w)
                    (reachable w) c (reply_text w) in
    let w' := snd (run handle
      (bind (supabase_get_activations_for_license (l_id lic))
         (fun activations =>
            match activations with
            | Raise e => Ret (Raise e)
            | Return activations =>
                match (if truthy_str (device_id req)
                       then find (fun a => opt_str_eqb (a_device_id a)
                                             (device_id req)) activations
                       else None) with
                | Some existing =>
                    bind (supabase_update_activation_last_seen iso
                            (a_id existing)) (fun _ =>
                    bind (sign_activation cfg (l_key lic) (device_id req))
                      (fun token =>
                         Ret (Return (accept Licenses.OK token lic))))
                | None =>
                    if Licenses.limit_reached
                         (int_or_0 (l_max_activations lic))
                         (Z.of_nat (List.length activations))
                    then Ret (Return (refuse Licenses.LIMIT_REACHED))
                    else
                      bind (supabase_create_activation_row iso (l_id lic)
                              (Licenses.or_unknown (device_id req))
                              (device_fingerprint req) None)
                        (fun created =>
                           match created with
                           | Raise e => Ret (Raise e)
                           | Return _ =>
                               bind (sign_activation cfg (l_key lic)
                                       (device_id req))
                                 (fun token =>
                                    Ret (Return (accept Licenses.ACTIVATED
                                                   token lic)))
                           end)
                end
            end)) w0) in
    licenses (store w') = licenses (store w)
    /\ (activations (store w') = activations (store w)
        \/ (exists aid ls,
               activations (store w')
               = map (set_last_seen aid ls) (activations (store w)))
        \/ (exists lic row,
               In lic (licenses (store w))
               /\ Licenses.limit_reached (int_or_0 (l_max_activations lic))
                    (Z.of_nat
                       (List.length
                          (filter (fun a => Z.eqb (a_license_id a) (l_id lic))
                                  (activations (store w))))) = false
               /\ a_license_id row = l_id lic
               /\ activations (store w') = activations (store w) ++ [row]))).
  { intros t c.
    unfold supabase_get_activations_for_license,
      supabase_create_activation_row,
      supabase_update_activation_last_seen, sign_activation.
    cbn.
    destruct (reachable w c); cbn; [|now auto].
    destruct (if truthy_str (device_id req) then _ else None) as [ex|]; cbn.
    - destruct (reachable w (S c)); cbn.
      + split; [reflexivity|]. right. left. eauto.
      + auto.
    - destruct (Licenses.limit_reached _ _) eqn:Hl; cbn; [now auto|].
      destruct (reachable w (S c)); cbn; [|now auto].
      split; [reflexivity|]. right. right.
      eexists lic, _. repeat split; try reflexivity; assumption. }
  destruct (truthy_str (l_expires_at lic)); cbn.
  - destruct (fromiso _) as [|t|t]; cbn.
    + apply Hgo.
    + apply Hgo.
    + destruct (Z.ltb t (clock w (ticks w))); cbn; [now auto|]. apply Hgo.
  - apply Hgo.
Qed.

(** Served one after the other, checks keep a license within its
    limit. *)
Lemma api_check_quota cfg fromiso iso reqs w lic n :
  NoDup (map l_id (licenses (store w))) ->
  In lic (licenses (store w)) ->
  l_max_activations lic = Some n ->
  (0 < n)%Z ->
  (activation_count (store w) (l_id lic) <= n)%Z ->
  (activation_count
     (store (snd (run_all handle (checks cfg fromiso iso reqs) w)))
     (l_id lic) <= n)%Z.
Proof.
  revert w. induction reqs as [|req reqs IH]; intros w Hnd Hin Hm Hn Hc.
  - exact Hc.
  - unfold checks. cbn [map]. rewrite run_all_cons.
    fold (checks cfg fromiso iso reqs).
    destruct (api_check_step cfg fromiso iso req w) as [Hl Ha].
    fold (exec (api_check cfg fromiso iso req) w).
    set (w1 := snd (exec (api_check cfg fromiso iso req) w)) in *.
    apply IH; rewrite ?Hl; try assumption.
    unfold activation_count in *.
    destruct Ha as [Ha|[[aid [ls Ha]]|[lic' [row Ha]]]].
    + now rewrite Ha.
    + rewrite Ha, filter_map_same; [assumption|].
      intros a. apply set_last_seen_license.
    + destruct Ha as [Hf [Hlim [Hrow Ha]]].
      rewrite Ha, length_filter_snoc. rewrite Hrow.
      destruct (Z.eqb (l_id lic') (l_id lic)) eqn:E.
      * apply Z.eqb_eq in E.
        assert (lic' = lic)
          by (apply (NoDup_map_inj l_id (licenses (store w)));
              assumption).
        subst lic'. rewrite Hm in Hlim. cbn in Hlim.
        unfold Licenses.limit_reached in Hlim.
        apply andb_false_iff in Hlim. destruct Hlim as [Hlim|Hlim].
        -- apply Z.ltb_ge in Hlim. lia.
        -- apply Z.leb_gt in Hlim. lia.
      * lia.
Qed.
End SupabaseFacts.

(* ================================================================== *)
(** ** The properties of the specification *)

Module Claims.

Import Db Licenses Vocabulary Scenario EngineFacts.
Local Open Scope string_scope.
Local Open Scope list_scope.

(** The store of the scenarios with one seat taken is the one a first
    activation of device ["A"] leaves. *)
Example saturated_reached :
  let w := snd (exec (from_device (Some "A")) (world1 1)) in
  db w = db saturated /\ ticks w = ticks saturated.
Proof. vm_compute. split; reflexivity. Qed.

(** *** Quota *)

(** C1, as stated, fails: two requests in flight together for a
    license with one seat, from the new devices ["A"] and ["B"], both
    read the count before either inserts its row; both are admitted
    and the license ends with two activations. *)
Lemma concurrent_activations_exceed_quota :
  let run := interleave Db.handle [0; 0; 0; 1; 1; 1; 0; 0; 0; 1; 1; 1]%nat
               [from_device (Some "A"); from_device (Some "B")] (world1 1) in
  map admitted (fst run) = [Some true; Some true]
  /\ License.max_activations (license1 1) = Some 1%Z
  /\ activation_count (db (snd run)) 1 = 2%Z.
Proof. vm_compute. repeat split; reflexivity. Qed.

(** C1, as amended: for a license with [max_activations = n > 0] that
    is within its limit, any sequence of activation requests served
    one after the other leaves it within its limit, in the relational
    variant and in the Supabase variant alike. *)
Theorem quota_holds_sequentially cfg reqs w lic n
        fromiso iso checks_ sw slic sn :
  NoDup (map License.id (licenses (db w))) ->
  In lic (licenses (db w)) ->
  License.max_activations lic = Some n ->
  (0 < n)%Z ->
  (activation_count (db w) (License.id lic) <= n)%Z ->
  NoDup (map Supabase.l_id (Supabase.licenses (Supabase.store sw))) ->
  In slic (Supabase.licenses (Supabase.store sw)) ->
  Supabase.l_max_activations slic = Some sn ->
  (0 < sn)%Z ->
  (SupabaseVocabulary.activation_count (Supabase.store sw)
     (Supabase.l_id slic) <= sn)%Z ->
  (activation_count (db (snd (run_all Db.handle (requests cfg reqs) w)))
     (License.id lic) <= n)%Z
  /\ (SupabaseVocabulary.activation_count
        (Supabase.store
           (snd (run_all Supabase.handle
                   (SupabaseVocabulary.checks cfg fromiso iso checks_) sw)))
        (Supabase.l_id slic) <= sn)%Z.
Proof.
  intros. split.
  - now apply activate_license_quota.
  - now apply SupabaseFacts.api_check_quota.
Qed.

Lemma quota_holds_sequentially_witness :
  (activation_count
     (db (snd (run_all Db.handle
                 (requests defaults
                    [(body (Some "A"), None); (body (Some "B"), None)])
                 (world1 1))))
     1 <= 1)%Z
  /\ (SupabaseVocabulary.activation_count
        (Supabase.store
           (snd (run_all Supabase.handle
                   (SupabaseVocabulary.checks defaults fromisoformat
                      isoformat [check (Some "A"); check (Some "B")])
                   (remote1 1 true))))
        1 <= 1)%Z.
Proof.
  apply (@quota_holds_sequentially defaults
           [(body (Some "A"), None); (body (Some "B"), None)]
           (world1 1) (license1 1) 1%Z
           fromisoformat isoformat [check (Some "A"); check (Some "B")]
           (remote1 1 true) (remote_license 1 true) 1%Z).
  - cbn. constructor; [intros []|constructor].
  - cbn. now left.
  - reflexivity.
  - lia.
  - vm_compute. discriminate.
  - cbn. constructor; [intros []|constructor].
  - cbn. now left.
  - reflexivity.
  - lia.
  - vm_compute. discriminate.
Defined.

(** *** Token codec *)

(** C2 fails on the code: with the secret [main.py] defaults to, the
    token [sign_activation] makes for license ["LICENSE-1"] and device
    ["device-A"] at 1700000003 is refused by [verify_activation_token],
    because the signature holds a [~] byte and the split falls inside
    it; and the token a first activation of ["device-28"] is answered
    with is refused by [verify_token] at once. *)
Theorem signed_token_rejected :
  let secret := "CHANGE_ME_ACTIVATION_SECRET" in
  let token := Crypto.sign_activation_at secret 1700000003 "LICENSE-1"
                 (Some "device-A") in
  token = "TElDRU5TRS0xfGRldmljZS1BfDE3MDAwMDAwMDN-I-pJ9RLPnOBItY-QNXM1fucvIZE4V7Q48z1uNZ56ens="
  /\ Crypto.verify_activation_token secret token = Return false
  /\ (let run := exec (from_device (Some "device-28")) (world1 1) in
      exists issued summary,
        fst run = Return (Response true ACTIVATED (Some issued) summary)
        /\ verify_token defaults (Some issued) = Return false).
Proof.
  cbn zeta. split; [|split].
  - vm_compute. reflexivity.
  - vm_compute. reflexivity.
  - eexists _, _. split.
    + vm_compute. reflexivity.
    + vm_compute. reflexivity.
Qed.

(** C7: [verify_activation_token] answers every string with a
    boolean, never with an exception, and the answer is [False]
    whenever the string does not decode or decodes to bytes without a
    [~]. *)
Theorem verify_activation_token_total (secret token : string) :
  (exists b, Crypto.verify_activation_token secret token = Return b)
  /\ ((forall raw,
          Base64.urlsafe_b64decode (encode token) = Return raw ->
          ~ In Crypto.tilde raw) ->
      Crypto.verify_activation_token secret token = Return false).
Proof.
  unfold Crypto.verify_activation_token, Crypto.verify_body, Crypto.rsplit1.
  destruct (Base64.urlsafe_b64decode (encode token)) as [raw|e].
  - destruct (Crypto.rsplit_last Crypto.tilde raw) as [[p s]|] eqn:E.
    + split; [eexists; reflexivity|].
      intros H. exfalso. apply (H raw eq_refl).
      destruct (CryptoFacts.rsplit_last_some _ _ E) as [-> _].
      apply in_or_app. right. now left.
    + split; [eexists; reflexivity|reflexivity].
  - split; [eexists; reflexivity|reflexivity].
Qed.

Lemma verify_activation_token_total_witness :
  Crypto.verify_activation_token "secret" "" = Return false
  /\ Crypto.verify_activation_token "secret" "AAA" = Return false
  /\ Crypto.verify_activation_token "secret" "bm8gc2VwYXJhdG9y"
     = Return false.
Proof.
  split; [|split].
  - apply (proj2 (verify_activation_token_total "secret" "")).
    intros raw H. vm_compute in H. injection H as <-. intros [].
  - apply (proj2 (verify_activation_token_total "secret" "AAA")).
    intros raw H. vm_compute in H. discriminate.
  - apply (proj2 (verify_activation_token_total "secret"
                    "bm8gc2VwYXJhdG9y")).
    intros raw H. vm_compute in H. injection H as <-.
    cbn. intuition discriminate.
Defined.

(** C9: the token of [sign_activation] is the URL-safe base64
    encoding of the bytes of [license_key|device_id-or-empty|seconds],
    one [~], and the 32 bytes of the HMAC-SHA256 of those payload
    bytes under the secret; it decodes to exactly those bytes, holds
    only characters of the URL-safe alphabet, and both variants of
    [sign_activation] make it with the seconds they read from the
    clock. *)
Theorem sign_activation_wire_format (secret : string) (ts : Z)
        (license_key : string) (device_id : option string)
        (cfg : config) (w : Db.world) (sw : Supabase.world) :
  let payload :=
    encode (license_key ++ "|" ++ Crypto.or_empty device_id ++ "|"
            ++ Crypto.str_of_int ts)%string in
  let sig := Sha256.hmac_sha256 (encode secret) payload in
  let token := Crypto.sign_activation_at secret ts license_key device_id in
  encode token = Base64.urlsafe_b64encode (payload ++ [Crypto.tilde] ++ sig)
  /\ List.length sig = 32%nat
  /\ Base64.urlsafe_b64decode (encode token)
     = Return (payload ++ [Crypto.tilde] ++ sig)
  /\ forallb Base64.urlsafe_alphabet (encode token) = true
  /\ fst (exec (sign_activation cfg license_key device_id) w)
     = Crypto.sign_activation_at (ACTIVATION_SECRET cfg) (reading w 0)
         license_key device_id
  /\ fst (Supabase.exec
            (Supabase.sign_activation cfg license_key device_id) sw)
     = Crypto.sign_activation_at (ACTIVATION_SECRET cfg)
         (SupabaseVocabulary.reading sw 0) license_key device_id.
Proof.
  cbn zeta. unfold Crypto.sign_activation_at, Crypto.payload_of.
  rewrite encode_decode.
  split; [reflexivity|].
  split; [apply CryptoFacts.length_hmac_sha256|].
  split; [apply Base64Facts.urlsafe_b64decode_encode|].
  split; [apply Base64Facts.urlsafe_b64encode_alphabet|].
  split; reflexivity.
Qed.

(** *** Rows and devices *)

(** C3, as stated, fails for the sentinel: two requests that give no
    device id, on a license with five seats, leave two rows whose
    device id is ["unknown"]. *)
Lemma absent_device_rows_pile_up :
  let w := snd (run_all Db.handle [from_device None; from_device None]
                  (world1 5)) in
  rows_of (db w) 1 "unknown" = 2%nat.
Proof. vm_compute. reflexivity. Qed.

(** C3, as amended: a store that holds at most one row for each
    license and each device id other than ["unknown"] still does after
    any sequence of activation requests; and a request that gives a
    device id which holds a row of a license that is found, active and
    passes the expiry test (its expiry is absent, or carries no offset
    and is not before the clock reading) writes the clock reading it
    takes next into that row's [last_seen], changes no other field and
    no other row, and leaves the number of rows as it was. *)
Theorem one_row_per_named_device cfg reqs w :
  (forall lid dev, dev <> "unknown" -> (rows_of (db w) lid dev <= 1)%nat) ->
  (forall lid dev, dev <> "unknown" ->
     (rows_of (db (snd (run_all Db.handle (requests cfg reqs) w))) lid dev
      <= 1)%nat)
  /\ (forall p host w0 k d lic existing,
         license_key p = Some k -> k <> "" -> found w0 k = Some lic ->
         License.active lic = Some true ->
         comparable lic = true ->
         expired_in w0 lic = false ->
         device_id p = Some d -> d <> "" ->
         find (for_device (License.id lic) d) (activations (db w0))
         = Some existing ->
         let w' := snd (exec (activate_license cfg p host) w0) in
         let now := reading w0 (expiry_reads lic) in
         List.length (activations (db w'))
         = List.length (activations (db w0))
         /\ activations (db w')
            = map (fun a =>
                     if Z.eqb (Activation.id a) (Activation.id existing)
                     then Activation.Build (Activation.id a)
                            (Activation.license_id a)
                            (Activation.device_id a)
                            (Activation.device_fingerprint a)
                            (Activation.ip a) now (Activation.created_at a)
                     else a)
                  (activations (db w0))
         /\ In (Activation.Build (Activation.id existing)
                  (Activation.license_id existing)
                  (Activation.device_id existing)
                  (Activation.device_fingerprint existing)
                  (Activation.ip existing) now
                  (Activation.created_at existing))
               (activations (db w'))).
Proof.
  intros Hinv. split.
  - now apply named_device_rows.
  - intros p host w0 k d lic existing Hk Hk' Hf Ha Hc He Hd Hd' Hx.
    destruct (provided Hk Hk') as [Tk Ek].
    destruct (provided Hd Hd') as [Td Ed].
    destruct (@reactivation_run cfg p host w0 lic existing) as
      [_ [_ [Hmap [Hlen Hin]]]].
    + exact Tk.
    + now rewrite Ek.
    + now rewrite Ha.
    + exact Hc.
    + exact He.
    + unfold existing_row. now rewrite Td, Ed.
    + cbn zeta. split; [exact Hlen|]. split; [exact Hmap|exact Hin].
Qed.

Lemma one_row_per_named_device_witness :
  (rows_of
     (db (snd (run_all Db.handle
                 (requests defaults
                    [(body (Some "A"), None); (body None, None);
                     (body (Some "A"), None); (body None, None)])
                 (world1 5))))
     1 "A" <= 1)%nat
  /\ Activation.last_seen row_A = 1700000000%Z
  /\ activations
       (db (snd (exec (activate_license defaults (body (Some "A")) None)
                      saturated)))
     = [Activation.Build 1 1 (Some "A") None None 1700000002 1700000001].
Proof.
  pose proof (@one_row_per_named_device defaults
                [(body (Some "A"), None); (body None, None);
                 (body (Some "A"), None); (body None, None)]
                (world1 5)) as H.
  destruct H as [H1 H2].
  - intros lid dev _. cbn. lia.
  - split; [|split; [reflexivity|]].
    + apply (H1 1%Z "A"). discriminate.
    + destruct (H2 (body (Some "A")) None saturated "LICENSE-1" "A"
                   (license1 1) row_A) as [_ [Hmap _]].
      * reflexivity.
      * discriminate.
      * reflexivity.
      * reflexivity.
      * reflexivity.
      * reflexivity.
      * reflexivity.
      * discriminate.
      * reflexivity.
      * exact Hmap.
Defined.

(** C4, as stated, fails in two places.  A request whose device id is
    the empty string is treated as giving none ([if device_id:]): it is
    not matched with the row that holds the empty id and, the license
    being full, is refused.  And a license whose expiry lies in the
    future but is read back with a UTC offset is answered by
    [TypeError], raised by the expiry test. *)
Lemma reactivation_fails_for_empty_id_or_offset_expiry :
  (found blank_saturated "LICENSE-1" = Some (license1 1)
   /\ License.active (license1 1) = Some true
   /\ License.expires_at (license1 1) = None
   /\ find (for_device 1 "") (activations (db blank_saturated))
      = Some blank_row
   /\ fst (exec (activate_license defaults (body (Some "")) None)
                blank_saturated)
      = Return (Response false LIMIT_REACHED None None))
  /\ (found tz_saturated "LICENSE-1" = Some tz_license
      /\ License.active tz_license = Some true
      /\ License.expires_at tz_license
         = Some (Datetime.Aware 2000000000)
      /\ (reading tz_saturated 0 < 2000000000)%Z
      /\ find (for_device 1 "A") (activations (db tz_saturated))
         = Some row_A
      /\ fst (exec (activate_license defaults (body (Some "A")) None)
                   tz_saturated)
         = Raise TypeError).
Proof.
  split.
  - split; [reflexivity|]. split; [reflexivity|]. split; [reflexivity|].
    split; reflexivity.
  - split; [reflexivity|]. split; [reflexivity|]. split; [reflexivity|].
    split; [reflexivity|]. split; reflexivity.
Qed.

(** C4, as amended: for a license that is found, active and passes the
    expiry test (its expiry is absent, or carries no offset and is not
    before the clock reading), a request that gives a device id, not
    empty, which already holds a row of the license is answered
    [valid = true] with the message [OK] and a token signed at the
    clock reading after the next; the next clock reading is written
    into that row's [last_seen], no other field and no other row
    changes and no row is added, whatever the number of activations and
    the limit. *)
Theorem reactivation_succeeds cfg p host w k d lic existing :
  license_key p = Some k -> k <> "" ->
  found w k = Some lic ->
  License.active lic = Some true ->
  comparable lic = true ->
  expired_in w lic = false ->
  device_id p = Some d -> d <> "" ->
  find (for_device (License.id lic) d) (activations (db w)) = Some existing ->
  let n := expiry_reads lic in
  let now := reading w n in
  let token := Crypto.sign_activation_at (ACTIVATION_SECRET cfg)
                 (reading w (S n)) (License.license_key lic) (Some d) in
  let row := Activation.Build (Activation.id existing)
               (Activation.license_id existing)
               (Activation.device_id existing)
               (Activation.device_fingerprint existing)
               (Activation.ip existing) now
               (Activation.created_at existing) in
  let w' := snd (exec (activate_license cfg p host) w) in
  fst (exec (activate_license cfg p host) w)
  = Return (Response true OK (Some token) (Some (summary_of lic)))
  /\ licenses (db w') = licenses (db w)
  /\ activations (db w')
     = map (fun a =>
              if Z.eqb (Activation.id a) (Activation.id existing)
              then Activation.Build (Activation.id a)
                     (Activation.license_id a) (Activation.device_id a)
                     (Activation.device_fingerprint a) (Activation.ip a)
                     now (Activation.created_at a)
              else a)
           (activations (db w))
  /\ List.length (activations (db w')) = List.length (activations (db w))
  /\ In row (activations (db w'))
  /\ Activation.last_seen row = now.
Proof.
  intros Hk Hk' Hf Ha Hc He Hd Hd' Hx.
  destruct (provided Hk Hk') as [Tk Ek].
  destruct (provided Hd Hd') as [Td Ed].
  destruct (@reactivation_run cfg p host w lic existing)
    as [H1 [H2 [H3 [H4 H5]]]].
  - exact Tk.
  - now rewrite Ek.
  - now rewrite Ha.
  - exact Hc.
  - exact He.
  - unfold existing_row. now rewrite Td, Ed.
  - rewrite Hd in H1. cbn zeta.
    split; [exact H1|]. split; [exact H2|]. split; [exact H3|].
    split; [exact H4|]. split; [exact H5|reflexivity].
Qed.

Lemma reactivation_succeeds_witness :
  let run := exec (activate_license defaults (body (Some "A")) None)
                  saturated in
  activation_count (db saturated) 1 = 1%Z
  /\ License.max_activations (license1 1) = Some 1%Z
  /\ activations (db saturated)
     = [Activation.Build 1 1 (Some "A") None None 1700000000 1700000001]
  /\ (exists token,
         fst run = Return (Response true OK (Some token)
                             (Some (summary_of (license1 1)))))
  /\ activations (db (snd run))
     = [Activation.Build 1 1 (Some "A") None None 1700000002 1700000001].
Proof.
  cbn zeta. split; [reflexivity|]. split; [reflexivity|].
  split; [reflexivity|].
  destruct (@reactivation_succeeds defaults (body (Some "A")) None
              saturated "LICENSE-1" "A" (license1 1) row_A)
    as [H1 [_ [H3 _]]].
  - reflexivity.
  - discriminate.
  - reflexivity.
  - reflexivity.
  - reflexivity.
  - reflexivity.
  - reflexivity.
  - discriminate.
  - reflexivity.
  - split; [eexists; exact H1|exact H3].
Defined.

(** C5: when the request finds the license valid (it is found, active,
    and the expiry test passes: the expiry is absent, or carries no
    offset and is not before the clock reading), a request from a
    device without a row (or without a device id), when
    [max_activations > 0] and the number of activations has reached
    it, is answered [valid = false] with the message of
    [LIMIT_REACHED], and the database is left exactly as it was. *)
Theorem limit_reached_refuses cfg p host w k lic n :
  license_key p = Some k -> k <> "" ->
  found w k = Some lic ->
  License.active lic = Some true ->
  comparable lic = true ->
  expired_in w lic = false ->
  (forall d, device_id p = Some d ->
             find (for_device (License.id lic) d) (activations (db w))
             = None) ->
  License.max_activations lic = Some n ->
  (0 < n)%Z ->
  (n <= activation_count (db w) (License.id lic))%Z ->
  fst (exec (activate_license cfg p host) w)
  = Return (Response false LIMIT_REACHED None None)
  /\ db (snd (exec (activate_license cfg p host) w)) = db w.
Proof.
  intros Hk Hk' Hf Ha Hcmp He Hx Hm Hn Hc.
  destruct (provided Hk Hk') as [Tk Ek].
  apply (@limit_run cfg p host w lic n); try assumption.
  - now rewrite Ek.
  - now rewrite Ha.
  - now apply no_row_yet.
Qed.

Lemma limit_reached_refuses_witness :
  let run := exec (activate_license defaults (body (Some "B")) None)
                  saturated in
  fst run = Return (Response false "Activation limit reached" None None)
  /\ db (snd run) = db saturated.
Proof.
  apply (@limit_reached_refuses defaults (body (Some "B")) None
           saturated "LICENSE-1" (license1 1) 1%Z).
  - reflexivity.
  - discriminate.
  - reflexivity.
  - reflexivity.
  - reflexivity.
  - reflexivity.
  - intros d H. injection H as <-. reflexivity.
  - reflexivity.
  - lia.
  - vm_compute. discriminate.
Defined.

(** C6: a request for a license whose [active] flag is false is
    answered [valid = false] with the message of [DISABLED], whatever
    its expiry and its activations; nothing is read after the flag
    (the relational handler leaves the world as it was, clock
    included) and nothing is written, in both variants. *)
Theorem disabled_license_refused cfg fromiso iso p host w k lic
        req sw slic :
  license_key p = Some k -> k <> "" ->
  found w k = Some lic ->
  License.active lic = Some false ->
  Supabase.reachable sw (Supabase.calls sw) = true ->
  SupabaseVocabulary.found sw (Supabase.license_key req) = Some slic ->
  Supabase.l_active slic = Some false ->
  exec (activate_license cfg p host) w
  = (Return (Response false DISABLED None None), w)
  /\ fst (Supabase.exec (Supabase.api_check cfg fromiso iso req) sw)
     = Return (Supabase.CheckResponse false DISABLED None None)
  /\ Supabase.store (snd (Supabase.exec
                            (Supabase.api_check cfg fromiso iso req) sw))
     = Supabase.store sw.
Proof.
  intros Hk Hk' Hf Ha Hup Hsf Hsa.
  destruct (provided Hk Hk') as [Tk Ek]. split.
  - apply disabled_run with (lic := lic); try assumption.
    now rewrite Ek.
  - unfold SupabaseVocabulary.found in Hsf.
    unfold Supabase.exec, Supabase.api_check,
      Supabase.supabase_get_license_row.
    cbn. rewrite Hup. cbn. rewrite Hsf. cbn. rewrite Hsa. cbn.
    split; reflexivity.
Qed.

Lemma disabled_license_refused_witness :
  exec (activate_license defaults (body (Some "A")) None) revoked
  = (Return (Response false "License disabled" None None), revoked)
  /\ fst (Supabase.exec
            (Supabase.api_check defaults fromisoformat isoformat
               (check (Some "A")))
            (remote1 1 false))
     = Return (Supabase.CheckResponse false "License disabled" None None)
  /\ Supabase.store
       (snd (Supabase.exec
               (Supabase.api_check defaults fromisoformat isoformat
                  (check (Some "A")))
               (remote1 1 false)))
     = Supabase.store (remote1 1 false).
Proof.
  apply (@disabled_license_refused defaults fromisoformat isoformat
           (body (Some "A")) None revoked "LICENSE-1" revoked_license
           (check (Some "A")) (remote1 1 false) (remote_license 1 false)).
  - reflexivity.
  - discriminate.
  - reflexivity.
  - reflexivity.
  - reflexivity.
  - reflexivity.
  - reflexivity.
Defined.

(** C10: with a negative [max_activations] the test
    [max_act > 0 and count >= max_act] is false for every count, as it
    is for 0, so a request that reaches the quota check (the license is
    found, active and passes the expiry test, and the device holds no
    row) is admitted and its row inserted, in both variants. *)
Theorem negative_limit_is_unlimited cfg fromiso iso p host w k lic n
        req sw slic :
  (n < 0)%Z ->
  license_key p = Some k -> k <> "" ->
  found w k = Some lic ->
  License.max_activations lic = Some n ->
  License.active lic = Some true ->
  comparable lic = true ->
  expired_in w lic = false ->
  (forall d, device_id p = Some d ->
             find (for_device (License.id lic) d) (activations (db w))
             = None) ->
  SupabaseVocabulary.answered sw 3 ->
  SupabaseVocabulary.found sw (Supabase.license_key req) = Some slic ->
  Supabase.l_max_activations slic = Some n ->
  Supabase.l_active slic = Some true ->
  SupabaseVocabulary.expired_in fromiso sw slic = false ->
  SupabaseVocabulary.existing_row sw slic (Supabase.device_id req) = None ->
  (forall count, limit_reached n count = false
                 /\ limit_reached n count = limit_reached 0 count)
  /\ (exists token row,
         fst (exec (activate_license cfg p host) w)
         = Return (Response true ACTIVATED (Some token)
                     (Some (summary_of lic)))
         /\ activations (db (snd (exec (activate_license cfg p host) w)))
            = activations (db w) ++ [row]
         /\ Activation.license_id row = License.id lic)
  /\ (exists token row,
         fst (Supabase.exec (Supabase.api_check cfg fromiso iso req) sw)
         = Return (Supabase.accept ACTIVATED token slic)
         /\ Supabase.activations
              (Supabase.store
                 (snd (Supabase.exec
                         (Supabase.api_check cfg fromiso iso req) sw)))
            = Supabase.activations (Supabase.store sw) ++ [row]
         /\ Supabase.a_license_id row = Supabase.l_id slic).
Proof.
  intros Hn Hk Hk' Hf Hm Ha Hcmp He Hx Hup Hsf Hsm Hsa Hse Hsx.
  destruct (provided Hk Hk') as [Tk Ek].
  assert (Hlim : forall count, limit_reached n count = false)
    by (intros count; apply limit_reached_negative; lia).
  split; [|split].
  - intros count. split; [apply Hlim|].
    rewrite Hlim. symmetry. apply limit_reached_negative. lia.
  - apply (@unlimited_run cfg p host w lic n); try assumption.
    + lia.
    + now rewrite Ek.
    + now rewrite Ha.
    + now apply no_row_yet.
  - unfold SupabaseVocabulary.found, SupabaseVocabulary.existing_row,
      SupabaseVocabulary.expired_in, SupabaseVocabulary.rows_for,
      SupabaseVocabulary.reading in *.
    pose proof (Hup 0%nat ltac:(lia)) as U0.
    pose proof (Hup 1%nat ltac:(lia)) as U1.
    pose proof (Hup 2%nat ltac:(lia)) as U2.
    cbn in U0, U1, U2.
    unfold Supabase.exec, Supabase.api_check,
      Supabase.supabase_get_license_row,
      Supabase.supabase_get_activations_for_license,
      Supabase.supabase_create_activation_row,
      Supabase.is_expired, Supabase.sign_activation.
    cbn. rewrite U0. cbn. rewrite Hsf. cbn. rewrite Hsa. cbn.
    destruct (truthy_str (Supabase.l_expires_at slic)); cbn;
      [destruct (fromiso _); cbn in Hse |- *; rewrite ?Hse; cbn|];
      rewrite U1; cbn; rewrite Hsx; cbn; rewrite Hsm; cbn;
      rewrite Hlim; cbn; rewrite U2; cbn;
      eexists _, _; (split; [reflexivity|]); split; reflexivity.
Qed.

Lemma negative_limit_is_unlimited_witness :
  limit_reached (-1) 1000 = false
  /\ (exists token row,
         fst (exec (activate_license defaults (body (Some "A")) None)
                   (world1 (-1)))
         = Return (Response true "Activated" (Some token)
                     (Some (summary_of (license1 (-1)))))
         /\ activations
              (db (snd (exec (activate_license defaults (body (Some "A"))
                                None)
                             (world1 (-1)))))
            = [row])
  /\ (exists token row,
         fst (Supabase.exec
                (Supabase.api_check defaults fromisoformat isoformat
                   (check (Some "A")))
                (remote1 (-1) true))
         = Return (Supabase.accept "Activated" token
                     (remote_license (-1) true))
         /\ Supabase.activations
              (Supabase.store
                 (snd (Supabase.exec
                         (Supabase.api_check defaults fromisoformat
                            isoformat (check (Some "A")))
                         (remote1 (-1) true))))
            = [row]).
Proof.
  destruct (@negative_limit_is_unlimited defaults fromisoformat isoformat
              (body (Some "A")) None (world1 (-1)) "LICENSE-1"
              (license1 (-1)) (-1)%Z
              (check (Some "A")) (remote1 (-1) true)
              (remote_license (-1) true))
    as [H1 [[t [r [H2 [H2' _]]]] [t' [r' [H3 [H3' _]]]]]].
  - lia.
  - reflexivity.
  - discriminate.
  - reflexivity.
  - reflexivity.
  - reflexivity.
  - reflexivity.
  - reflexivity.
  - intros d _. reflexivity.
  - intros i _. reflexivity.
  - reflexivity.
  - reflexivity.
  - reflexivity.
  - reflexivity.
  - reflexivity.
  - split; [apply H1|]. split.
    + exists t, r. split; [exact H2|exact H2'].
    + exists t', r'. split; [exact H3|exact H3'].
Defined.

(** *** Admin operations *)

(** C8, as stated, fails in the Supabase variant: the plan ["weekly"]
    is none of the four, and [admin_create_license] answers it with a
    created license that never expires. *)
Lemma unknown_plan_accepted_by_supabase_variant :
  let run := Supabase.exec
               (Supabase.admin_create_license defaults isoformat
                  "owner" "pro" "weekly" 1 (Some "CHANGE_ME_ADMIN_TOKEN"))
               remote in
  ~ PlanTable.known_plan "weekly"
  /\ fst run
     = Return (Supabase.Created (Some "generated-key-0") "owner" None)
  /\ List.length (Supabase.licenses (Supabase.store (snd run))) = 1%nat.
Proof.
  split.
  - unfold PlanTable.known_plan. intros [H|[H|[H|H]]]; discriminate.
  - vm_compute. split; reflexivity.
Qed.

Lemma unknown_plan_eqb (dp : string) :
  ~ PlanTable.known_plan dp ->
  String.eqb dp "1month" = false /\ String.eqb dp "3months" = false
  /\ String.eqb dp "6months" = false /\ String.eqb dp "lifetime" = false.
Proof.
  intros H. unfold PlanTable.known_plan in H.
  repeat split; apply String.eqb_neq; intros E; apply H; auto.
Qed.

(** C8, as amended: for an authorized caller, the plans [lifetime],
    [1month], [3months], [6months] give a license whose expiry is
    absent, now + 30 days, now + 90 days, now + 180 days: in the admin
    route and the command-line tool when no license has the generated
    key yet and [max_activations] is an integer the database holds (the
    expiry is then stored as the database reads a datetime back), and
    in the Supabase variant.  Any other plan makes the admin route fail
    with status 400 and the command-line tool with [ValueError],
    neither creating a license, while the Supabase variant creates a
    license without expiry. *)
Theorem create_license_plans cfg iso owner plan dp max w sw :
  SupabaseVocabulary.answered sw 1 ->
  let token := Some (ADMIN_TOKEN cfg) in
  let key := Db.entropy w (draws w) in
  let expiry :=
    option_map (Dialect.stamp (dialect w))
      (PlanTable.plan_expiry dp (reading w 0)) in
  let sexpiry :=
    option_map iso
      (PlanTable.plan_expiry dp (SupabaseVocabulary.reading sw 0)) in
  let ra := exec (Admin.create_license cfg owner dp max token) w in
  let rc := exec (Cli.create_license owner plan dp max) w in
  let rs := Supabase.exec
              (Supabase.admin_create_license cfg iso owner plan dp max token)
              sw in
  (PlanTable.known_plan dp ->
     (found w key = None ->
      Dialect.fits (dialect w) (Some max) = true ->
      (exists row,
          fst ra = Return (Admin.Created key expiry (Some max))
          /\ licenses (db (snd ra)) = licenses (db w) ++ [row]
          /\ License.license_key row = key
          /\ License.expires_at row = expiry)
      /\ (exists row,
             fst rc = Return tt
             /\ licenses (db (snd rc)) = licenses (db w) ++ [row]
             /\ License.license_key row = key
             /\ License.expires_at row = expiry))
     /\ (exists row,
            fst rs = Return (Supabase.Created
                               (Some (Supabase.entropy sw (Supabase.draws sw)))
                               owner sexpiry)
            /\ Supabase.licenses (Supabase.store (snd rs))
               = Supabase.licenses (Supabase.store sw) ++ [row]
            /\ Supabase.l_expires_at row = sexpiry))
  /\ (~ PlanTable.known_plan dp ->
        fst ra = Raise (HTTPException 400 "Unknown duration_plan")
        /\ db (snd ra) = db w
        /\ fst rc = Raise ValueError
        /\ db (snd rc) = db w
        /\ (exists row,
               fst rs = Return (Supabase.Created
                                  (Some (Supabase.entropy sw
                                           (Supabase.draws sw)))
                                  owner None)
               /\ Supabase.licenses (Supabase.store (snd rs))
                  = Supabase.licenses (Supabase.store sw) ++ [row]
               /\ Supabase.l_expires_at row = None)).
Proof.
  intros Hup. pose proof (Hup 0%nat ltac:(lia)) as U0. cbn in U0.
  cbn zeta.
  unfold found, exec, Supabase.exec, Admin.create_license,
    Cli.create_license,
    Supabase.admin_create_license, Admin.verify_admin,
    Admin.compute_expiry, Supabase.compute_expiry,
    Admin.generate_license_key, Supabase.supabase_create_license_row,
    PlanTable.plan_expiry, PlanTable.plan_days,
    reading, SupabaseVocabulary.reading.
  rewrite opt_str_eqb_refl.
  split.
  - intros Hkp. split.
    + intros Hfresh Hfit. apply find_none_existsb in Hfresh.
      destruct Hkp as [-> | [-> | [-> | ->]]]; cbn;
        rewrite Hfit; cbn; rewrite Hfresh; cbn;
        (split; eexists;
         (split; [reflexivity|]); (split; [reflexivity|]);
         split; reflexivity).
    + destruct Hkp as [-> | [-> | [-> | ->]]]; cbn; rewrite U0; cbn;
        eexists; (split; [reflexivity|]); split; reflexivity.
  - intros Hun. destruct (unknown_plan_eqb Hun) as [E1 [E3 [E6 El]]].
    rewrite E1, E3, E6, El. cbn. rewrite U0. cbn.
    split; [reflexivity|]. split; [reflexivity|].
    split; [reflexivity|]. split; [reflexivity|].
    eexists. split; [reflexivity|]. split; reflexivity.
Qed.

Lemma create_license_plans_witness :
  (exists row,
      fst (exec (Admin.create_license defaults "owner" "1month" 1
                   (Some "CHANGE_ME_ADMIN_TOKEN"))
                (world1 1))
      = Return (Admin.Created "generated-key-0"
                  (Some (Datetime.Naive (1700000000 + days 30)))
                  (Some 1%Z))
      /\ License.expires_at row
         = Some (Datetime.Naive (1700000000 + days 30)))
  /\ fst (exec (Admin.create_license defaults "owner" "weekly" 1
                  (Some "CHANGE_ME_ADMIN_TOKEN"))
               (world1 1))
     = Raise (HTTPException 400 "Unknown duration_plan").
Proof.
  split.
  - destruct (proj1 (@create_license_plans defaults isoformat "owner" "pro"
                       "1month" 1%Z (world1 1) remote
                       (fun i _ => eq_refl))
                (or_intror (or_introl eq_refl)))
      as [H _].
    destruct (H eq_refl eq_refl) as [[row [H1 [_ [_ H3]]]] _].
    exists row. split; [exact H1|exact H3].
  - destruct (proj2 (@create_license_plans defaults isoformat "owner" "pro"
                       "weekly" 1%Z (world1 1) remote
                       (fun i _ => eq_refl))) as [H _].
    + unfold PlanTable.known_plan. intros [H|[H|[H|H]]]; discriminate.
    + exact H.
Defined.

End Claims.

(* ================================================================== *)
(** ** Further properties of the code *)

Lemma Return_inj (A : Type) (a b : A) : Return a = Return b -> a = b.
Proof. intros H. injection H as H. exact H. Qed.

Module CodecExtras.

Import Crypto CryptoFacts Lenient.
Local Open Scope string_scope.
Local Open Scope list_scope.

(** X1: a token made by [sign_activation] is accepted by
    [verify_activation_token] under the same secret exactly when the 32
    signature bytes hold no [~]. *)
Theorem verify_accepts_signed_iff (secret : string) (ts : Z)
        (license_key : string) (device_id : option string) :
  verify_activation_token secret
    (sign_activation_at secret ts license_key device_id) = Return true
  <-> ~ In tilde (Sha256.hmac_sha256 (encode secret)
                    (encode (payload_of license_key device_id ts))).
Proof.
  rewrite verify_signed.
  generalize (Sha256.hmac_sha256 (encode secret)
                (encode (payload_of license_key device_id ts))).
  intros sig. split.
  - intros H Hin. apply existsb_In in Hin.
    rewrite Hin in H. cbn [negb] in H. discriminate H.
  - intros H. destruct (existsb (byte_eqb tilde) sig) eqn:E.
    + exfalso. apply H. apply existsb_In. exact E.
    + reflexivity.
Qed.

Lemma verify_accepts_signed_iff_witness :
  verify_activation_token "CHANGE_ME_ACTIVATION_SECRET"
    (sign_activation_at "CHANGE_ME_ACTIVATION_SECRET" 0 "K" (Some "A"))
  = Return true.
Proof.
  apply (proj2 (verify_accepts_signed_iff "CHANGE_ME_ACTIVATION_SECRET" 0
                  "K" (Some "A"))).
  intros H. apply existsb_In in H. vm_compute in H. discriminate H.
Defined.

(** X2: a token that [verify_activation_token] accepts decodes to a
    payload, one [~] and a signature that is the HMAC-SHA256 of that
    payload under the secret, holds no [~] itself and is 32 bytes long. *)
Theorem verified_token_is_signed (secret token : string) :
  verify_activation_token secret token = Return true ->
  exists payload sig,
    Base64.urlsafe_b64decode (encode token)
    = Return (payload ++ [tilde] ++ sig)
    /\ sig = Sha256.hmac_sha256 (encode secret) payload
    /\ ~ In tilde sig
    /\ List.length sig = 32%nat.
Proof.
  unfold verify_activation_token, verify_body, rsplit1.
  destruct (Base64.urlsafe_b64decode (encode token)) as [raw|e];
    [|discriminate].
  destruct (rsplit_last tilde raw) as [[p s]|] eqn:E; [|discriminate].
  intros H. apply Return_inj in H. apply bytes_eqb_true in H.
  destruct (rsplit_last_some _ _ E) as [-> Hn].
  exists p, s. split; [reflexivity|].
  split; [symmetry; exact H|]. split; [exact Hn|].
  rewrite <- H. apply length_hmac_sha256.
Qed.

Lemma verified_token_is_signed_witness :
  exists payload sig,
    Base64.urlsafe_b64decode
      (encode (sign_activation_at "CHANGE_ME_ACTIVATION_SECRET" 0 "K"
                 (Some "A")))
    = Return (payload ++ [tilde] ++ sig)
    /\ sig = Sha256.hmac_sha256 (encode "CHANGE_ME_ACTIVATION_SECRET") payload
    /\ ~ In tilde sig
    /\ List.length sig = 32%nat.
Proof.
  apply (@verified_token_is_signed "CHANGE_ME_ACTIVATION_SECRET"
           (sign_activation_at "CHANGE_ME_ACTIVATION_SECRET" 0 "K"
              (Some "A"))).
  vm_compute. reflexivity.
Defined.

Lemma a2b_loop_skips (c : byte) (l1 l2 : bytes) :
  skipped c = true ->
  forall quad_pos leftchar pads acc,
    Base64.a2b_loop
      (map Base64.urlsafe_decode_translation (l1 ++ c :: l2))
      quad_pos leftchar pads acc
    = Base64.a2b_loop
        (map Base64.urlsafe_decode_translation (l1 ++ l2))
        quad_pos leftchar pads acc.
Proof.
  intros Hc. unfold skipped in Hc. apply andb_true_iff in Hc.
  destruct Hc as [Hp Ha]. apply negb_true_iff in Hp.
  induction l1 as [|x l1 IH]; intros quad_pos leftchar pads acc.
  - cbn [app map Base64.a2b_loop]. rewrite Hp.
    destruct (Base64.a2b (Base64.urlsafe_decode_translation c));
      [discriminate|reflexivity].
  - cbn [app map Base64.a2b_loop].
    destruct (byte_eqb (Base64.urlsafe_decode_translation x) Base64.pad_char).
    + destruct (2 <=? quad_pos)%Z; [|apply IH].
      destruct (4 <=? quad_pos + (pads + 1))%Z; [reflexivity|apply IH].
    + destruct (Base64.a2b (Base64.urlsafe_decode_translation x));
        [|apply IH].
      destruct (quad_pos =? 0)%Z; [apply IH|].
      destruct (quad_pos =? 1)%Z; [apply IH|].
      destruct (quad_pos =? 2)%Z; apply IH.
Qed.

Lemma encode_app (a b : string) : encode (a ++ b) = encode a ++ encode b.
Proof.
  unfold encode, list_byte_of_string.
  induction a as [|c a IH]; cbn; [reflexivity|].
  now rewrite IH.
Qed.

(** X3: the answer of [verify_activation_token] does not change when a
    character the base64 decoder skips (one outside the alphabet, not
    [=]) is inserted anywhere in the token. *)
Theorem verify_ignores_skipped_characters (secret : string)
        (before after : string) (c : ascii) :
  skipped (byte_of_ascii c) = true ->
  verify_activation_token secret (before ++ String c after)
  = verify_activation_token secret (before ++ after).
Proof.
  intros Hc. unfold verify_activation_token, verify_body.
  rewrite !encode_app.
  change (encode (String c after)) with (byte_of_ascii c :: encode after).
  unfold Base64.urlsafe_b64decode, Base64.b64decode.
  rewrite (a2b_loop_skips _ (encode before) (encode after) Hc).
  reflexivity.
Qed.

Lemma verify_ignores_skipped_characters_witness :
  let token := sign_activation_at "CHANGE_ME_ACTIVATION_SECRET" 0 "K"
                 (Some "A") in
  verify_activation_token "CHANGE_ME_ACTIVATION_SECRET"
    (substring 0 10 token ++ String " " (substring 10 100 token))
  = verify_activation_token "CHANGE_ME_ACTIVATION_SECRET"
      (substring 0 10 token ++ substring 10 100 token).
Proof.
  cbn zeta.
  apply (@verify_ignores_skipped_characters "CHANGE_ME_ACTIVATION_SECRET").
  vm_compute. reflexivity.
Defined.

Lemma string_append_assoc (a b c : string) :
  (a ++ (b ++ c))%string = ((a ++ b) ++ c)%string.
Proof.
  induction a as [|x a IH]; cbn [String.append]; [reflexivity|].
  now rewrite IH.
Qed.

(** X4: the fields of the payload are joined without escaping: a [|]
    may move between the license key and the device id without changing
    the token, and an absent device id gives the token of an empty one. *)
Theorem token_fields_run_together (secret : string) (ts : Z)
        (license_key d1 d2 : string) :
  sign_activation_at secret ts (license_key ++ "|" ++ d1)%string (Some d2)
  = sign_activation_at secret ts license_key
      (Some (d1 ++ "|" ++ d2)%string)
  /\ sign_activation_at secret ts license_key None
     = sign_activation_at secret ts license_key (Some "").
Proof.
  assert (E : payload_of (license_key ++ "|" ++ d1)%string (Some d2) ts
              = payload_of license_key (Some (d1 ++ "|" ++ d2)%string) ts).
  { unfold payload_of, or_empty.
    rewrite <- !string_append_assoc. reflexivity. }
  assert (E0 : payload_of license_key None ts
               = payload_of license_key (Some "") ts) by reflexivity.
  unfold sign_activation_at. rewrite E, E0. split; reflexivity.
Qed.

End CodecExtras.

Lemma find_snoc_none (A : Type) (f : A -> bool) (l : list A) (a : A) :
  find f l = None -> find f (l ++ [a]) = if f a then Some a else None.
Proof.
  induction l as [|x l IH]; cbn; [reflexivity|].
  destruct (f x); [discriminate|exact IH].
Qed.

Module EngineExtras.

Import Db Licenses Vocabulary EngineFacts ExtraVocabulary.
Local Open Scope string_scope.
Local Open Scope list_scope.

Lemma admit_run cfg p host w lic :
  truthy_str (license_key p) = true ->
  found w (Crypto.or_empty (license_key p)) = Some lic ->
  truthy_bool (License.active lic) = true ->
  comparable lic = true ->
  expired_in w lic = false ->
  existing_row w lic (device_id p) = None ->
  limit_reached (int_or_0 (License.max_activations lic))
    (activation_count (db w) (License.id lic)) = false ->
  exec (activate_license cfg p host) w
  = (Return (accept ACTIVATED
               (Crypto.sign_activation_at (ACTIVATION_SECRET cfg)
                  (reading w (S (expiry_reads lic)))
                  (License.license_key lic) (device_id p))
               lic),
     admitted_world w lic p host).
Proof.
  unfold admitted_world.
  unfold found, existing_row, comparable, expired_in, expiry_reads, reading.
  intros Hk Hf Ha Hc He Hx Hl.
  unfold exec, activate_license, is_expired, sign_activation.
  rewrite Hk. cbn. rewrite Hf, Ha. cbn.
  destruct (License.expires_at lic) as [[e|e]|]; cbn in He, Hc |- *;
    try discriminate Hc;
    rewrite ?He; cbn;
    (destruct (truthy_str (device_id p)); cbn;
     rewrite ?Hx; cbn; rewrite Hl; cbn; reflexivity).
Qed.

Lemma messages_differ :
  NOT_FOUND <> ACTIVATED /\ DISABLED <> ACTIVATED /\ EXPIRED <> ACTIVATED
  /\ LIMIT_REACHED <> ACTIVATED /\ OK <> ACTIVATED
  /\ NOT_FOUND <> EXPIRED /\ DISABLED <> EXPIRED /\ LIMIT_REACHED <> EXPIRED
  /\ OK <> EXPIRED /\ ACTIVATED <> EXPIRED.
Proof. repeat split; discriminate. Qed.

(** A positive answer with the message of a new activation comes from
    the admitting path. *)
Lemma admit_inversion cfg p host w lic r :
  truthy_str (license_key p) = true ->
  found w (Crypto.or_empty (license_key p)) = Some lic ->
  fst (exec (activate_license cfg p host) w) = Return r ->
  message r = ACTIVATED ->
  truthy_bool (License.active lic) = true
  /\ comparable lic = true
  /\ expired_in w lic = false
  /\ existing_row w lic (device_id p) = None
  /\ limit_reached (int_or_0 (License.max_activations lic))
       (activation_count (db w) (License.id lic)) = false.
Proof.
  destruct messages_differ as [M1 [M2 [M3 [M4 [M5 _]]]]].
  unfold found, existing_row, comparable, expired_in, reading.
  intros Hk Hf.
  unfold exec, activate_license, is_expired, sign_activation.
  rewrite Hk. cbn. rewrite Hf. cbn.
  destruct (truthy_bool (License.active lic)); cbn;
    [|intros H Hm; apply Return_inj in H; subst r; now elim M2].
  destruct (License.expires_at lic) as [[e|e]|]; cbn;
    [destruct (Z.ltb e (clock w (ticks w))); cbn;
     [intros H Hm; apply Return_inj in H; subst r; now elim M3|]
    | intros H; discriminate H | ];
    (destruct (truthy_str (device_id p)); cbn;
     [destruct (find _ (activations (db w))) as [ex|]; cbn;
      [intros H Hm; apply Return_inj in H; subst r; now elim M5|] | ];
     (destruct (limit_reached _ _); cbn;
      [intros H Hm; apply Return_inj in H; subst r; now elim M4|];
      intros _ _; repeat split; reflexivity)).
Qed.

(** X5: a request whose license key is absent or empty is rejected with
    status 400, and a request for a key no license has is answered
    [License not found]; in both cases the world is left as it was. *)
Theorem missing_or_unknown_key_is_refused cfg p host w :
  (truthy_str (license_key p) = false ->
   exec (activate_license cfg p host) w
   = (Raise (HTTPException 400 "license_key required"), w))
  /\ (forall k, license_key p = Some k -> k <> "" -> found w k = None ->
      exec (activate_license cfg p host) w
      = (Return (Response false NOT_FOUND None None), w)).
Proof.
  split.
  - intros Hk. unfold exec, activate_license. rewrite Hk. reflexivity.
  - intros k Hk Hk' Hf. destruct (provided Hk Hk') as [Tk Ek].
    unfold found in Hf. unfold exec, activate_license.
    rewrite Tk, Ek. cbn. rewrite Hf. reflexivity.
Qed.

Lemma missing_or_unknown_key_is_refused_witness :
  exec (activate_license Scenario.defaults (Payload (Some "") (Some "A") None)
          None) (Scenario.world1 1)
  = (Raise (HTTPException 400 "license_key required"), Scenario.world1 1)
  /\ exec (activate_license Scenario.defaults
             (Payload (Some "NO-SUCH-KEY") (Some "A") None) None)
          (Scenario.world1 1)
     = (Return (Response false "License not found" None None),
        Scenario.world1 1).
Proof.
  split.
  - apply (proj1 (missing_or_unknown_key_is_refused Scenario.defaults
                    (Payload (Some "") (Some "A") None) None
                    (Scenario.world1 1))).
    reflexivity.
  - apply (proj2 (missing_or_unknown_key_is_refused Scenario.defaults
                    (Payload (Some "NO-SUCH-KEY") (Some "A") None) None
                    (Scenario.world1 1)) "NO-SUCH-KEY").
    + reflexivity.
    + discriminate.
    + reflexivity.
Defined.

(** X6: the expiry test, made on an active license before the device
    and the rows are looked at.  An expiry that carries no offset is
    compared strictly: before the clock reading, the request is refused
    as expired with the database unchanged; at the reading itself or
    later, the request is answered and not with [License expired].  An
    expiry that carries an offset, whatever its time, makes the request
    raise [TypeError], with the database unchanged. *)
Theorem expiry_is_strict cfg p host w k lic :
  license_key p = Some k -> k <> "" ->
  found w k = Some lic ->
  License.active lic = Some true ->
  let run := exec (activate_license cfg p host) w in
  (forall e, License.expires_at lic = Some (Datetime.Naive e) ->
     ((e < reading w 0)%Z ->
      fst run = Return (Response false EXPIRED None None)
      /\ db (snd run) = db w)
     /\ ((reading w 0 <= e)%Z ->
         exists r, fst run = Return r /\ message r <> EXPIRED))
  /\ (forall e, License.expires_at lic = Some (Datetime.Aware e) ->
        fst run = Raise TypeError /\ db (snd run) = db w).
Proof.
  intros Hk Hk' Hf Ha. destruct (provided Hk Hk') as [Tk Ek].
  destruct messages_differ as [_ [_ [_ [_ [_ [_ [_ [M3 [M4 M5]]]]]]]]].
  unfold found, reading in *. cbn zeta.
  unfold exec, activate_license, is_expired, sign_activation.
  rewrite Tk, Ek. cbn. rewrite Hf, Ha. cbn.
  split.
  - intros e He. rewrite He. cbn. split.
    + intros Hlt. apply Z.ltb_lt in Hlt. rewrite Hlt. cbn.
      split; reflexivity.
    + intros Hle. apply Z.ltb_ge in Hle. rewrite Hle. cbn.
      destruct (truthy_str (device_id p)); cbn;
        [destruct (find _ (activations (db w))) as [ex|]; cbn;
         [eexists; split; [reflexivity|exact M4]|] | ];
        (destruct (limit_reached _ _); cbn;
         eexists; (split; [reflexivity|assumption])).
  - intros e He. rewrite He. cbn. split; reflexivity.
Qed.

Lemma expiry_is_strict_witness :
  fst (exec (activate_license Scenario.defaults (Scenario.body (Some "A"))
               None) (Scenario2.world2 1699999999))
  = Return (Response false "License expired" None None)
  /\ (exists r,
         fst (exec (activate_license Scenario.defaults
                      (Scenario.body (Some "A")) None)
                   (Scenario2.world2 1700000000)) = Return r
         /\ message r <> "License expired")
  /\ fst (exec (activate_license Scenario.defaults (Scenario.body (Some "A"))
                  None) Scenario.tz_saturated)
     = Raise TypeError.
Proof.
  split; [|split].
  - apply (proj1 (proj1 (@expiry_is_strict Scenario.defaults
                           (Scenario.body (Some "A")) None
                           (Scenario2.world2 1699999999) "LICENSE-1"
                           (Scenario2.license2 1699999999)
                           eq_refl ltac:(discriminate) eq_refl eq_refl)
                    1699999999%Z eq_refl)).
    vm_compute. reflexivity.
  - apply (proj2 (proj1 (@expiry_is_strict Scenario.defaults
                           (Scenario.body (Some "A")) None
                           (Scenario2.world2 1700000000) "LICENSE-1"
                           (Scenario2.license2 1700000000)
                           eq_refl ltac:(discriminate) eq_refl eq_refl)
                    1700000000%Z eq_refl)).
    vm_compute. discriminate.
  - apply (proj2 (@expiry_is_strict Scenario.defaults
                    (Scenario.body (Some "A")) None
                    Scenario.tz_saturated "LICENSE-1"
                    Scenario.tz_license
                    eq_refl ltac:(discriminate) eq_refl eq_refl)
             2000000000%Z eq_refl).
Defined.

(** X7: every answer of [activate_license] is one of four kinds: the
    status 400 with the world unchanged; [TypeError], for a license
    that is found with an expiry that carries an offset, with the
    database unchanged; a refusal with neither token nor license
    summary and the database unchanged; or a positive answer with a
    token, the license summary and the message [OK] or [Activated]. *)
Theorem refusals_leave_no_trace cfg p host w :
  let w' := snd (exec (activate_license cfg p host) w) in
  match fst (exec (activate_license cfg p host) w) with
  | Raise e =>
      (e = HTTPException 400 "license_key required" /\ w' = w)
      \/ (e = TypeError /\ db w' = db w
          /\ exists lic t,
               found w (Crypto.or_empty (license_key p)) = Some lic
               /\ License.expires_at lic = Some (Datetime.Aware t))
  | Return r =>
      if valid r
      then (exists token lic,
               activation_token r = Some token
               /\ license r = Some (summary_of lic)
               /\ (message r = OK \/ message r = ACTIVATED))
      else activation_token r = None /\ license r = None /\ db w' = db w
  end.
Proof.
  unfold found, exec, activate_license, is_expired, sign_activation.
  destruct (truthy_str (license_key p)); cbn; [|left; now split].
  destruct (find _ (licenses (db w))) as [lic|]; cbn; [|now repeat split].
  destruct (truthy_bool (License.active lic)); cbn; [|now repeat split].
  destruct (License.expires_at lic) as [[e|e]|] eqn:Hexp; cbn;
    [destruct (Z.ltb e (clock w (ticks w))); cbn; [now repeat split|]
    | right; split; [reflexivity|]; split; [reflexivity|];
      exists lic, e; split; [reflexivity|exact Hexp]
    | ];
    (destruct (truthy_str (device_id p)); cbn;
     [destruct (find _ (activations (db w))) as [ex|]; cbn;
      [eexists _, lic; split; [reflexivity|]; split; [reflexivity|];
       left; reflexivity|] | ];
     (destruct (limit_reached _ _); cbn;
      [split; [reflexivity|]; split; reflexivity|];
      eexists _, lic; split; [reflexivity|]; split; [reflexivity|];
      right; reflexivity)).
Qed.

(** X9: admitting a new device appends exactly one row, with the next
    primary key, the license's id, the device id of the request (or
    [unknown]), its fingerprint, the caller's address, the
    application's clock reading as [last_seen] and the reading of the
    database's own clock at the insertion as [created_at], and changes
    nothing else in the database. *)
Theorem new_activation_is_persisted cfg p host w k lic :
  license_key p = Some k -> k <> "" ->
  found w k = Some lic ->
  License.active lic = Some true ->
  comparable lic = true ->
  expired_in w lic = false ->
  (forall d, device_id p = Some d ->
             find (for_device (License.id lic) d) (activations (db w))
             = None) ->
  limit_reached (int_or_0 (License.max_activations lic))
    (activation_count (db w) (License.id lic)) = false ->
  let n := expiry_reads lic in
  let row :=
    Activation.Build (next_activation_id (db w)) (License.id lic)
      (Some (or_unknown (device_id p))) (device_fingerprint p) host
      (reading w n) (db_clock w (S n + ticks w)) in
  let token := Crypto.sign_activation_at (ACTIVATION_SECRET cfg)
                 (reading w (S n)) (License.license_key lic) (device_id p) in
  fst (exec (activate_license cfg p host) w)
  = Return (Response true ACTIVATED (Some token) (Some (summary_of lic)))
  /\ db (snd (exec (activate_license cfg p host) w))
     = Db.Build (licenses (db w)) (activations (db w) ++ [row])
                (next_license_id (db w)) (next_activation_id (db w) + 1).
Proof.
  intros Hk Hk' Hf Ha Hc He Hx Hl. destruct (provided Hk Hk') as [Tk Ek].
  cbn zeta. rewrite (@admit_run cfg p host w lic).
  - split; reflexivity.
  - exact Tk.
  - rewrite Ek. exact Hf.
  - rewrite Ha. reflexivity.
  - exact Hc.
  - exact He.
  - apply no_row_yet. exact Hx.
  - exact Hl.
Qed.

Lemma new_activation_is_persisted_witness :
  let run := exec (activate_license Scenario.defaults
                     (Payload (Some "LICENSE-1") None (Some "fp")) (Some "10.0.0.1"))
                  Scenario2.ahead in
  activations (db (snd run))
  = [Activation.Build 1 1 (Some "unknown") (Some "fp") (Some "10.0.0.1")
                      1700000000 1700000101].
Proof.
  cbn zeta.
  destruct (@new_activation_is_persisted Scenario.defaults
              (Payload (Some "LICENSE-1") None (Some "fp")) (Some "10.0.0.1")
              Scenario2.ahead "LICENSE-1" (Scenario.license1 1))
    as [_ H].
  - reflexivity.
  - discriminate.
  - reflexivity.
  - reflexivity.
  - reflexivity.
  - reflexivity.
  - intros d H. discriminate H.
  - reflexivity.
  - rewrite H. reflexivity.
Defined.

(** X8: once a request from a device that gives its id is answered
    [Activated], the same request served next on the unexpired license
    is answered [OK] and adds no row. *)
Theorem activation_then_reactivation cfg p host host' w k d lic r :
  license_key p = Some k -> k <> "" ->
  device_id p = Some d -> d <> "" ->
  found w k = Some lic ->
  fst (exec (activate_license cfg p host) w) = Return r ->
  message r = ACTIVATED ->
  let w1 := snd (exec (activate_license cfg p host) w) in
  expired_in w1 lic = false ->
  (exists token,
      fst (exec (activate_license cfg p host') w1)
      = Return (Response true OK (Some token) (Some (summary_of lic))))
  /\ List.length (activations (db (snd (exec (activate_license cfg p host') w1))))
     = List.length (activations (db w1)).
Proof.
  intros Hk Hk' Hd Hd' Hf Hr Hm.
  destruct (provided Hk Hk') as [Tk Ek].
  destruct (provided Hd Hd') as [Td Ed].
  assert (Hf' : found w (Crypto.or_empty (license_key p)) = Some lic)
    by (rewrite Ek; exact Hf).
  destruct (@admit_inversion cfg p host w lic r Tk Hf' Hr Hm)
    as [Ha [Hc [He [Hx Hl]]]].
  cbn zeta. rewrite (@admit_run cfg p host w lic Tk Hf' Ha Hc He Hx Hl).
  cbn [snd].
  intros He1.
  set (w1 := admitted_world w lic p host) in *.
  set (row := Activation.Build (next_activation_id (db w)) (License.id lic)
                (Some (or_unknown (device_id p))) (device_fingerprint p) host
                (reading w (expiry_reads lic))
                (db_clock w (S (expiry_reads lic) + ticks w))).
  assert (Hx1 : existing_row w1 lic (device_id p) = Some row).
  { unfold existing_row in *. rewrite Td in *.
    change (activations (db w1)) with (activations (db w) ++ [row]).
    rewrite (@find_snoc_none _ _ _ row Hx).
    unfold for_device, for_license, row, or_unknown. cbn.
    rewrite Td, Z.eqb_refl, String.eqb_refl. reflexivity. }
  assert (Hf1 : found w1 (Crypto.or_empty (license_key p)) = Some lic)
    by exact Hf'.
  destruct (@reactivation_run cfg p host' w1 lic row Tk Hf1 Ha Hc He1 Hx1)
    as [H1 [_ [_ [H4 _]]]].
  split; [eexists; exact H1|exact H4].
Qed.

Lemma activation_then_reactivation_witness :
  let w1 := snd (exec (Scenario.from_device (Some "A")) (Scenario.world1 1)) in
  (exists token,
      fst (exec (Scenario.from_device (Some "A")) w1)
      = Return (Response true "OK" (Some token)
                  (Some (summary_of (Scenario.license1 1)))))
  /\ List.length (activations (db (snd (exec (Scenario.from_device (Some "A")) w1))))
     = List.length (activations (db w1)).
Proof.
  apply (@activation_then_reactivation Scenario.defaults
           (Scenario.body (Some "A")) None None (Scenario.world1 1)
           "LICENSE-1" "A" (Scenario.license1 1)
           (accept ACTIVATED
              (Crypto.sign_activation_at
                 (ACTIVATION_SECRET Scenario.defaults) 1700000001
                 "LICENSE-1" (Some "A"))
              (Scenario.license1 1))).
  - reflexivity.
  - discriminate.
  - reflexivity.
  - discriminate.
  - reflexivity.
  - vm_compute. reflexivity.
  - reflexivity.
  - reflexivity.
Defined.

(** *** Sequences of requests *)

Lemma map_id_touch existing now (l : list Activation.t) :
  map Activation.id (map (touch existing now) l) = map Activation.id l.
Proof.
  rewrite map_map. apply map_ext. intros a. unfold touch.
  now destruct (Z.eqb _ _).
Qed.

(** X10: a sequence of requests leaves the licenses as they were, keeps
    every activation row in place, and appends at most one row for each
    request. *)
Theorem requests_only_add_rows cfg reqs w :
  let w' := snd (run_all Db.handle (requests cfg reqs) w) in
  licenses (db w') = licenses (db w)
  /\ exists rows,
       map Activation.id (activations (db w'))
       = map Activation.id (activations (db w)) ++ map Activation.id rows
       /\ (List.length rows <= List.length reqs)%nat.
Proof.
  cbn zeta. revert w. induction reqs as [|[p host] reqs IH]; intros w.
  - split; [reflexivity|]. exists []. cbn. rewrite app_nil_r.
    split; [reflexivity|lia].
  - unfold requests. cbn [map fst snd]. rewrite run_all_cons.
    fold (requests cfg reqs).
    destruct (activate_license_step cfg p host w) as [Hl Ha].
    fold (exec (activate_license cfg p host) w).
    set (w1 := snd (exec (activate_license cfg p host) w)) in *.
    destruct (IH w1) as [IHl [rows [IHa IHn]]].
    split; [now rewrite IHl|].
    destruct Ha as [Ha|[[ex [now Ha]]|[lic' [row Ha]]]].
    + exists rows. rewrite IHa, Ha. split; [reflexivity|cbn; lia].
    + exists rows. rewrite IHa, Ha, map_id_touch.
      split; [reflexivity|cbn; lia].
    + destruct Ha as [_ [_ [_ [_ [_ Ha]]]]].
      exists (row :: rows). rewrite IHa, Ha, map_app, <- app_assoc.
      split; [reflexivity|cbn; lia].
Qed.

Lemma count_never_falls cfg reqs w lid :
  (activation_count (db w) lid
   <= activation_count (db (snd (run_all Db.handle (requests cfg reqs) w)))
        lid)%Z.
Proof.
  revert w. induction reqs as [|[p host] reqs IH]; intros w.
  - cbn. lia.
  - unfold requests. cbn [map fst snd]. rewrite run_all_cons.
    fold (requests cfg reqs).
    destruct (activate_license_step cfg p host w) as [_ Ha].
    fold (exec (activate_license cfg p host) w).
    set (w1 := snd (exec (activate_license cfg p host) w)) in *.
    specialize (IH w1).
    assert (activation_count (db w) lid <= activation_count (db w1) lid)%Z;
      [|lia].
    unfold activation_count.
    destruct Ha as [Ha|[[ex [now Ha]]|[lic' [row Ha]]]].
    + rewrite Ha. lia.
    + rewrite Ha, filter_map_same; [lia|].
      intros a. apply for_license_touch.
    + destruct Ha as [_ [_ [_ [_ [_ Ha]]]]].
      rewrite Ha, length_filter_snoc. lia.
Qed.

(** X11: a license whose activations have reached a positive limit
    keeps exactly that number through any sequence of requests. *)
Theorem full_license_stays_full cfg reqs w lic n :
  NoDup (map License.id (licenses (db w))) ->
  In lic (licenses (db w)) ->
  License.max_activations lic = Some n ->
  (0 < n)%Z ->
  activation_count (db w) (License.id lic) = n ->
  activation_count (db (snd (run_all Db.handle (requests cfg reqs) w)))
    (License.id lic) = n.
Proof.
  intros Hnd Hin Hm Hn Hc.
  pose proof (@activate_license_quota cfg reqs w lic n Hnd Hin Hm Hn
                ltac:(lia)) as Hle.
  pose proof (count_never_falls cfg reqs w (License.id lic)) as Hge.
  lia.
Qed.

Lemma full_license_stays_full_witness :
  activation_count
    (db (snd (run_all Db.handle
                (requests Scenario.defaults
                   [(Scenario.body (Some "B"), None);
                    (Scenario.body (Some "A"), None);
                    (Scenario.body None, None)])
                Scenario.saturated)))
    1 = 1%Z.
Proof.
  apply (@full_license_stays_full Scenario.defaults
           [(Scenario.body (Some "B"), None);
            (Scenario.body (Some "A"), None);
            (Scenario.body None, None)]
           Scenario.saturated (Scenario.license1 1) 1%Z).
  - cbn. constructor; [intros []|constructor].
  - cbn. now left.
  - reflexivity.
  - lia.
  - reflexivity.
Defined.

(** X12: if every activation row carries a non-empty device id, every
    row still does after any sequence of requests. *)
Theorem device_ids_are_never_empty cfg reqs w :
  (forall a, In a (activations (db w)) ->
             exists d, Activation.device_id a = Some d /\ d <> "") ->
  forall a,
    In a (activations (db (snd (run_all Db.handle (requests cfg reqs) w)))) ->
    exists d, Activation.device_id a = Some d /\ d <> "".
Proof.
  revert w. induction reqs as [|[p host] reqs IH]; intros w Hinv.
  - exact Hinv.
  - unfold requests. cbn [map fst snd]. rewrite run_all_cons.
    fold (requests cfg reqs).
    destruct (activate_license_step cfg p host w) as [_ Ha].
    fold (exec (activate_license cfg p host) w).
    set (w1 := snd (exec (activate_license cfg p host) w)) in *.
    apply IH. intros a Hin.
    destruct Ha as [Ha|[[ex [now Ha]]|[lic' [row Ha]]]].
    + rewrite Ha in Hin. now apply Hinv.
    + rewrite Ha in Hin. apply in_map_iff in Hin.
      destruct Hin as [a0 [<- Hin]].
      destruct (Hinv a0 Hin) as [d [Hd Hd']]. exists d.
      split; [|exact Hd']. unfold touch. now destruct (Z.eqb _ _).
    + destruct Ha as [_ [_ [_ [_ [Hrd Ha]]]]].
      rewrite Ha in Hin. apply in_app_or in Hin.
      destruct Hin as [Hin|[<-|[]]]; [now apply Hinv|].
      exists (or_unknown (device_id p)). split; [exact Hrd|].
      unfold or_unknown.
      destruct (device_id p) as [d|]; cbn; [|discriminate].
      destruct (String.eqb d "") eqn:E; cbn; [discriminate|].
      now apply String.eqb_neq.
Qed.

Lemma device_ids_are_never_empty_witness :
  Forall (fun a => exists d, Activation.device_id a = Some d /\ d <> "")
    (activations
       (db (snd (run_all Db.handle
                   (requests Scenario.defaults
                      [(Scenario.body (Some ""), None);
                       (Scenario.body None, None)])
                   (Scenario.world1 5))))).
Proof.
  apply Forall_forall.
  apply (@device_ids_are_never_empty Scenario.defaults
           [(Scenario.body (Some ""), None); (Scenario.body None, None)]
           (Scenario.world1 5)).
  intros a [].
Defined.

End EngineExtras.

Lemma run_bind (E : Type -> Type) (W : Type)
      (h : forall X : Type, E X -> W -> X * W) (A B : Type)
      (p : Prog E A) (f : A -> Prog E B) (w : W) :
  run h (bind p f) w = run h (f (fst (run h p w))) (snd (run h p w)).
Proof.
  revert w. induction p as [a|X e k IH]; intros w; cbn.
  - reflexivity.
  - destruct (h X e w) as [x w']. apply IH.
Qed.

Lemma find_map_same (A : Type) (f : A -> bool) (g : A -> A) (l : list A) :
  (forall a, f (g a) = f a) ->
  find f (map g l) = option_map g (find f l).
Proof.
  intros H. induction l as [|a l IH]; cbn; [reflexivity|].
  rewrite H. destruct (f a); [reflexivity|exact IH].
Qed.

Lemma find_app_some (A : Type) (f : A -> bool) (l l' : list A) (a : A) :
  find f l = Some a -> find f (l ++ l') = Some a.
Proof.
  induction l as [|x l IH]; cbn; [discriminate|].
  destruct (f x); [trivial|exact IH].
Qed.

Lemma opt_str_eqb_neq (s : option string) (t : string) :
  s <> Some t -> opt_str_eqb s (Some t) = false.
Proof.
  destruct s as [x|]; cbn; [|reflexivity].
  intros H. apply String.eqb_neq. intros E. apply H. now subst.
Qed.

Module AdminExtras.

Import Db Licenses Vocabulary EngineFacts AdminOps AdminVocabulary.
Local Open Scope string_scope.
Local Open Scope list_scope.

(** X13: each admin operation of either variant, called with a token
    other than [ADMIN_TOKEN] (or without one), fails with status 401 and
    leaves the world as it was: nothing is written, no key is drawn and
    no REST call is made. *)
Theorem unauthorized_admin_changes_nothing cfg token nm iso
        owner plan dp max key w sw :
  token <> Some (ADMIN_TOKEN cfg) ->
  let denied (A : Type) : result A :=
    Raise (HTTPException 401 "Unauthorized") in
  Licenses.exec (Admin.create_license cfg owner dp max token) w
  = (denied _, w)
  /\ exec (kill_license cfg key token) w = (denied _, w)
  /\ exec (list_licenses cfg token) w = (denied _, w)
  /\ Supabase.exec (Supabase.admin_create_license cfg iso owner plan dp max
                      token) sw
     = (denied _, sw)
  /\ SupabaseAdmin.exec nm (SupabaseAdmin.admin_kill_license cfg key token) sw
     = (denied _, sw)
  /\ SupabaseAdmin.exec nm (SupabaseAdmin.admin_list cfg token) sw
     = (denied _, sw).
Proof.
  intros H. apply opt_str_eqb_neq in H. cbn zeta.
  unfold Licenses.exec, exec, Supabase.exec, SupabaseAdmin.exec,
    Admin.create_license, kill_license, list_licenses,
    Supabase.admin_create_license, SupabaseAdmin.admin_kill_license,
    SupabaseAdmin.admin_list, Admin.verify_admin.
  rewrite H. repeat split.
Qed.

Lemma unauthorized_admin_changes_nothing_witness :
  exec (kill_license Scenario.defaults "LICENSE-1" None) (Scenario.world1 1)
  = (Raise (HTTPException 401 "Unauthorized"), Scenario.world1 1)
  /\ Licenses.exec
       (Admin.create_license Scenario.defaults "owner" "lifetime" 1
          (Some "change_me_admin_token"))
       (Scenario.world1 1)
     = (Raise (HTTPException 401 "Unauthorized"), Scenario.world1 1).
Proof.
  split.
  - apply (@unauthorized_admin_changes_nothing Scenario.defaults None 204%Z
             Scenario.isoformat "owner" "pro" "lifetime" 1%Z "LICENSE-1"
             (Scenario.world1 1) Scenario.remote).
    discriminate.
  - apply (@unauthorized_admin_changes_nothing Scenario.defaults
             (Some "change_me_admin_token") 204%Z
             Scenario.isoformat "owner" "pro" "lifetime" 1%Z "LICENSE-1"
             (Scenario.world1 1) Scenario.remote).
    discriminate.
Defined.

Lemma has_key_deactivate key lic l :
  has_key key (deactivate lic l) = has_key key l.
Proof. unfold deactivate. now destruct (Z.eqb _ _). Qed.

(** X14: an authorized [kill_license] for the key of a license answers
    [ok], leaves that license with [active = False] and its other
    fields unchanged, leaves the activations and the licenses with
    other ids as they were, and the next activation request for the key
    is answered [License disabled]. *)
Theorem kill_license_disables cfg key w lic p host :
  key <> "" ->
  found w key = Some lic ->
  license_key p = Some key ->
  let run := exec (kill_license cfg key (Some (ADMIN_TOKEN cfg))) w in
  let killed :=
    License.Build (License.id lic) (License.license_key lic)
      (License.owner lic) (License.plan lic) (License.expires_at lic)
      (License.max_activations lic) (Some false) (License.created_at lic) in
  fst run = Return true
  /\ found (snd run) key = Some killed
  /\ activations (db (snd run)) = activations (db w)
  /\ (forall l, In l (licenses (db w)) -> License.id l <> License.id lic ->
                In l (licenses (db (snd run))))
  /\ Licenses.exec (activate_license cfg p host) (snd run)
     = (Return (Response false DISABLED None None), snd run).
Proof.
  intros Hk Hf Hp. cbn zeta.
  unfold exec, kill_license, Admin.verify_admin.
  rewrite opt_str_eqb_refl. cbn. unfold found in Hf. rewrite Hf. cbn.
  assert (Hfound :
    find (has_key key) (map (deactivate lic) (licenses (db w)))
    = Some (deactivate lic lic)).
  { rewrite find_map_same by (intros a; apply has_key_deactivate).
    now rewrite Hf. }
  assert (Hd : deactivate lic lic
               = License.Build (License.id lic) (License.license_key lic)
                   (License.owner lic) (License.plan lic)
                   (License.expires_at lic) (License.max_activations lic)
                   (Some false) (License.created_at lic)).
  { unfold deactivate. now rewrite Z.eqb_refl. }
  split; [reflexivity|].
  split; [unfold found; cbn; now rewrite Hfound, Hd|].
  split; [reflexivity|].
  split.
  - intros l Hin Hne. cbn. apply in_map_iff. exists l. split; [|exact Hin].
    unfold deactivate. apply Z.eqb_neq in Hne. now rewrite Hne.
  - destruct (provided Hp Hk) as [Tk Ek].
    apply disabled_run with (lic := deactivate lic lic).
    + exact Tk.
    + rewrite Ek. unfold found. cbn. exact Hfound.
    + rewrite Hd. reflexivity.
Qed.

Lemma kill_license_disables_witness :
  let run := exec (kill_license Scenario.defaults "LICENSE-1"
                     (Some "CHANGE_ME_ADMIN_TOKEN")) (Scenario.world1 5) in
  fst run = Return true
  /\ Licenses.exec (activate_license Scenario.defaults
                      (Scenario.body (Some "A")) None) (snd run)
     = (Return (Response false "License disabled" None None), snd run).
Proof.
  destruct (@kill_license_disables Scenario.defaults "LICENSE-1"
              (Scenario.world1 5) (Scenario.license1 5)
              (Scenario.body (Some "A")) None)
    as [H1 [_ [_ [_ H5]]]].
  - discriminate.
  - reflexivity.
  - reflexivity.
  - split; [exact H1|exact H5].
Defined.

(** X15: for a key no license has, [kill_license] fails with status 404
    and the command-line [deactivate_license] prints [License not
    found], both changing nothing; for the key of a license, the two
    leave the same world. *)
Theorem deactivation_paths_agree cfg key w :
  (found w key = None ->
   exec (kill_license cfg key (Some (ADMIN_TOKEN cfg))) w
   = (Raise (HTTPException 404 "License not found"), w)
   /\ exec (deactivate_license key) w = ("License not found", w))
  /\ (forall lic, found w key = Some lic ->
        snd (exec (deactivate_license key) w)
        = snd (exec (kill_license cfg key (Some (ADMIN_TOKEN cfg))) w)
        /\ fst (exec (deactivate_license key) w)
           = ("License deactivated: " ++ key)%string).
Proof.
  unfold found, exec, kill_license, deactivate_license, Admin.verify_admin.
  rewrite opt_str_eqb_refl. cbn. split.
  - intros Hf. rewrite Hf. split; reflexivity.
  - intros lic Hf. rewrite Hf. split; reflexivity.
Qed.

Lemma deactivation_paths_agree_witness :
  exec (kill_license Scenario.defaults "NO-SUCH-KEY"
          (Some "CHANGE_ME_ADMIN_TOKEN")) (Scenario.world1 1)
  = (Raise (HTTPException 404 "License not found"), Scenario.world1 1)
  /\ exec (deactivate_license "NO-SUCH-KEY") (Scenario.world1 1)
     = ("License not found", Scenario.world1 1).
Proof.
  apply (proj1 (deactivation_paths_agree Scenario.defaults "NO-SUCH-KEY"
                  (Scenario.world1 1))).
  reflexivity.
Defined.

Lemma list_loop_run (items : list License.t) :
  forall (out : list listed) (w : world),
    run handle (list_loop items out) w
    = (out ++ map (listed_in (db w)) items, w).
Proof.
  induction items as [|lic items IH]; intros out w.
  - cbn. now rewrite app_nil_r.
  - cbn [list_loop]. rewrite run_bind. cbn. rewrite IH.
    now rewrite <- app_assoc.
Qed.

(** X16: an authorized [list_licenses] answers one object for each
    license, in the order of the table, with the number of activation
    rows of that license, and leaves the world as it was. *)
Theorem list_licenses_reports_every_license cfg w :
  exec (list_licenses cfg (Some (ADMIN_TOKEN cfg))) w
  = (Return (map (listed_in (db w)) (licenses (db w))), w).
Proof.
  unfold exec, list_licenses, Admin.verify_admin.
  rewrite opt_str_eqb_refl. cbn. rewrite run_bind, list_loop_run.
  reflexivity.
Qed.

(** X17: after an authorized [create_license] with one of the four
    plans, when no license already has the generated key and
    [max_activations] is an integer the database holds, looking up that
    key finds the new license with the next primary key, the owner, the
    plan, the computed expiry as the database reads it back, the limit
    and [active = True]; every license found before is still found, and
    the activations are unchanged. *)
Theorem created_license_is_found cfg owner dp max w :
  PlanTable.known_plan dp ->
  found w (entropy w (draws w)) = None ->
  Dialect.fits (dialect w) (Some max) = true ->
  let run := Licenses.exec
               (Admin.create_license cfg owner dp max
                  (Some (ADMIN_TOKEN cfg))) w in
  (exists created_at,
      found (snd run) (entropy w (draws w))
      = Some (License.Build (next_license_id (db w)) (entropy w (draws w))
                (Some owner) (Some dp)
                (option_map (Dialect.stamp (dialect w))
                   (PlanTable.plan_expiry dp (reading w 0)))
                (Some max) (Some true) created_at))
  /\ (forall k lic, found w k = Some lic -> found (snd run) k = Some lic)
  /\ activations (db (snd run)) = activations (db w).
Proof.
  intros Hp Hfresh Hfit. cbn zeta. unfold found in *.
  pose proof (find_none_existsb _ _ Hfresh) as Hex.
  unfold Licenses.exec, Admin.create_license, Admin.verify_admin,
    Admin.compute_expiry, Admin.generate_license_key,
    PlanTable.plan_expiry, PlanTable.plan_days, reading.
  rewrite opt_str_eqb_refl.
  destruct Hp as [-> | [-> | [-> | ->]]]; cbn;
    rewrite Hfit; cbn; rewrite Hex; cbn;
    (split;
     [eexists; rewrite (@find_snoc_none _ _ _ _ Hfresh);
      unfold has_key; cbn; rewrite String.eqb_refl; reflexivity|];
     split; [intros k lic Hf; now apply find_app_some|reflexivity]).
Qed.

Lemma created_license_is_found_witness :
  let run := Licenses.exec
               (Admin.create_license Scenario.defaults "owner" "3months" 2
                  (Some "CHANGE_ME_ADMIN_TOKEN")) (Scenario.world1 1) in
  (exists created_at,
      found (snd run) "generated-key-0"
      = Some (License.Build 2 "generated-key-0" (Some "owner")
                (Some "3months")
                (Some (Datetime.Naive (1700000000 + days 90))) (Some 2%Z)
                (Some true) created_at))
  /\ found (snd run) "LICENSE-1" = Some (Scenario.license1 1).
Proof.
  destruct (@created_license_is_found Scenario.defaults "owner" "3months"
              2%Z (Scenario.world1 1))
    as [H1 [H2 _]].
  - right. right. left. reflexivity.
  - reflexivity.
  - reflexivity.
  - split; [exact H1|]. apply H2. reflexivity.
Defined.

(** X26: an authorized [create_license] with one of the four plans is
    refused at the commit, in the admin route and in the command-line
    tool alike, with [OverflowError] when [max_activations] is not an
    integer the database holds, and otherwise with [IntegrityError]
    when a license already has the generated key; in both cases the
    rows of the two tables are left as they were. *)
Theorem refused_commit_creates_nothing cfg owner plan dp max w :
  PlanTable.known_plan dp ->
  let ra := Licenses.exec
              (Admin.create_license cfg owner dp max
                 (Some (ADMIN_TOKEN cfg))) w in
  let rc := Licenses.exec (Cli.create_license owner plan dp max) w in
  let rows (r : world) := (licenses (db r), activations (db r)) in
  (Dialect.fits (dialect w) (Some max) = false ->
   fst ra = Raise OverflowError /\ rows (snd ra) = rows w
   /\ fst rc = Raise OverflowError /\ rows (snd rc) = rows w)
  /\ (Dialect.fits (dialect w) (Some max) = true ->
      forall lic, found w (entropy w (draws w)) = Some lic ->
      fst ra = Raise IntegrityError /\ rows (snd ra) = rows w
      /\ fst rc = Raise IntegrityError /\ rows (snd rc) = rows w).
Proof.
  intros Hp. cbn zeta. unfold found.
  unfold Licenses.exec, Admin.create_license, Cli.create_license,
    Admin.verify_admin, Admin.compute_expiry, Admin.generate_license_key.
  rewrite opt_str_eqb_refl.
  split.
  - intros Hfit.
    destruct Hp as [-> | [-> | [-> | ->]]]; cbn; rewrite Hfit; cbn;
      (split; [reflexivity|]); (split; [reflexivity|]);
      split; reflexivity.
  - intros Hfit lic Hf. apply find_some_existsb in Hf.
    destruct Hp as [-> | [-> | [-> | ->]]]; cbn; rewrite Hfit; cbn;
      rewrite Hf; cbn;
      (split; [reflexivity|]); (split; [reflexivity|]);
      split; reflexivity.
Qed.

Lemma refused_commit_creates_nothing_witness :
  fst (Licenses.exec
         (Admin.create_license Scenario.defaults "owner" "lifetime"
            (2 ^ 63) (Some "CHANGE_ME_ADMIN_TOKEN")) (Scenario.world1 1))
  = Raise OverflowError
  /\ fst (Licenses.exec
            (Admin.create_license Scenario.defaults "owner" "lifetime" 1
               (Some "CHANGE_ME_ADMIN_TOKEN")) Scenario2.taken)
     = Raise IntegrityError
  /\ licenses (db (snd (Licenses.exec
                         (Admin.create_license Scenario.defaults "owner"
                            "lifetime" 1 (Some "CHANGE_ME_ADMIN_TOKEN"))
                         Scenario2.taken)))
     = licenses (db Scenario2.taken).
Proof.
  split; [|split].
  - apply (proj1 (@refused_commit_creates_nothing Scenario.defaults "owner"
                    "pro" "lifetime" (2 ^ 63)%Z (Scenario.world1 1)
                    (or_introl eq_refl))).
    reflexivity.
  - destruct (proj2 (@refused_commit_creates_nothing Scenario.defaults
                       "owner" "pro" "lifetime" 1%Z Scenario2.taken
                       (or_introl eq_refl))
                eq_refl _ eq_refl) as [H _].
    exact H.
  - destruct (proj2 (@refused_commit_creates_nothing Scenario.defaults
                       "owner" "pro" "lifetime" 1%Z Scenario2.taken
                       (or_introl eq_refl))
                eq_refl _ eq_refl) as [_ [H _]].
    exact (f_equal fst H).
Defined.

End AdminExtras.

Module SupabaseExtras.

Import Supabase SupabaseVocabulary.
Local Open Scope string_scope.
Local Open Scope list_scope.

(** X18: when the first REST call of [api_check] fails, the answer is
    the status 500 and the store is unchanged; [License not found] is
    answered only when the store answered and holds no row for the key. *)
Theorem store_failure_is_not_a_missing_license cfg fromiso iso req sw :
  (reachable sw (calls sw) = false ->
   fst (exec (api_check cfg fromiso iso req) sw)
   = Raise (HTTPException 500 "Supabase error")
   /\ store (snd (exec (api_check cfg fromiso iso req) sw)) = store sw)
  /\ (fst (exec (api_check cfg fromiso iso req) sw)
      = Return (CheckResponse false Licenses.NOT_FOUND None None) ->
      reachable sw (calls sw) = true
      /\ found sw (license_key req) = None).
Proof.
  unfold found, exec, api_check, supabase_get_license_row,
    supabase_get_activations_for_license, supabase_create_activation_row,
    supabase_update_activation_last_seen, is_expired, sign_activation.
  cbn.
  destruct (reachable sw (calls sw)); cbn.
  - split; [discriminate|].
    destruct (hd_error _) as [lic|]; cbn; [|now split].
    destruct (truthy_bool (l_active lic)); cbn; [|discriminate].
    destruct (truthy_str (l_expires_at lic)); cbn;
      [destruct (fromiso _) as [|t|t]; cbn;
       [ | |destruct (Z.ltb t (clock sw (ticks sw))); cbn; [discriminate|]]
      | ];
      (destruct (reachable sw (S (calls sw))); cbn; [|discriminate];
       destruct (if truthy_str (device_id req) then _ else None) as [ex|];
       cbn;
       [destruct (reachable sw (S (S (calls sw)))); cbn; discriminate|];
       destruct (Licenses.limit_reached _ _); cbn; [discriminate|];
       destruct (reachable sw (S (S (calls sw)))); cbn; discriminate).
  - split; [now split|discriminate].
Qed.

Lemma store_failure_is_not_a_missing_license_witness :
  fst (exec (api_check Scenario.defaults Scenario.fromisoformat
               Scenario.isoformat (Scenario.check (Some "A")))
            (Scenario2.unreachable 1))
  = Raise (HTTPException 500 "Supabase error").
Proof.
  apply (proj1 (store_failure_is_not_a_missing_license Scenario.defaults
                  Scenario.fromisoformat Scenario.isoformat
                  (Scenario.check (Some "A")) (Scenario2.unreachable 1))).
  reflexivity.
Defined.

(** X19: [api_check] ignores the outcome of the last-seen update: when
    the two reads are answered and the [PATCH] is not, a device with a
    row is still answered [OK], and the store is unchanged. *)
Theorem failed_touch_is_answered_ok cfg fromiso iso req sw slic existing :
  reachable sw (calls sw) = true ->
  reachable sw (S (calls sw)) = true ->
  reachable sw (S (S (calls sw))) = false ->
  found sw (license_key req) = Some slic ->
  l_active slic = Some true ->
  expired_in fromiso sw slic = false ->
  existing_row sw slic (device_id req) = Some existing ->
  (exists token,
      fst (exec (api_check cfg fromiso iso req) sw)
      = Return (accept Licenses.OK token slic))
  /\ store (snd (exec (api_check cfg fromiso iso req) sw)) = store sw.
Proof.
  unfold found, existing_row, expired_in, rows_for, reading.
  intros U0 U1 U2 Hf Ha He Hx.
  unfold exec, api_check, supabase_get_license_row,
    supabase_get_activations_for_license,
    supabase_update_activation_last_seen, is_expired, sign_activation.
  cbn. rewrite U0. cbn. rewrite Hf. cbn. rewrite Ha. cbn.
  destruct (truthy_str (l_expires_at slic)); cbn;
    [destruct (fromiso _); cbn in He |- *; rewrite ?He; cbn|];
    rewrite U1; cbn; rewrite Hx; cbn; rewrite U2; cbn;
    (split; [eexists; reflexivity|reflexivity]).
Qed.

Lemma failed_touch_is_answered_ok_witness :
  (exists token,
      fst (exec (api_check Scenario.defaults Scenario.fromisoformat
                   Scenario.isoformat (Scenario.check (Some "A")))
                Scenario2.flaky)
      = Return (accept "OK" token (Scenario.remote_license 1 true)))
  /\ activations
       (store (snd (exec (api_check Scenario.defaults Scenario.fromisoformat
                            Scenario.isoformat (Scenario.check (Some "A")))
                         Scenario2.flaky)))
     = [Scenario2.remote_row_A].
Proof.
  destruct (@failed_touch_is_answered_ok Scenario.defaults
              Scenario.fromisoformat Scenario.isoformat
              (Scenario.check (Some "A")) Scenario2.flaky
              (Scenario.remote_license 1 true) Scenario2.remote_row_A)
    as [H1 H2].
  - reflexivity.
  - reflexivity.
  - reflexivity.
  - reflexivity.
  - reflexivity.
  - reflexivity.
  - reflexivity.
  - split; [exact H1|]. rewrite H2. reflexivity.
Defined.

(** X20: a stored expiry that [datetime.fromisoformat] rejects, or reads
    as a datetime with a UTC offset, never makes [api_check] answer
    [License expired]: the exception is swallowed. *)
Theorem offset_expiry_never_expires cfg fromiso iso req sw :
  (forall lic, found sw (license_key req) = Some lic ->
     forall t, fromiso (Crypto.or_empty (l_expires_at lic)) <> Naive t) ->
  forall r, fst (exec (api_check cfg fromiso iso req) sw) = Return r ->
            message r <> Licenses.EXPIRED.
Proof.
  unfold found, exec, api_check, supabase_get_license_row,
    supabase_get_activations_for_license, supabase_create_activation_row,
    supabase_update_activation_last_seen, is_expired, sign_activation.
  intros Hparse. cbn.
  destruct (reachable sw (calls sw)); cbn; [|discriminate].
  destruct (hd_error _) as [lic|]; cbn;
    [|intros r H; apply Return_inj in H; subst r; discriminate].
  specialize (Hparse lic eq_refl).
  destruct (truthy_bool (l_active lic)); cbn;
    [|intros r H; apply Return_inj in H; subst r; discriminate].
  destruct (truthy_str (l_expires_at lic)); cbn;
    [destruct (fromiso _) as [|t|t]; cbn;
     [ | |now elim (Hparse t)] | ];
    (destruct (reachable sw (S (calls sw))); cbn; [|discriminate];
     destruct (if truthy_str (device_id req) then _ else None) as [ex|];
     cbn;
     [destruct (reachable sw (S (S (calls sw)))); cbn;
      intros r H; apply Return_inj in H; subst r; discriminate|];
     destruct (Licenses.limit_reached _ _); cbn;
     [intros r H; apply Return_inj in H; subst r; discriminate|];
     destruct (reachable sw (S (S (calls sw)))); cbn; [|discriminate];
     intros r H; apply Return_inj in H; subst r; discriminate).
Qed.

Lemma offset_expiry_never_expires_witness :
  match fst (exec (api_check Scenario.defaults Scenario2.aware_parser
                     Scenario.isoformat (Scenario.check (Some "A")))
                  Scenario2.offset_world) with
  | Return r => message r <> "License expired"
  | Raise _ => True
  end.
Proof.
  pose proof (@offset_expiry_never_expires Scenario.defaults
                Scenario2.aware_parser Scenario.isoformat
                (Scenario.check (Some "A")) Scenario2.offset_world
                ltac:(intros lic _ t; discriminate)) as H.
  destruct (fst (exec (api_check Scenario.defaults Scenario2.aware_parser
                         Scenario.isoformat (Scenario.check (Some "A")))
                      Scenario2.offset_world)) as [r|e].
  - apply H. reflexivity.
  - exact I.
Defined.

End SupabaseExtras.

Lemma hd_error_of_map (A B : Type) (g : A -> B) (l : list A) :
  hd_error (map g l) = option_map g (hd_error l).
Proof. now destruct l. Qed.

Module SupabaseAdminExtras.

Import Supabase SupabaseVocabulary SupabaseAdmin SupabaseAdminVocabulary.
Local Open Scope string_scope.
Local Open Scope list_scope.

Lemma run_lift (nm : Z) (A : Type) (p : Supabase.prog A) (w : world) :
  run (handle nm) (lift p) w = run Supabase.handle p w.
Proof.
  revert w. induction p as [a|X e k IH]; intros w; cbn.
  - reflexivity.
  - destruct (Supabase.handle e w) as [x w']. apply IH.
Qed.

Lemma admin_list_loop_run (nm : Z) (items : list license_row) :
  forall (out : list listed) (w : world),
    (forall i, (i < List.length items)%nat ->
               reachable w (i + calls w) = true) ->
    run (handle nm) (list_loop items out) w
    = (Return (out ++ map (listed_in (store w)) items),
       after_calls (List.length items) w).
Proof.
  induction items as [|lic items IH]; intros out w Hup.
  - cbn. rewrite app_nil_r. unfold after_calls. now destruct w.
  - cbn [list_loop]. rewrite run_bind, run_lift.
    unfold supabase_get_activations_for_license. cbn.
    pose proof (Hup 0%nat ltac:(cbn; lia)) as U0. cbn in U0.
    rewrite U0. cbn. rewrite IH.
    + cbn. unfold after_calls. cbn. rewrite <- app_assoc.
      f_equal. f_equal. lia.
    + intros i Hi. cbn.
      specialize (Hup (S i) ltac:(cbn; lia)).
      replace (i + S (calls w))%nat with (S i + calls w)%nat by lia.
      exact Hup.
Qed.

(** X21: when its calls are answered, an authorized [admin_list] answers
    one object for each license, in order, with the device id and
    last-seen time of each activation of that license, and leaves the
    store as it was. *)
Theorem admin_list_reports_every_license cfg nm sw :
  answered sw (S (List.length (licenses (store sw)))) ->
  fst (exec nm (admin_list cfg (Some (Licenses.ADMIN_TOKEN cfg))) sw)
  = Return (map (listed_in (store sw)) (licenses (store sw)))
  /\ store (snd (exec nm (admin_list cfg (Some (Licenses.ADMIN_TOKEN cfg)))
                      sw))
     = store sw.
Proof.
  intros Hup. unfold answered in Hup.
  unfold exec, admin_list, Admin.verify_admin, supabase_list_licenses.
  rewrite opt_str_eqb_refl. cbn.
  pose proof (Hup 0%nat ltac:(lia)) as U0. cbn in U0. rewrite U0. cbn.
  rewrite admin_list_loop_run.
  - split; reflexivity.
  - intros i Hi. cbn.
    specialize (Hup (S i) ltac:(lia)).
    replace (i + S (calls sw))%nat with (S i + calls sw)%nat by lia.
    exact Hup.
Qed.

Lemma admin_list_reports_every_license_witness :
  fst (exec 204 (admin_list Scenario.defaults (Some "CHANGE_ME_ADMIN_TOKEN"))
            Scenario2.remote_saturated)
  = Return [Listed "LICENSE-1" (Some "owner") (Some "lifetime") None
                   (Some true) [(Some "A", Some "1700000000")]].
Proof.
  apply (@admin_list_reports_every_license Scenario.defaults 204%Z
           Scenario2.remote_saturated).
  intros i _. reflexivity.
Defined.

Lemma disable_key key (l : license_row) : l_key (disable key l) = l_key l.
Proof. unfold disable. now destruct (String.eqb _ _). Qed.

Lemma filter_map_commute (A : Type) (f : A -> bool) (g : A -> A)
      (l : list A) :
  (forall a, f (g a) = f a) ->
  filter f (map g l) = map g (filter f l).
Proof.
  intros H. induction l as [|a l IH]; cbn; [reflexivity|].
  rewrite H. destruct (f a); cbn; now rewrite IH.
Qed.

(** X22: an authorized [admin_kill_license] reports a failed call as
    status 404 with the store unchanged; when the call is answered and a
    license has the key, it answers [ok], every license with the key is
    inactive afterwards, the activations are unchanged, and an answered
    [api_check] for the key says [License disabled]. *)
Theorem admin_kill_license_disables cfg fromiso iso nm key req sw :
  let run := exec nm (admin_kill_license cfg key
                        (Some (Licenses.ADMIN_TOKEN cfg))) sw in
  (reachable sw (calls sw) = false ->
   fst run = Raise (HTTPException 404
                      "License not found or could not disable")
   /\ store (snd run) = store sw)
  /\ (reachable sw (calls sw) = true ->
      forall lic, found sw key = Some lic ->
        fst run = Return true
        /\ activations (store (snd run)) = activations (store sw)
        /\ (forall l, In l (licenses (store (snd run))) -> l_key l = key ->
                      l_active l = Some false)
        /\ (license_key req = key ->
            reachable sw (S (calls sw)) = true ->
            fst (Supabase.exec (api_check cfg fromiso iso req) (snd run))
            = Return (CheckResponse false Licenses.DISABLED None None))).
Proof.
  cbn zeta.
  unfold exec, admin_kill_license, Admin.verify_admin,
    supabase_disable_license_row.
  rewrite opt_str_eqb_refl. cbn. split.
  - intros U0. rewrite U0. cbn. split; reflexivity.
  - intros U0 lic Hf. rewrite U0. cbn.
    unfold found in Hf.
    assert (Hin : In lic (filter (fun l => String.eqb (l_key l) key)
                            (licenses (store sw)))).
    { destruct (filter _ _) as [|x t]; [discriminate|].
      injection Hf as ->. now left. }
    apply filter_In in Hin. destruct Hin as [Hin Hk].
    assert (Hex : existsb (fun l => String.eqb (l_key l) key)
                    (licenses (store sw)) = true).
    { apply existsb_exists. exists lic. split; assumption. }
    rewrite Hex. cbn.
    split; [reflexivity|]. split; [reflexivity|]. split.
    + intros l Hl Hkl. apply in_map_iff in Hl.
      destruct Hl as [l0 [<- Hl]]. rewrite disable_key in Hkl.
      unfold disable. apply String.eqb_eq in Hkl. now rewrite Hkl.
    + intros Hreq U1.
      unfold Supabase.exec, api_check, supabase_get_license_row. cbn.
      rewrite U1. cbn. rewrite Hreq.
      rewrite filter_map_commute
        by (intros a; now rewrite disable_key).
      rewrite hd_error_of_map, Hf. cbn.
      unfold disable at 1. rewrite Hk. cbn. reflexivity.
Qed.

Lemma admin_kill_license_disables_witness :
  let run := exec 404 (admin_kill_license Scenario.defaults "LICENSE-1"
                         (Some "CHANGE_ME_ADMIN_TOKEN"))
                  (Scenario.remote1 5 true) in
  fst run = Return true
  /\ fst (Supabase.exec
            (api_check Scenario.defaults Scenario.fromisoformat
               Scenario.isoformat (Scenario.check (Some "A")))
            (snd run))
     = Return (CheckResponse false "License disabled" None None).
Proof.
  destruct (proj2 (@admin_kill_license_disables Scenario.defaults
                     Scenario.fromisoformat Scenario.isoformat 404%Z
                     "LICENSE-1" (Scenario.check (Some "A"))
                     (Scenario.remote1 5 true))
              eq_refl (Scenario.remote_license 5 true) eq_refl)
    as [H1 [_ [_ H4]]].
  split; [exact H1|]. apply H4; reflexivity.
Defined.

End SupabaseAdminExtras.

Module RouteExtras.

Import Supabase SupabaseVocabulary.
Local Open Scope string_scope.
Local Open Scope list_scope.

(** X23: [verify_token] raises only for an absent or empty token, with
    status 400; for any other token it answers what
    [verify_activation_token] answers. *)
Theorem verify_token_raises_only_without_token cfg (token : option string) :
  (truthy_str token = false ->
   Licenses.verify_token cfg token
   = Raise (HTTPException 400 "activation_token required"))
  /\ (forall t, token = Some t -> t <> "" ->
        exists valid,
          Licenses.verify_token cfg token = Return valid
          /\ Crypto.verify_activation_token (Licenses.ACTIVATION_SECRET cfg) t
             = Return valid).
Proof.
  unfold Licenses.verify_token. split.
  - intros H. rewrite H. reflexivity.
  - intros t Ht Ht'. destruct (EngineFacts.provided Ht Ht') as [T E].
    rewrite T, E. cbn [negb].
    unfold Crypto.verify_activation_token.
    destruct (Crypto.verify_body _ t) as [b|e]; eexists; split; reflexivity.
Qed.

Lemma verify_token_raises_only_without_token_witness :
  Licenses.verify_token Scenario.defaults (Some "")
  = Raise (HTTPException 400 "activation_token required")
  /\ exists valid,
       Licenses.verify_token Scenario.defaults (Some "not a token")
       = Return valid.
Proof.
  split.
  - apply (proj1 (verify_token_raises_only_without_token Scenario.defaults
                    (Some ""))).
    reflexivity.
  - destruct (proj2 (verify_token_raises_only_without_token
                       Scenario.defaults (Some "not a token"))
                "not a token" eq_refl ltac:(discriminate))
      as [valid [H _]].
    exists valid. exact H.
Defined.

(** X24: in the Supabase variant, when the three calls are answered, a
    device that holds a row of a found, active, unexpired license is
    answered [OK] with the license summary and a token signed at the
    clock reading after the next; the next clock reading, rendered as
    an ISO string, is written into the last-seen time of the rows that
    have the id of that row, nothing else in the activations changes,
    and the licenses are unchanged, whatever the limit. *)
Theorem supabase_reactivation_succeeds cfg fromiso iso req sw slic existing :
  answered sw 3 ->
  found sw (license_key req) = Some slic ->
  l_active slic = Some true ->
  expired_in fromiso sw slic = false ->
  existing_row sw slic (device_id req) = Some existing ->
  let n := expiry_reads fromiso slic in
  let now := reading sw n in
  let token := Crypto.sign_activation_at (Licenses.ACTIVATION_SECRET cfg)
                 (reading sw (S n)) (l_key slic) (device_id req) in
  let run := exec (api_check cfg fromiso iso req) sw in
  fst run
  = Return (CheckResponse true Licenses.OK
              (Some (Summary (l_key slic) (l_owner slic) (l_plan slic)
                             (l_expires_at slic)))
              (Some token))
  /\ licenses (store (snd run)) = licenses (store sw)
  /\ activations (store (snd run))
     = map (fun a =>
              if Z.eqb (a_id a) (a_id existing)
              then ActivationRow (a_id a) (a_license_id a) (a_device_id a)
                     (a_device_fingerprint a) (a_ip a) (Some (iso now))
                     (a_created_at a)
              else a)
           (activations (store sw))
  /\ In (ActivationRow (a_id existing) (a_license_id existing)
           (a_device_id existing) (a_device_fingerprint existing)
           (a_ip existing) (Some (iso now)) (a_created_at existing))
        (activations (store (snd run))).
Proof.
  unfold found, existing_row, expired_in, expiry_reads, rows_for, reading.
  intros Hup Hf Ha He Hx.
  pose proof (Hup 0%nat ltac:(lia)) as U0.
  pose proof (Hup 1%nat ltac:(lia)) as U1.
  pose proof (Hup 2%nat ltac:(lia)) as U2.
  cbn in U0, U1, U2.
  assert (Hin : In existing (activations (store sw))).
  { destruct (truthy_str (device_id req)); [|discriminate].
    apply find_some in Hx. destruct Hx as [Hx _].
    apply filter_In in Hx. exact (proj1 Hx). }
  cbn zeta.
  unfold exec, api_check, supabase_get_license_row,
    supabase_get_activations_for_license,
    supabase_update_activation_last_seen, is_expired, sign_activation.
  cbn. rewrite U0. cbn. rewrite Hf. cbn. rewrite Ha. cbn.
  destruct (truthy_str (l_expires_at slic)); cbn;
    [destruct (fromiso _); cbn in He |- *; rewrite ?He; cbn|];
    rewrite U1; cbn; rewrite Hx; cbn; rewrite U2; cbn;
    (split; [reflexivity|]); (split; [reflexivity|]);
    (split; [reflexivity|]);
    (apply in_map_iff; exists existing; split; [|exact Hin];
     unfold set_last_seen; now rewrite Z.eqb_refl).
Qed.

Lemma supabase_reactivation_succeeds_witness :
  let run := exec (api_check Scenario.defaults Scenario.fromisoformat
                     Scenario.isoformat (Scenario.check (Some "A")))
                  Scenario2.remote_later in
  activations (store Scenario2.remote_later)
  = [ActivationRow 1 1 (Some "A") None None (Some "1700000000")
                   (Some "1700000001")]
  /\ fst run
     = Return (CheckResponse true "OK"
                 (Some (Summary "LICENSE-1" (Some "owner") (Some "lifetime")
                                None))
                 (Some (Crypto.sign_activation_at
                          "CHANGE_ME_ACTIVATION_SECRET" 1700000006
                          "LICENSE-1" (Some "A"))))
  /\ activations (store (snd run))
     = [ActivationRow 1 1 (Some "A") None None (Some "1700000005")
                      (Some "1700000001")].
Proof.
  cbn zeta. split; [reflexivity|].
  destruct (@supabase_reactivation_succeeds Scenario.defaults
              Scenario.fromisoformat Scenario.isoformat
              (Scenario.check (Some "A")) Scenario2.remote_later
              (Scenario.remote_license 1 true) Scenario2.remote_row_A)
    as [H1 [_ [H3 _]]].
  - intros i _. reflexivity.
  - reflexivity.
  - reflexivity.
  - reflexivity.
  - reflexivity.
  - split; [exact H1|]. rewrite H3. reflexivity.
Defined.

(** X25: in the Supabase variant, a new device of a found, active,
    unexpired license whose activations have reached a positive limit is
    answered [Activation limit reached], and the store is unchanged. *)
Theorem supabase_limit_reached_refuses cfg fromiso iso req sw slic n :
  answered sw 2 ->
  found sw (license_key req) = Some slic ->
  l_active slic = Some true ->
  expired_in fromiso sw slic = false ->
  existing_row sw slic (device_id req) = None ->
  l_max_activations slic = Some n ->
  (0 < n)%Z ->
  (n <= activation_count (store sw) (l_id slic))%Z ->
  fst (exec (api_check cfg fromiso iso req) sw)
  = Return (CheckResponse false Licenses.LIMIT_REACHED None None)
  /\ store (snd (exec (api_check cfg fromiso iso req) sw)) = store sw.
Proof.
  unfold found, existing_row, expired_in, rows_for, reading,
    activation_count.
  intros Hup Hf Ha He Hx Hm Hn Hc.
  pose proof (Hup 0%nat ltac:(lia)) as U0.
  pose proof (Hup 1%nat ltac:(lia)) as U1.
  cbn in U0, U1.
  assert (Hl : Licenses.limit_reached n
                 (Z.of_nat
                    (List.length
                       (filter (fun a => Z.eqb (a_license_id a) (l_id slic))
                               (activations (store sw))))) = true).
  { unfold Licenses.limit_reached. apply andb_true_iff. split.
    - now apply Z.ltb_lt.
    - now apply Z.leb_le. }
  unfold exec, api_check, supabase_get_license_row,
    supabase_get_activations_for_license, is_expired, sign_activation.
  cbn. rewrite U0. cbn. rewrite Hf. cbn. rewrite Ha. cbn.
  destruct (truthy_str (l_expires_at slic)); cbn;
    [destruct (fromiso _); cbn in He |- *; rewrite ?He; cbn|];
    rewrite U1; cbn; rewrite Hx; cbn; rewrite Hm; cbn; rewrite Hl; cbn;
    split; reflexivity.
Qed.

Lemma supabase_limit_reached_refuses_witness :
  fst (exec (api_check Scenario.defaults Scenario.fromisoformat
               Scenario.isoformat (Scenario.check (Some "B")))
            Scenario2.remote_saturated)
  = Return (CheckResponse false "Activation limit reached" None None)
  /\ store (snd (exec (api_check Scenario.defaults Scenario.fromisoformat
                         Scenario.isoformat (Scenario.check (Some "B")))
                      Scenario2.remote_saturated))
     = store Scenario2.remote_saturated.
Proof.
  apply (@supabase_limit_reached_refuses Scenario.defaults
           Scenario.fromisoformat Scenario.isoformat
           (Scenario.check (Some "B")) Scenario2.remote_saturated
           (Scenario.remote_license 1 true) 1%Z).
  - intros i _. reflexivity.
  - reflexivity.
  - reflexivity.
  - reflexivity.
  - reflexivity.
  - reflexivity.
  - lia.
  - vm_compute. discriminate.
Defined.

End RouteExtras.

